(** * Open3D tensor core: element-wise kernels, CUDA utilities and the
      fixed-radius nearest-neighbour index

    A shallow embedding of
    - the unary element-wise CPU kernels, [CopyCPU] and [UnaryEWCPU]
      (src/unnamed/part_001),
    - the binary element-wise CPU kernel, [BinaryEWCPU]
      (src/unnamed/part_002),
    - [ParallelFor] (open3d/core/kernel/CPULauncher.h),
    - [DeviceCount], [IsAvailable], [ReleaseCache]
      (open3d/core/CUDAUtils.cpp),
    - the class [FixedRadiusIndex] (src/unnamed/part_003 and
      open3d/core/nns/FixedRadiusIndex.cpp).

    C++ exceptions are modelled by a state-and-error monad in which the
    state survives a raised error, so that "fails without writing" is a
    statement about the final state.  Scalars, their conversions and the
    floating-point element functions are kept abstract in a type class;
    index arithmetic is done in [Z].  A tensor is a view over a blob of
    typed cells; the source and the output of a kernel call live in
    distinct blobs. *)

From Stdlib Require Import ZArith List Bool Lia QArith.
From stdpp Require Import base list strings pretty gmap.
Import ListNotations.

Local Open Scope Z_scope.

(** ** Results and the state-and-error monad *)

(** [utility::LogError] throws; a call either returns a value or raises
    the formatted diagnostic. *)
Inductive Result (A : Type) : Type :=
  | Ok (a : A)
  | Err (msg : string).
Arguments Ok {A} a.
Arguments Err {A} msg.

Definition is_err {A} (r : Result A) : bool :=
  match r with Ok _ => false | Err _ => true end.

(** A computation over a mutable state [S].  The state is returned in
    both cases: what was written before an exception stays written. *)
Definition M (S A : Type) : Type := S -> Result A * S.

Definition ret {S A} (a : A) : M S A := fun s => (Ok a, s).

Definition bind {S A B} (m : M S A) (k : A -> M S B) : M S B :=
  fun s => match m s with
           | (Ok a, s') => k a s'
           | (Err e, s') => (Err e, s')
           end.

Definition get {S} : M S S := fun s => (Ok s, s).
Definition put {S} (s : S) : M S unit := fun _ => (Ok tt, s).
Definition modify {S} (f : S -> S) : M S unit := fun s => (Ok tt, f s).

(** Modelled from the spec: [utility::LogError] (Logging.h is not part of
    the sources) "reports via a fatal, formatted diagnostic that aborts
    the call". *)
Definition LogError {S A} (msg : string) : M S A := fun s => (Err msg, s).

(** Modelled from the spec: [utility::LogWarning] (Logging.h is not part
    of the sources) only prints; it has no effect on the state. *)
Definition LogWarning {S} (msg : string) : M S unit := ret tt.

(** Lifting of a pure result into the monad. *)
Definition lift {S A} (r : Result A) : M S A := fun s => (r, s).

Declare Scope monad_scope.
Delimit Scope monad_scope with monad.
Notation "'let*' x ':=' m 'in' k" := (bind m (fun x => k))
  (at level 10, x name, m at level 100, k at level 200) : monad_scope.
Notation "m '>>' k" := (bind m (fun _ => k))
  (at level 90, right associativity) : monad_scope.
Local Open Scope monad_scope.

(** ** Dtype and Device *)

(** Modelled from the spec: Dtype.h is not part of the sources.  "An
    enumerated scalar kind (signed/unsigned integers of fixed widths,
    IEEE float32/64, boolean, opaque object blobs) with a fixed byte
    size". *)
Module Dtype.
Inductive t : Type :=
  | Undefined
  | Float32 | Float64
  | Int8 | Int16 | Int32 | Int64
  | UInt8 | UInt16 | UInt32 | UInt64
  | Bool
  | Object (byte_size : Z).

Definition eqb (a b : t) : bool :=
  match a, b with
  | Undefined, Undefined
  | Float32, Float32 | Float64, Float64
  | Int8, Int8 | Int16, Int16 | Int32, Int32 | Int64, Int64
  | UInt8, UInt8 | UInt16, UInt16 | UInt32, UInt32 | UInt64, UInt64
  | Bool, Bool => true
  | Object n, Object m => Z.eqb n m
  | _, _ => false
  end.

Definition ByteSize (d : t) : Z :=
  match d with
  | Undefined => 1
  | Float32 => 4 | Float64 => 8
  | Int8 => 1 | Int16 => 2 | Int32 => 4 | Int64 => 8
  | UInt8 => 1 | UInt16 => 2 | UInt32 => 4 | UInt64 => 8
  | Bool => 1
  | Object n => n
  end.

Definition IsObject (d : t) : bool :=
  match d with Object _ => true | _ => false end.

Definition is_float (d : t) : bool :=
  match d with Float32 | Float64 => true | _ => false end.

(** The scalar types of [DISPATCH_DTYPE_TO_TEMPLATE]. *)
Definition is_numeric (d : t) : bool :=
  match d with
  | Float32 | Float64
  | Int8 | Int16 | Int32 | Int64
  | UInt8 | UInt16 | UInt32 | UInt64 => true
  | _ => false
  end.

(** The scalar types of [DISPATCH_DTYPE_TO_TEMPLATE_WITH_BOOL]. *)
Definition is_scalar (d : t) : bool :=
  eqb d Bool || is_numeric d.

Definition ToString (d : t) : string :=
  match d with
  | Undefined => "Undefined"
  | Float32 => "Float32" | Float64 => "Float64"
  | Int8 => "Int8" | Int16 => "Int16" | Int32 => "Int32" | Int64 => "Int64"
  | UInt8 => "UInt8" | UInt16 => "UInt16" | UInt32 => "UInt32"
  | UInt64 => "UInt64"
  | Bool => "Bool"
  | Object _ => "Object"
  end.
End Dtype.

(** Modelled from the spec: Device.h is not part of the sources.  "A
    (kind, ordinal) pair identifying an execution target". *)
Module Device.
Inductive DeviceType : Type := CPU | CUDA.

Record t : Type := mk { GetType : DeviceType; GetID : Z }.

Definition type_eqb (a b : DeviceType) : bool :=
  match a, b with
  | CPU, CPU | CUDA, CUDA => true
  | _, _ => false
  end.

Definition eqb (a b : t) : bool :=
  type_eqb (GetType a) (GetType b) && Z.eqb (GetID a) (GetID b).
End Device.

(** ** Dtype dispatch *)

(** Modelled from the spec: Dispatch.h is not part of the sources.  "A
    tagged-union/enum-driven dispatch table mapping dtype tags to
    specialized function instances"; "unsupported op/dtype combinations
    fail rather than silently coerce".  The C++ type [scalar_t] bound by
    the macro is represented by its dtype tag. *)
Definition DISPATCH_DTYPE_TO_TEMPLATE {S A}
    (DTYPE : Dtype.t) (body : Dtype.t -> M S A) : M S A :=
  if Dtype.is_numeric DTYPE then body DTYPE
  else LogError "Unsupported data type.".

Definition DISPATCH_DTYPE_TO_TEMPLATE_WITH_BOOL {S A}
    (DTYPE : Dtype.t) (body : Dtype.t -> M S A) : M S A :=
  if Dtype.eqb DTYPE Dtype.Bool then body Dtype.Bool
  else DISPATCH_DTYPE_TO_TEMPLATE DTYPE body.

Definition DISPATCH_FLOAT_DTYPE_TO_TEMPLATE {S A}
    (DTYPE : Dtype.t) (body : Dtype.t -> M S A) : M S A :=
  if Dtype.is_float DTYPE then body DTYPE
  else LogError "Unsupported data type.".

(** ** Scalars *)

(** Modelled from the spec: the enumerations are declared in UnaryEW.h
    and BinaryEW.h, which are not part of the sources.  The op codes
    are the ones the kernels of the sources switch on. *)
Module UnaryEWOpCode.
Inductive t : Type :=
  | Sqrt | Sin | Cos | Neg | Exp | Abs
  | IsNan | IsInf | IsFinite
  | Floor | Ceil | Round | Trunc
  | LogicalNot.
End UnaryEWOpCode.

Module BinaryEWOpCode.
Inductive t : Type :=
  | Add | Sub | Mul | Div
  | LogicalAnd | LogicalOr | LogicalXor
  | Gt | Lt | Ge | Le | Eq | Ne.

Definition eqb (a b : t) : bool :=
  match a, b with
  | Add, Add | Sub, Sub | Mul, Mul | Div, Div
  | LogicalAnd, LogicalAnd | LogicalOr, LogicalOr
  | LogicalXor, LogicalXor
  | Gt, Gt | Lt, Lt | Ge, Ge | Le, Le | Eq, Eq | Ne, Ne => true
  | _, _ => false
  end.
End BinaryEWOpCode.

(** The values stored in tensor cells and the C++ operations on them.
    The kernels below are generic in these: which conversion or math
    routine runs on an element is fixed by the dispatch, what it computes
    is the C++ language's and libm's business. *)
Class ScalarModel : Type := {
  Scalar : Type;
  (** content of freshly allocated, not yet written memory *)
  uninit : Scalar;
  (** [static_cast<dst_t>(x)] for [x : src_t], [src_t <> dst_t] *)
  convert : Dtype.t -> Dtype.t -> Scalar -> Scalar;
  (** [static_cast<bool>(x)] for [x : src_t] *)
  truth : Dtype.t -> Scalar -> bool;
  (** [static_cast<dst_t>(b)] for [b : bool] *)
  of_bool : Dtype.t -> bool -> Scalar;
  (** [std::sqrt], [std::sin], ..., unary minus, on [scalar_t] *)
  unary_math : UnaryEWOpCode.t -> Dtype.t -> Scalar -> Scalar;
  (** [std::isnan], [std::isinf], [std::isfinite] after the cast to
      float *)
  float_test : UnaryEWOpCode.t -> Dtype.t -> Scalar -> bool;
  (** [+], [-], [*], [/] on [scalar_t] *)
  arith : BinaryEWOpCode.t -> Dtype.t -> Scalar -> Scalar -> Scalar;
  (** [>], [<], [>=], [<=], [==], [!=] on [src_t] *)
  compare : BinaryEWOpCode.t -> Dtype.t -> Scalar -> Scalar -> bool;
}.

(** [static_cast<dst_t>(x)]: the identity when both types agree. *)
Definition static_cast `{ScalarModel}
    (src_t dst_t : Dtype.t) (x : Scalar) : Scalar :=
  if Dtype.eqb src_t dst_t then x else convert src_t dst_t x.

(** ** Memory *)

(** A blob is a block of cells, one per element; pointers into it are
    element offsets.  Reading or writing outside the block is undefined
    behaviour in C++: the model reads nothing and leaves the blob as it
    is. *)
Definition read {A} (blob : list A) (ptr : Z) : option A :=
  if 0 <=? ptr then blob !! Z.to_nat ptr else None.

Definition write {A} (ptr : Z) (v : A) (blob : list A) : list A :=
  if 0 <=? ptr then <[Z.to_nat ptr := v]> blob else blob.

Module cpu_launcher.
Definition SMALL_OP_GRAIN_SIZE : Z := 32767.

(** [for (int64_t i = 0; i < n; ++i) func(i);] The pragma only decides
    whether the iterations are spread over threads; the kernels write
    one distinct cell per iteration, so the loop is run in index
    order. *)
Definition ParallelFor {S} (n grain_size : Z)
    (func : Z -> S -> S) (s : S) : S :=
  fold_left (fun acc i => func (Z.of_nat i) acc) (seq 0 (Z.to_nat n)) s.
End cpu_launcher.

(** A loop of [n] iterations whose iteration [i] stores [g i] in the
    cell [p + i], when there is such a value. *)
Definition store_loop {A} (n p : Z) (g : Z -> option A) (blob : list A)
    : list A :=
  cpu_launcher.ParallelFor n 0
    (fun i b => match g i with Some v => write (p + i) v b | None => b end)
    blob.

Module MemoryManager.
(** Modelled from the spec: MemoryManager.h is not part of the sources.
    [Memcpy(dst_ptr, dst_device, src_ptr, src_device, nbytes)] copies
    [num_bytes] raw bytes, that is [num_bytes / elem_bytes] whole cells
    of [elem_bytes] bytes each, without looking at them. *)
Definition Memcpy {A} (dst_ptr : Z) (src_blob : list A) (src_ptr : Z)
    (num_bytes elem_bytes : Z) (dst_blob : list A) : list A :=
  store_loop (num_bytes / elem_bytes) dst_ptr
             (fun i => read src_blob (src_ptr + i)) dst_blob.
End MemoryManager.

(** ** Shapes and tensors *)

Module shape_util.
Definition NumElements (shape : list Z) : Z := fold_right Z.mul 1 shape.

(** Canonical row-major strides, in elements. *)
Fixpoint DefaultStrides (shape : list Z) : list Z :=
  match shape with
  | [] => []
  | _ :: rest => NumElements rest :: DefaultStrides rest
  end.

Definition shape_eqb (a b : list Z) : bool :=
  bool_decide (a = b).

(** Right-aligned broadcasting: [src] fits [dst] when it has at most
    as many dimensions and each of them is 1 or the size of the
    dimension of [dst] it is aligned with. *)
Fixpoint aligned_ok (src dst : list Z) : bool :=
  match src, dst with
  | [], [] => true
  | s :: src', d :: dst' => ((s =? 1) || (s =? d)) && aligned_ok src' dst'
  | _, _ => false
  end.

Definition CanBeBrocastedToShape (src dst : list Z) : bool :=
  (length src <=? length dst)%nat &&
  aligned_ok src (drop (length dst - length src)%nat dst).

(** Element offset of the workload [i] of a row-major iteration over
    [shape], in a layout with the given [strides]. *)
Fixpoint offset_of (shape strides : list Z) (i : Z) : Z :=
  match shape, strides with
  | s :: shape', st :: strides' =>
      let inner := NumElements shape' in
      ((i / inner) mod s) * st + offset_of shape' strides' (i mod inner)
  | _, _ => 0
  end.
End shape_util.

Section Tensors.
Context `{SM : ScalarModel}.

(** Modelled from the spec: Tensor.h is not part of the sources.  "A
    strided N-dimensional array view over a shared buffer": shape,
    strides (in elements), dtype, device, the offset of the first
    element and the buffer. *)
Record Tensor : Type := mkTensor {
  shape_ : list Z;
  strides_ : list Z;
  dtype_ : Dtype.t;
  device_ : Device.t;
  data_ptr_ : Z;
  blob_ : list Scalar;
}.

Definition GetShape (t : Tensor) := shape_ t.
Definition GetDtype (t : Tensor) := dtype_ t.
Definition GetDevice (t : Tensor) := device_ t.
Definition GetDataPtr (t : Tensor) := data_ptr_ t.
Definition NumElements (t : Tensor) := shape_util.NumElements (shape_ t).

(** Modelled from the spec: part of Tensor.h.  "Contiguous iff strides
    match the canonical row-major layout for its shape." *)
Definition IsContiguous (t : Tensor) : bool :=
  bool_decide (strides_ t = shape_util.DefaultStrides (shape_ t)).

(** Modelled from the spec: [Tensor::Empty(shape, dtype, device)], part
    of Tensor.h: a fresh contiguous tensor over a buffer of its own. *)
Definition Empty (shape : list Z) (dtype : Dtype.t) (device : Device.t)
    : Tensor :=
  {| shape_ := shape;
     strides_ := shape_util.DefaultStrides shape;
     dtype_ := dtype;
     device_ := device;
     data_ptr_ := 0;
     blob_ := replicate (Z.to_nat (shape_util.NumElements shape)) uninit |}.

Definition with_blob (t : Tensor) (blob : list Scalar) : Tensor :=
  {| shape_ := shape_ t; strides_ := strides_ t; dtype_ := dtype_ t;
     device_ := device_ t; data_ptr_ := data_ptr_ t; blob_ := blob |}.

(** The element of the workload [i] (row-major) of a tensor. *)
Definition element (t : Tensor) (i : Z) : option Scalar :=
  read (blob_ t)
       (data_ptr_ t + shape_util.offset_of (shape_ t) (strides_ t) i).

(** A tensor all of whose elements lie inside its blob. *)
Definition in_bounds (t : Tensor) : Prop :=
  Forall (fun d => 0 <= d) (shape_ t) /\
  forall i, 0 <= i < NumElements t ->
    0 <= data_ptr_ t + shape_util.offset_of (shape_ t) (strides_ t) i
      < Z.of_nat (length (blob_ t)).
End Tensors.

(** ** Indexer *)

Module DtypePolicy.
Inductive t : Type := NONE | ALL_SAME | INPUT_SAME_OUTPUT_BOOL.
End DtypePolicy.

Section Indexers.
Context `{SM : ScalarModel}.

(** A pointer to a cell that is only read: the blob and the element
    offset in it. *)
Record Ptr : Type := mkPtr { ptr_blob : list Scalar; ptr_off : Z }.

Definition deref (p : Ptr) : option Scalar := read (ptr_blob p) (ptr_off p).

(** An input of an indexer: its first element, its strides after
    broadcasting to the output shape, and its blob. *)
Record TensorRef : Type := mkTensorRef {
  ref_ptr : Z;
  ref_strides : list Z;
  ref_blob : list Scalar;
}.

(** Modelled from the spec: part of Indexer.h.  "Broadcasting aligns
    trailing dimensions and stretches size-1 dimensions": a dimension
    of size 1 that the output stretches is read with stride 0. *)
Fixpoint broadcast_strides (shape strides dst_shape : list Z) : list Z :=
  match shape, strides, dst_shape with
  | s :: shape', st :: strides', d :: dst_shape' =>
      (if (s =? 1) && negb (d =? 1) then 0 else st)
        :: broadcast_strides shape' strides' dst_shape'
  | _, _, _ => []
  end.

(** Modelled from the spec: part of Indexer.h.  The omitted leading
    dimensions get size 1 and stride 0. *)
Definition BroadcastRestride (src : Tensor) (dst_shape : list Z)
    : TensorRef :=
  let omitted := (length dst_shape - length (shape_ src))%nat in
  {| ref_ptr := data_ptr_ src;
     ref_strides :=
       broadcast_strides (replicate omitted 1 ++ shape_ src)
                         (replicate omitted 0 ++ strides_ src)
                         dst_shape;
     ref_blob := blob_ src |}.

(** Modelled from the spec: Indexer.h is not part of the sources.  "A
    transient, operation-scoped object built from a set of input
    Tensors and one output Tensor"; it "yields per-element byte-pointer
    access for arbitrary strides without materializing broadcasted
    copies".  The output blob is the state the kernels run on, so the
    indexer keeps only the output's layout. *)
Record Indexer : Type := mkIndexer {
  inputs_ : list TensorRef;
  output_ptr_ : Z;
  output_strides_ : list Z;
  master_shape_ : list Z;
}.

Definition all_dtype (d : Dtype.t) (ts : list Tensor) : bool :=
  forallb (fun t => Dtype.eqb (GetDtype t) d) ts.

(** Modelled from the spec: part of Indexer.h.  "ALL_SAME requires
    every operand to share one dtype or errors; INPUT_SAME_OUTPUT_BOOL
    forces the output dtype to boolean; NONE performs no coercion." *)
Definition check_dtype_policy (inputs : list Tensor) (output : Tensor)
    (policy : DtypePolicy.t) : bool :=
  match policy, inputs with
  | DtypePolicy.NONE, _ => true
  | _, [] => false
  | DtypePolicy.ALL_SAME, t0 :: _ =>
      all_dtype (GetDtype t0) inputs &&
      Dtype.eqb (GetDtype output) (GetDtype t0)
  | DtypePolicy.INPUT_SAME_OUTPUT_BOOL, t0 :: _ =>
      all_dtype (GetDtype t0) inputs &&
      Dtype.eqb (GetDtype output) Dtype.Bool
  end.

(** Modelled from the spec: the constructor of Indexer.h.  The dtype
    policy is checked, then every input must broadcast to the output
    shape ("a shape mismatch of incompatible non-1 sizes is a hard
    error"). *)
Definition Indexer_new {S} (inputs : list Tensor) (output : Tensor)
    (policy : DtypePolicy.t) : M S Indexer :=
  if negb (check_dtype_policy inputs output policy) then
    LogError "Dtype mismatch."
  else if negb (forallb (fun t => shape_util.CanBeBrocastedToShape
                                    (GetShape t) (GetShape output))
                        inputs) then
    LogError "Shape mismatch."
  else
    ret {| inputs_ := map (fun t => BroadcastRestride t (GetShape output))
                          inputs;
           output_ptr_ := GetDataPtr output;
           output_strides_ := strides_ output;
           master_shape_ := GetShape output |}.

Definition NumWorkloads (indexer : Indexer) : Z :=
  shape_util.NumElements (master_shape_ indexer).

(** Modelled from the spec: part of Indexer.h.  The cell of input [k]
    read by workload [i]; an input the indexer does not have is a
    pointer that reads nothing. *)
Definition GetInputPtr (indexer : Indexer) (k : nat) (i : Z) : Ptr :=
  match inputs_ indexer !! k with
  | Some r =>
      {| ptr_blob := ref_blob r;
         ptr_off := ref_ptr r +
                    shape_util.offset_of (master_shape_ indexer)
                                         (ref_strides r) i |}
  | None => {| ptr_blob := []; ptr_off := 0 |}
  end.

(** Modelled from the spec: part of Indexer.h.  The cell of the output
    written by workload [i]. *)
Definition GetOutputPtr (indexer : Indexer) (i : Z) : Z :=
  output_ptr_ indexer +
  shape_util.offset_of (master_shape_ indexer) (output_strides_ indexer) i.
End Indexers.

(** ** Element-wise kernels on the CPU *)

Module kernel.
Section Kernels.
Context `{SM : ScalarModel}.

(** The state of a kernel call is the blob of the output tensor.  The
    inputs are read from the blobs they had when the call started. *)
Definition Blob : Type := list Scalar.

(** An element kernel: the cell [src] points to is read, [f] is
    applied and the result is stored in the cell [dst] of the output. *)
Definition store1 (f : Scalar -> Scalar) (src : Ptr) (dst : Z)
    (blob : Blob) : Blob :=
  match deref src with
  | Some x => write dst (f x) blob
  | None => blob
  end.

Definition store2 (f : Scalar -> Scalar -> Scalar) (lhs rhs : Ptr) (dst : Z)
    (blob : Blob) : Blob :=
  match deref lhs, deref rhs with
  | Some x, Some y => write dst (f x y) blob
  | _, _ => blob
  end.

Definition LaunchUnaryEWKernel (indexer : Indexer)
    (func : Ptr -> Z -> Blob -> Blob) : M Blob unit :=
  modify (cpu_launcher.ParallelFor
            (NumWorkloads indexer) cpu_launcher.SMALL_OP_GRAIN_SIZE
            (fun i => func (GetInputPtr indexer 0 i)
                           (GetOutputPtr indexer i))).

Definition CPUCopyElementKernel (src_t dst_t : Dtype.t) :=
  store1 (static_cast src_t dst_t).

(** [memcpy(dst_bytes, src_bytes, object_byte_size)]: the cell is
    copied as it is. *)
Definition CPUCopyObjectElementKernel (object_byte_size : Z) :=
  store1 (fun x => x).

Definition CPUSqrtElementKernel (scalar_t : Dtype.t) :=
  store1 (unary_math UnaryEWOpCode.Sqrt scalar_t).
Definition CPUSinElementKernel (scalar_t : Dtype.t) :=
  store1 (unary_math UnaryEWOpCode.Sin scalar_t).
Definition CPUCosElementKernel (scalar_t : Dtype.t) :=
  store1 (unary_math UnaryEWOpCode.Cos scalar_t).
Definition CPUNegElementKernel (scalar_t : Dtype.t) :=
  store1 (unary_math UnaryEWOpCode.Neg scalar_t).
Definition CPUExpElementKernel (scalar_t : Dtype.t) :=
  store1 (unary_math UnaryEWOpCode.Exp scalar_t).
Definition CPUAbsElementKernel (scalar_t : Dtype.t) :=
  store1 (unary_math UnaryEWOpCode.Abs scalar_t).
Definition CPUIsNanElementKernel (scalar_t : Dtype.t) :=
  store1 (fun x => of_bool Dtype.Bool
                     (float_test UnaryEWOpCode.IsNan scalar_t x)).
Definition CPUIsInfElementKernel (scalar_t : Dtype.t) :=
  store1 (fun x => of_bool Dtype.Bool
                     (float_test UnaryEWOpCode.IsInf scalar_t x)).
Definition CPUIsFiniteElementKernel (scalar_t : Dtype.t) :=
  store1 (fun x => of_bool Dtype.Bool
                     (float_test UnaryEWOpCode.IsFinite scalar_t x)).
Definition CPUFloorElementKernel (scalar_t : Dtype.t) :=
  store1 (unary_math UnaryEWOpCode.Floor scalar_t).
Definition CPUCeilElementKernel (scalar_t : Dtype.t) :=
  store1 (unary_math UnaryEWOpCode.Ceil scalar_t).
Definition CPURoundElementKernel (scalar_t : Dtype.t) :=
  store1 (unary_math UnaryEWOpCode.Round scalar_t).
Definition CPUTruncElementKernel (scalar_t : Dtype.t) :=
  store1 (unary_math UnaryEWOpCode.Trunc scalar_t).
Definition CPULogicalNotElementKernel (src_t dst_t : Dtype.t) :=
  store1 (fun x => of_bool dst_t (negb (truth src_t x))).

(** The last branch of [CopyCPU]: the copy through an indexer, one
    element at a time. *)
Definition CopyCPU_indexer (src dst : Tensor) : M Blob unit :=
  let src_dtype := GetDtype src in
  let dst_dtype := GetDtype dst in
  let* indexer := Indexer_new [src] dst DtypePolicy.NONE in
  if Dtype.IsObject (GetDtype src) then
    let object_byte_size := Dtype.ByteSize (GetDtype src) in
    LaunchUnaryEWKernel indexer
      (CPUCopyObjectElementKernel object_byte_size)
  else
    DISPATCH_DTYPE_TO_TEMPLATE_WITH_BOOL src_dtype (fun src_t =>
      DISPATCH_DTYPE_TO_TEMPLATE_WITH_BOOL dst_dtype (fun dst_t =>
        LaunchUnaryEWKernel indexer (CPUCopyElementKernel src_t dst_t))).

(** Modelled from the spec: [Tensor::To] is not part of the sources.
    A tensor that has the dtype already is returned as it is; otherwise
    a fresh contiguous tensor of the same shape is filled by the copy
    kernel.  Source and destination then differ in dtype and agree in
    shape, so [CopyCPU] runs its last branch. *)
Definition To {S} (src : Tensor) (dtype : Dtype.t) : M S Tensor :=
  if Dtype.eqb (GetDtype src) dtype then ret src
  else
    let dst := Empty (GetShape src) dtype (GetDevice src) in
    match CopyCPU_indexer src dst (blob_ dst) with
    | (Ok _, blob) => ret (with_blob dst blob)
    | (Err e, _) => LogError e
    end.

(** Modelled from the spec: [Tensor::Item] is not part of the sources.
    The value of a tensor of exactly one element. *)
Definition Item {S} (t : Tensor) : M S Scalar :=
  if negb (NumElements t =? 1) then
    LogError "Tensor::Item() only works for Tensor with exactly one element."
  else
    ret (default uninit (read (blob_ t) (GetDataPtr t))).

Definition CopyCPU (src dst : Tensor) : M Blob unit :=
  let shape := GetShape src in
  let src_dtype := GetDtype src in
  let dst_dtype := GetDtype dst in
  if IsContiguous src && IsContiguous dst &&
     shape_util.shape_eqb (GetShape src) (GetShape dst) &&
     Dtype.eqb src_dtype dst_dtype then
    modify (MemoryManager.Memcpy
              (GetDataPtr dst) (blob_ src) (GetDataPtr src)
              (Dtype.ByteSize src_dtype * shape_util.NumElements shape)
              (Dtype.ByteSize src_dtype))
  else if (NumElements dst >? 1) && IsContiguous dst &&
          (NumElements src =? 1) && negb (Dtype.IsObject src_dtype) then
    let num_elements := NumElements dst in
    DISPATCH_DTYPE_TO_TEMPLATE_WITH_BOOL dst_dtype (fun scalar_t =>
      let* converted := To src dst_dtype in
      let* scalar_element := Item converted in
      let dst_ptr := GetDataPtr dst in
      modify (cpu_launcher.ParallelFor
                num_elements cpu_launcher.SMALL_OP_GRAIN_SIZE
                (fun workload_idx =>
                   write (dst_ptr + workload_idx) scalar_element)))
  else
    CopyCPU_indexer src dst.

Definition assert_dtype_is_float (dtype : Dtype.t) : M Blob unit :=
  if negb (Dtype.eqb dtype Dtype.Float32) &&
     negb (Dtype.eqb dtype Dtype.Float64) then
    LogError ("Only supports Float32 and Float64, but "
                +:+ Dtype.ToString dtype +:+ " is used.")
  else ret tt.

Definition UnaryEWCPU (src dst : Tensor) (op_code : UnaryEWOpCode.t)
    : M Blob unit :=
  let src_dtype := GetDtype src in
  let dst_dtype := GetDtype dst in
  match op_code with
  | UnaryEWOpCode.LogicalNot =>
      DISPATCH_DTYPE_TO_TEMPLATE_WITH_BOOL src_dtype (fun scalar_t =>
        if Dtype.eqb dst_dtype src_dtype then
          let* indexer := Indexer_new [src] dst DtypePolicy.ALL_SAME in
          LaunchUnaryEWKernel indexer
            (CPULogicalNotElementKernel scalar_t scalar_t)
        else if Dtype.eqb dst_dtype Dtype.Bool then
          let* indexer :=
            Indexer_new [src] dst DtypePolicy.INPUT_SAME_OUTPUT_BOOL in
          LaunchUnaryEWKernel indexer
            (CPULogicalNotElementKernel scalar_t Dtype.Bool)
        else
          LogError ("Boolean op's output type must be boolean or the "
                      +:+ "same type as the input."))
  | UnaryEWOpCode.IsNan | UnaryEWOpCode.IsInf | UnaryEWOpCode.IsFinite =>
      assert_dtype_is_float src_dtype >>
      let* indexer :=
        Indexer_new [src] dst DtypePolicy.INPUT_SAME_OUTPUT_BOOL in
      DISPATCH_DTYPE_TO_TEMPLATE src_dtype (fun scalar_t =>
        match op_code with
        | UnaryEWOpCode.IsNan =>
            LaunchUnaryEWKernel indexer (CPUIsNanElementKernel scalar_t)
        | UnaryEWOpCode.IsInf =>
            LaunchUnaryEWKernel indexer (CPUIsInfElementKernel scalar_t)
        | UnaryEWOpCode.IsFinite =>
            LaunchUnaryEWKernel indexer (CPUIsFiniteElementKernel scalar_t)
        | _ => ret tt
        end)
  | _ =>
      let* indexer := Indexer_new [src] dst DtypePolicy.ALL_SAME in
      DISPATCH_DTYPE_TO_TEMPLATE src_dtype (fun scalar_t =>
        match op_code with
        | UnaryEWOpCode.Sqrt =>
            assert_dtype_is_float src_dtype >>
            LaunchUnaryEWKernel indexer (CPUSqrtElementKernel scalar_t)
        | UnaryEWOpCode.Sin =>
            assert_dtype_is_float src_dtype >>
            LaunchUnaryEWKernel indexer (CPUSinElementKernel scalar_t)
        | UnaryEWOpCode.Cos =>
            assert_dtype_is_float src_dtype >>
            LaunchUnaryEWKernel indexer (CPUCosElementKernel scalar_t)
        | UnaryEWOpCode.Neg =>
            LaunchUnaryEWKernel indexer (CPUNegElementKernel scalar_t)
        | UnaryEWOpCode.Exp =>
            assert_dtype_is_float src_dtype >>
            LaunchUnaryEWKernel indexer (CPUExpElementKernel scalar_t)
        | UnaryEWOpCode.Abs =>
            LaunchUnaryEWKernel indexer (CPUAbsElementKernel scalar_t)
        | UnaryEWOpCode.Floor =>
            LaunchUnaryEWKernel indexer (CPUFloorElementKernel scalar_t)
        | UnaryEWOpCode.Ceil =>
            LaunchUnaryEWKernel indexer (CPUCeilElementKernel scalar_t)
        | UnaryEWOpCode.Round =>
            LaunchUnaryEWKernel indexer (CPURoundElementKernel scalar_t)
        | UnaryEWOpCode.Trunc =>
            LaunchUnaryEWKernel indexer (CPUTruncElementKernel scalar_t)
        | _ => LogError "Unimplemented op_code for UnaryEWCPU"
        end)
  end.

(** *** Binary operations *)

Definition LaunchBinaryEWKernel (indexer : Indexer)
    (func : Ptr -> Ptr -> Z -> Blob -> Blob) : M Blob unit :=
  modify (cpu_launcher.ParallelFor
            (NumWorkloads indexer) cpu_launcher.SMALL_OP_GRAIN_SIZE
            (fun i => func (GetInputPtr indexer 0 i)
                           (GetInputPtr indexer 1 i)
                           (GetOutputPtr indexer i))).

Definition CPUAddElementKernel (scalar_t : Dtype.t) :=
  store2 (arith BinaryEWOpCode.Add scalar_t).
Definition CPUSubElementKernel (scalar_t : Dtype.t) :=
  store2 (arith BinaryEWOpCode.Sub scalar_t).
Definition CPUMulElementKernel (scalar_t : Dtype.t) :=
  store2 (arith BinaryEWOpCode.Mul scalar_t).
Definition CPUDivElementKernel (scalar_t : Dtype.t) :=
  store2 (arith BinaryEWOpCode.Div scalar_t).

Definition CPULogicalAndElementKernel (src_t dst_t : Dtype.t) :=
  store2 (fun x y => of_bool dst_t (truth src_t x && truth src_t y)).
Definition CPULogicalOrElementKernel (src_t dst_t : Dtype.t) :=
  store2 (fun x y => of_bool dst_t (truth src_t x || truth src_t y)).
Definition CPULogicalXorElementKernel (src_t dst_t : Dtype.t) :=
  store2 (fun x y => of_bool dst_t (xorb (truth src_t x) (truth src_t y))).
Definition CPUGtElementKernel (src_t dst_t : Dtype.t) :=
  store2 (fun x y => of_bool dst_t (compare BinaryEWOpCode.Gt src_t x y)).
Definition CPULtElementKernel (src_t dst_t : Dtype.t) :=
  store2 (fun x y => of_bool dst_t (compare BinaryEWOpCode.Lt src_t x y)).
Definition CPUGeqElementKernel (src_t dst_t : Dtype.t) :=
  store2 (fun x y => of_bool dst_t (compare BinaryEWOpCode.Ge src_t x y)).
Definition CPULeqElementKernel (src_t dst_t : Dtype.t) :=
  store2 (fun x y => of_bool dst_t (compare BinaryEWOpCode.Le src_t x y)).
Definition CPUEqElementKernel (src_t dst_t : Dtype.t) :=
  store2 (fun x y => of_bool dst_t (compare BinaryEWOpCode.Eq src_t x y)).
Definition CPUNeqElementKernel (src_t dst_t : Dtype.t) :=
  store2 (fun x y => of_bool dst_t (compare BinaryEWOpCode.Ne src_t x y)).

Definition LaunchBoolBinaryEWCPUKernel (src_t dst_t : Dtype.t)
    (lhs rhs dst : Tensor) (op_code : BinaryEWOpCode.t)
    (indexer : Indexer) : M Blob unit :=
  match op_code with
  | BinaryEWOpCode.LogicalAnd =>
      LaunchBinaryEWKernel indexer (CPULogicalAndElementKernel src_t dst_t)
  | BinaryEWOpCode.LogicalOr =>
      LaunchBinaryEWKernel indexer (CPULogicalOrElementKernel src_t dst_t)
  | BinaryEWOpCode.LogicalXor =>
      LaunchBinaryEWKernel indexer (CPULogicalXorElementKernel src_t dst_t)
  | BinaryEWOpCode.Gt =>
      LaunchBinaryEWKernel indexer (CPUGtElementKernel src_t dst_t)
  | BinaryEWOpCode.Lt =>
      LaunchBinaryEWKernel indexer (CPULtElementKernel src_t dst_t)
  | BinaryEWOpCode.Ge =>
      LaunchBinaryEWKernel indexer (CPUGeqElementKernel src_t dst_t)
  | BinaryEWOpCode.Le =>
      LaunchBinaryEWKernel indexer (CPULeqElementKernel src_t dst_t)
  | BinaryEWOpCode.Eq =>
      LaunchBinaryEWKernel indexer (CPUEqElementKernel src_t dst_t)
  | BinaryEWOpCode.Ne =>
      LaunchBinaryEWKernel indexer (CPUNeqElementKernel src_t dst_t)
  | _ => ret tt
  end.

(** Modelled from the spec: the table is declared in BinaryEW.h, which
    is not part of the sources.  The boolean binary operations are
    "logical and/or/xor, and the six comparison operators". *)
Definition s_boolean_binary_ew_op_codes : list BinaryEWOpCode.t :=
  [ BinaryEWOpCode.LogicalAnd; BinaryEWOpCode.LogicalOr;
    BinaryEWOpCode.LogicalXor;
    BinaryEWOpCode.Gt; BinaryEWOpCode.Lt; BinaryEWOpCode.Ge;
    BinaryEWOpCode.Le; BinaryEWOpCode.Eq; BinaryEWOpCode.Ne ].

Definition BinaryEWCPU (lhs rhs dst : Tensor) (op_code : BinaryEWOpCode.t)
    : M Blob unit :=
  let src_dtype := GetDtype lhs in
  let dst_dtype := GetDtype dst in
  if existsb (BinaryEWOpCode.eqb op_code) s_boolean_binary_ew_op_codes then
    DISPATCH_DTYPE_TO_TEMPLATE_WITH_BOOL src_dtype (fun scalar_t =>
      if Dtype.eqb dst_dtype src_dtype then
        let* indexer := Indexer_new [lhs; rhs] dst DtypePolicy.ALL_SAME in
        LaunchBoolBinaryEWCPUKernel scalar_t scalar_t
          lhs rhs dst op_code indexer
      else if Dtype.eqb dst_dtype Dtype.Bool then
        let* indexer :=
          Indexer_new [lhs; rhs] dst DtypePolicy.INPUT_SAME_OUTPUT_BOOL in
        LaunchBoolBinaryEWCPUKernel scalar_t Dtype.Bool
          lhs rhs dst op_code indexer
      else
        LogError ("Boolean op's output type must be boolean or the "
                    +:+ "same type as the input."))
  else
    let* indexer := Indexer_new [lhs; rhs] dst DtypePolicy.ALL_SAME in
    DISPATCH_DTYPE_TO_TEMPLATE src_dtype (fun scalar_t =>
      match op_code with
      | BinaryEWOpCode.Add =>
          LaunchBinaryEWKernel indexer (CPUAddElementKernel scalar_t)
      | BinaryEWOpCode.Sub =>
          LaunchBinaryEWKernel indexer (CPUSubElementKernel scalar_t)
      | BinaryEWOpCode.Mul =>
          LaunchBinaryEWKernel indexer (CPUMulElementKernel scalar_t)
      | BinaryEWOpCode.Div =>
          LaunchBinaryEWKernel indexer (CPUDivElementKernel scalar_t)
      | _ => ret tt
      end).
End Kernels.
End kernel.

(** ** CUDA utilities *)

(** The two preprocessor switches the sources branch on. *)
Record BuildConfig : Type := mkBuildConfig {
  BUILD_CUDA_MODULE : bool;
  BUILD_CACHED_CUDA_MANAGER : bool;
}.

Module cuda.
(** What [CUDAState::GetInstance()] does on the machine: it throws a
    [std::runtime_error] ("GetInstance can throw") or yields the state
    with its number of devices. *)
Inductive CUDAStateInstance : Type :=
  | GetInstance_throws (what : string)
  | GetInstance_returns (GetNumDevices : Z).

(** A block held by the caching allocator: the ordinal of the CUDA
    device it was allocated on and its size. *)
Record CachedBlock : Type := mkCachedBlock {
  block_device : Z;
  block_bytes : Z;
}.

(** The part of the process the three functions touch. *)
Record Runtime : Type := mkRuntime {
  cuda_state : CUDAStateInstance;
  (** blocks freed by their tensors and kept for reuse *)
  cached_blocks : list CachedBlock;
  (** blocks handed back to the device allocator *)
  released_blocks : list CachedBlock;
}.

Definition DeviceCount (cfg : BuildConfig) : M Runtime Z :=
  if BUILD_CUDA_MODULE cfg then
    let* rt := get in
    match cuda_state rt with
    | GetInstance_returns n => ret n
    | GetInstance_throws _ => ret 0
    end
  else ret 0.

Definition IsAvailable (cfg : BuildConfig) : M Runtime bool :=
  let* n := DeviceCount cfg in ret (n >? 0).

(** Modelled from the spec: [CachedMemoryManager::ReleaseCache] is not
    part of the sources.  It "returns all cached-but-unused blocks to
    the underlying allocator". *)
Definition CachedMemoryManager_ReleaseCache : M Runtime unit :=
  modify (fun rt =>
    {| cuda_state := cuda_state rt;
       cached_blocks := [];
       released_blocks := released_blocks rt ++ cached_blocks rt |}).

Definition ReleaseCache (cfg : BuildConfig) : M Runtime unit :=
  if BUILD_CUDA_MODULE cfg then
    if BUILD_CACHED_CUDA_MANAGER cfg then
      CachedMemoryManager_ReleaseCache
    else
      LogWarning ("Built without cached CUDA memory manager, "
                    +:+ "cuda::ReleaseCache() has no effect.")
  else
    LogWarning "Built without CUDA module, cuda::ReleaseCache().".

(** No accelerator is present: the CUDA module is not built, or no
    device is usable. *)
Definition no_accelerator (cfg : BuildConfig) (rt : Runtime) : Prop :=
  BUILD_CUDA_MODULE cfg = false \/
  match cuda_state rt with
  | GetInstance_throws _ => True
  | GetInstance_returns n => n = 0
  end.

(** Cached blocks were allocated on a device that exists. *)
Definition cache_consistent (rt : Runtime) : Prop :=
  Forall (fun b => match cuda_state rt with
                   | GetInstance_returns n => 0 <= block_device b < n
                   | GetInstance_throws _ => False
                   end)
         (cached_blocks rt).
End cuda.

(** ** Fixed-radius nearest-neighbour index *)

Module nns.

(** A contiguous typed tensor on the device, given by its shape and its
  elements in row-major order.  The Int64 tensors of the index (hash
  table, neighbour indices, counts, row splits) are arrays of [Z]. *)
Record Array (A : Type) : Type := mkArray {
arr_shape : list Z;
arr_data : list A;
}.
Arguments mkArray {A} _ _.
Arguments arr_shape {A} _.
Arguments arr_data {A} _.

(** [Tensor::Empty(shape, ...)] and [Tensor::Full(shape, value, ...)];
  the cells of an empty tensor hold [fill] until they are written. *)
Definition Array_Full {A} (shape : list Z) (fill : A) : Array A :=
{| arr_shape := shape;
   arr_data := replicate (Z.to_nat (shape_util.NumElements shape)) fill |}.

(** [Tensor()]: no element. *)
Definition Array_default {A} : Array A :=
{| arr_shape := [0]; arr_data := [] |}.

(** Modelled from the spec: [Tensor::View] is not part of the sources.
  "Views never copy the underlying buffer, only adjust
  shape/strides/offset"; the new shape must have as many elements as
  the tensor.  (The placeholder dimension -1 is not modelled.) *)
Definition Array_View {S A} (a : Array A) (shape : list Z) : M S (Array A) :=
if shape_util.NumElements shape =? Z.of_nat (length (arr_data a)) then
  ret {| arr_shape := shape; arr_data := arr_data a |}
else LogError "View: shape does not match the number of elements.".

(** The device operations the index calls. *)
Inductive DeviceOp : Type :=
| BuildSpatialHashTableCUDA_op
| FixedRadiusSearchCUDA_op
| SortPairs_op
| HybridSearchCUDA_op.

(** The scratch arguments of a device call: none at all, or the pair
  [(temp_ptr, temp_size)], where [temp_ptr] is [None] for [nullptr] and
  otherwise the size in bytes of the buffer it points to. *)
Inductive ScratchArgs : Type :=
| NoScratchParameters
| Scratch (temp_ptr : option Z) (temp_size : Z).

Inductive Event : Type :=
| DeviceCall (op : DeviceOp) (scratch : ScratchArgs)
| AllocTemp (bytes : Z).

(** [double] arithmetic of [hash_table_size_factor * num_dataset_points].
  A finite double is a rational.  An [int64_t] is converted to the
  nearest double (ties to even, 53 bits of mantissa); the product with
  1/32 only changes the exponent and is exact; the conversion back to
  [int64_t] truncates. *)
Definition round53 (n : Z) : Z :=
if Z.abs n <? 2 ^ 53 then n
else
  let e := Z.log2 (Z.abs n) - 52 in
  let q := n / 2 ^ e in
  let r := n mod 2 ^ e in
  let half := 2 ^ (e - 1) in
  (if r <? half then q
   else if half <? r then q + 1
   else if Z.even q then q else q + 1) * 2 ^ e.

Definition double_of_int64 (n : Z) : Q := inject_Z (round53 n).

Definition int64_of_double (x : Q) : Z := Z.quot (Qnum x) (Zpos (Qden x)).

Definition hash_table_size_factor : Q := 1 # 32.
Definition max_hash_tabls_size : Z := 33554432.

Section Index.
Context `{SM : ScalarModel}.

(** The geometry of the device kernels and the scratch they ask for.
    FixedRadiusSearch.h and the CUDA kernels are not part of the
    sources; what the spec leaves open is a parameter here. *)
Class DeviceModel : Type := {
  (** spatial hash of the cell of a point, for a cell size derived from
      the radius, in [scalar_t] arithmetic *)
  cell_hash : Dtype.t -> Q -> list Scalar -> Z;
  (** the point lies within the radius of the query *)
  in_radius : Dtype.t -> Q -> list Scalar -> list Scalar -> bool;
  (** the distance reported for a neighbour *)
  distance : Dtype.t -> list Scalar -> list Scalar -> Scalar;
  (** order of two reported distances *)
  dist_leb : Dtype.t -> Scalar -> Scalar -> bool;
  (** padding of the distance array of the hybrid search *)
  pad_distance : Dtype.t -> Scalar;
  (** scratch bytes of the three two-pass operations, from their
      problem sizes *)
  build_temp_size : Z -> Z -> Z;
  search_temp_size : Z -> Z -> Z;
  sort_temp_size : Z -> Z -> Z;
}.
Context `{DM : DeviceModel}.

(** Modelled from the spec: [Tensor()] is not part of the sources: a
    tensor that was never allocated, with no element and no dtype, on
    the host. *)
Definition Tensor_default : Tensor :=
  {| shape_ := [0]; strides_ := [1]; dtype_ := Dtype.Undefined;
     device_ := Device.mk Device.CPU 0; data_ptr_ := 0; blob_ := [] |}.

(** Modelled from the spec: [Tensor::Contiguous] is not part of the
    sources.  A contiguous tensor is returned as it is; otherwise its
    elements are copied, in row-major order, into a fresh one
    ("explicit Contiguous/Clone calls are the only copy triggers"). *)
Definition Contiguous (t : Tensor) : Tensor :=
  if IsContiguous t then t
  else
    {| shape_ := shape_ t;
       strides_ := shape_util.DefaultStrides (shape_ t);
       dtype_ := dtype_ t;
       device_ := device_ t;
       data_ptr_ := 0;
       blob_ := map (fun i => default uninit (element t i))
                    (seqZ 0 (NumElements t)) |}.

(** The rows of a contiguous [(n, d)] tensor: its points. *)
Definition rows (t : Tensor) : list (list Scalar) :=
  let d := default 0 (shape_ t !! 1%nat) in
  map (fun i => map (fun j => default uninit (element t (i * d + j)))
                    (seqZ 0 d))
      (seqZ 0 (default 0 (shape_ t !! 0%nat))).

(** The members of the class; [dataset_points_] is inherited from
    [NNSIndex]. *)
Record FixedRadiusIndex : Type := mkFixedRadiusIndex {
  dataset_points_ : Tensor;
  points_row_splits_ : list Z;
  hash_table_splits_ : list Z;
  hash_table_cell_splits_ : Array Z;
  hash_table_index_ : Array Z;
}.

(** [FixedRadiusIndex::FixedRadiusIndex(){}] *)
Definition FixedRadiusIndex_new : FixedRadiusIndex :=
  {| dataset_points_ := Tensor_default;
     points_row_splits_ := [];
     hash_table_splits_ := [];
     hash_table_cell_splits_ := Array_default;
     hash_table_index_ := Array_default |}.

(** Modelled from the spec: the getters of [NNSIndex] are not part of
    the sources; they read the dataset tensor.  An index beyond the
    rank of the shape is undefined behaviour in C++ and reads 0 here. *)
Definition GetDimension (self : FixedRadiusIndex) : Z :=
  default 0 (GetShape (dataset_points_ self) !! 1%nat).
Definition GetDatasetSize (self : FixedRadiusIndex) : Z :=
  default 0 (GetShape (dataset_points_ self) !! 0%nat).
Definition GetDtype (self : FixedRadiusIndex) : Dtype.t :=
  dtype_ (dataset_points_ self).
Definition GetDevice (self : FixedRadiusIndex) : Device.t :=
  device_ (dataset_points_ self).

(** The object the methods run on, and the device calls made so far. *)
Record World : Type := mkWorld {
  this : FixedRadiusIndex;
  trace : list Event;
}.

Definition log (e : Event) : M World unit :=
  modify (fun w => {| this := this w; trace := trace w ++ [e] |}).

Definition update (f : FixedRadiusIndex -> FixedRadiusIndex)
    : M World unit :=
  modify (fun w => {| this := f (this w); trace := trace w |}).

Definition self : M World FixedRadiusIndex :=
  let* w := get in ret (this w).

(** [Tensor::Empty({int64_t(temp_size)}, Dtype::UInt8, device)]: the
    scratch buffer; the pointer to it remembers its size. *)
Definition alloc_temp (temp_size : Z) : M World (option Z) :=
  log (AllocTemp temp_size) >> ret (Some temp_size).

(** *** The device kernels *)

(** The cell of every point: its spatial hash, folded into the
    table. *)
Definition cells_of (scalar_t : Dtype.t) (radius : Q) (size : Z)
    (points : list (list Scalar)) : list Z :=
  map (fun p => cell_hash scalar_t radius p mod size) points.

(** Entry [c] of the cell splits: the number of points in the cells
    before [c], that is where the bucket of [c] starts. *)
Definition cell_splits_of (cells : list Z) (size : Z) : list Z :=
  map (fun c => Z.of_nat (length (List.filter (fun x => x <? c) cells)))
      (seqZ 0 (size + 1)).

(** The indices, counted from [j], of the points in cell [c]. *)
Fixpoint bucket (c j : Z) (cells : list Z) : list Z :=
  match cells with
  | [] => []
  | x :: rest => (if x =? c then [j] else []) ++ bucket c (j + 1) rest
  end.

(** The buckets of all cells, one after the other. *)
Definition index_of (cells : list Z) (size : Z) : list Z :=
  flat_map (fun c => bucket c 0 cells) (seqZ 0 size).

(** Modelled from the spec: [BuildSpatialHashTableCUDA] is not part of
    the sources.  It "hashes each dataset point to a cell, and produces
    a sorted bucket layout ([hash_table_cell_splits],
    [hash_table_index])"; the "first invocation with a null scratch
    buffer returns the required scratch byte size", the "second
    invocation with real scratch performs the work".  The result is
    the new [temp_size]; the tables are written through the pointers
    into the two member tensors. *)
Definition BuildSpatialHashTableCUDA (temp_ptr : option Z) (temp_size : Z)
    (num_points : Z) (points : list (list Scalar)) (scalar_t : Dtype.t)
    (radius : Q) (hash_table_cell_splits_size : Z) : M World Z :=
  log (DeviceCall BuildSpatialHashTableCUDA_op (Scratch temp_ptr temp_size))
  >>
  match temp_ptr with
  | None =>
      ret (build_temp_size num_points hash_table_cell_splits_size)
  | Some _ =>
      let size := hash_table_cell_splits_size - 1 in
      let cells := cells_of scalar_t radius size points in
      update (fun o =>
        {| dataset_points_ := dataset_points_ o;
           points_row_splits_ := points_row_splits_ o;
           hash_table_splits_ := hash_table_splits_ o;
           hash_table_cell_splits_ :=
             {| arr_shape := arr_shape (hash_table_cell_splits_ o);
                arr_data := cell_splits_of cells size |};
           hash_table_index_ :=
             {| arr_shape := arr_shape (hash_table_index_ o);
                arr_data := index_of cells size |} |})
      >> ret temp_size
  end.

(** [NeighborSearchAllocator<T>]: the output tensors a search kernel
    allocates. *)
Record NeighborSearchAllocator : Type := mkAllocator {
  indices_ : Array Z;
  distances_ : Array Scalar;
  counts_ : Array Z;
}.

Definition NeighborSearchAllocator_new : NeighborSearchAllocator :=
  {| indices_ := Array_default;
     distances_ := Array_default;
     counts_ := Array_default |}.

Definition NeighborsIndex := indices_.
Definition NeighborsDistance := distances_.
Definition NeighborCounts := counts_.

(** The dataset points within the radius of a query, in the order in
    which the buckets of the hash table list them. *)
Definition neighbours (scalar_t : Dtype.t) (radius : Q)
    (points : list (list Scalar)) (table_index : list Z)
    (q : list Scalar) : list Z :=
  List.filter (fun j => match read points j with
                        | Some p => in_radius scalar_t radius q p
                        | None => false
                        end)
              table_index.

Definition distances_of (scalar_t : Dtype.t) (points : list (list Scalar))
    (q : list Scalar) (js : list Z) : list Scalar :=
  map (fun j => distance scalar_t q (default [] (read points j))) js.

(** Running totals: [scan 0 [a; b; c] = [0; a; a+b; a+b+c]]. *)
Fixpoint scan (acc : Z) (ls : list Z) : list Z :=
  match ls with
  | [] => [acc]
  | x :: rest => acc :: scan (acc + x) rest
  end.

(** Modelled from the spec: [FixedRadiusSearchCUDA] is not part of the
    sources.  It "finds, per query point, all dataset points within
    Euclidean radius, returning a flat (indices, distances) pair plus a
    row-split array partitioning results per query", in "hash-bucket
    iteration order"; called with a null scratch pointer it only
    reports the scratch size. *)
Definition FixedRadiusSearchCUDA (temp_ptr : option Z) (temp_size : Z)
    (neighbors_row_splits : Array Z)
    (num_points : Z) (points : list (list Scalar))
    (num_queries : Z) (queries : list (list Scalar))
    (scalar_t : Dtype.t) (radius : Q) (table_index : list Z)
    (output_allocator : NeighborSearchAllocator)
    : M World (Z * Array Z * NeighborSearchAllocator) :=
  log (DeviceCall FixedRadiusSearchCUDA_op (Scratch temp_ptr temp_size)) >>
  match temp_ptr with
  | None =>
      ret (search_temp_size num_points num_queries,
           neighbors_row_splits, output_allocator)
  | Some _ =>
      let found := map (neighbours scalar_t radius points table_index)
                       queries in
      let indices := concat found in
      let dists :=
        concat (map (fun '(q, js) => distances_of scalar_t points q js)
                    (zip queries found)) in
      let num := Z.of_nat (length indices) in
      ret (temp_size,
           {| arr_shape := arr_shape neighbors_row_splits;
              arr_data := scan 0 (map (fun js => Z.of_nat (length js))
                                      found) |},
           {| indices_ := {| arr_shape := [num]; arr_data := indices |};
              distances_ := {| arr_shape := [num]; arr_data := dists |};
              counts_ := counts_ output_allocator |})
  end.

(** Insertion into a list of (index, distance) pairs ordered by
    distance. *)
Fixpoint insert_pair (scalar_t : Dtype.t) (p : Z * Scalar)
    (l : list (Z * Scalar)) : list (Z * Scalar) :=
  match l with
  | [] => [p]
  | x :: rest =>
      if dist_leb scalar_t (snd p) (snd x) then p :: l
      else x :: insert_pair scalar_t p rest
  end.

Definition sort_pairs (scalar_t : Dtype.t) (l : list (Z * Scalar))
    : list (Z * Scalar) :=
  fold_right (insert_pair scalar_t) [] l.

(** The pieces of [l] between consecutive row splits. *)
Fixpoint segments {A} (splits : list Z) (l : list A) : list (list A) :=
  match splits with
  | a :: (b :: _) as rest =>
      take (Z.to_nat (b - a)) (drop (Z.to_nat a) l) :: segments rest l
  | _ => []
  end.

(** Modelled from the spec: [SortPairs] is not part of the sources.
    "Results per query are ordered by ascending distance via a
    segmented sort keyed by the row-split boundaries"; called with a
    null scratch pointer it only reports the scratch size. *)
Definition SortPairs (temp_ptr : option Z) (temp_size : Z)
    (num_indices num_segments : Z) (row_splits : list Z)
    (scalar_t : Dtype.t)
    (indices_unsorted : list Z) (distances_unsorted : list Scalar)
    (indices_sorted : Array Z) (distances_sorted : Array Scalar)
    : M World (Z * Array Z * Array Scalar) :=
  log (DeviceCall SortPairs_op (Scratch temp_ptr temp_size)) >>
  match temp_ptr with
  | None =>
      ret (sort_temp_size num_indices num_segments,
           indices_sorted, distances_sorted)
  | Some _ =>
      let sorted :=
        flat_map (sort_pairs scalar_t)
                 (segments row_splits
                           (zip indices_unsorted distances_unsorted)) in
      ret (temp_size,
           {| arr_shape := arr_shape indices_sorted;
              arr_data := map fst sorted |},
           {| arr_shape := arr_shape distances_sorted;
              arr_data := map snd sorted |})
  end.

(** One row of the hybrid search: at most [max_knn] neighbours of the
    query, the rest of the row padded. *)
Definition hybrid_row (scalar_t : Dtype.t) (radius : Q) (max_knn : Z)
    (points : list (list Scalar)) (table_index : list Z)
    (q : list Scalar) : list Z * list Scalar * Z :=
  let kept := take (Z.to_nat max_knn)
                   (neighbours scalar_t radius points table_index q) in
  let pad := (Z.to_nat max_knn - length kept)%nat in
  (kept ++ replicate pad (-1),
   distances_of scalar_t points q kept
     ++ replicate pad (pad_distance scalar_t),
   Z.of_nat (length kept)).

(** Modelled from the spec: [HybridSearchCUDA] is not part of the
    sources.  It "caps each query's result count at max_knn, returning
    fixed-width (num_queries x max_knn) index/distance arrays padded
    with a sentinel for queries with fewer than max_knn neighbors, plus
    a neighbour_counts vector of actual counts per query".  It takes no
    scratch arguments. *)
Definition HybridSearchCUDA
    (num_points : Z) (points : list (list Scalar))
    (num_queries : Z) (queries : list (list Scalar))
    (scalar_t : Dtype.t) (radius : Q) (max_knn : Z)
    (table_index : list Z)
    (output_allocator : NeighborSearchAllocator)
    : M World NeighborSearchAllocator :=
  log (DeviceCall HybridSearchCUDA_op NoScratchParameters) >>
  let result := map (hybrid_row scalar_t radius max_knn points table_index)
                    queries in
  let indices := flat_map (fun r => fst (fst r)) result in
  let dists := flat_map (fun r => snd (fst r)) result in
  let counts := map snd result in
  ret {| indices_ := {| arr_shape := [Z.of_nat (length indices)];
                        arr_data := indices |};
         distances_ := {| arr_shape := [Z.of_nat (length dists)];
                          arr_data := dists |};
         counts_ := {| arr_shape := [Z.of_nat (length counts)];
                       arr_data := counts |} |}.

(** *** The methods of [FixedRadiusIndex] *)

(** Modelled from the spec: the assertions of [Tensor] are not part of
    the sources; a mismatch "is a fatal precondition error". *)
Definition AssertDtype (t : Tensor) (dtype : Dtype.t) : M World unit :=
  if Dtype.eqb (dtype_ t) dtype then ret tt
  else LogError "Tensor has the wrong dtype.".

Definition AssertDevice (t : Tensor) (device : Device.t) : M World unit :=
  if Device.eqb (device_ t) device then ret tt
  else LogError "Tensor has the wrong device.".

(** A dynamic shape: [None] is [utility::nullopt], any size. *)
Fixpoint shape_compatible (shape : list Z) (dyn : list (option Z)) : bool :=
  match shape, dyn with
  | [], [] => true
  | s :: shape', d :: dyn' =>
      match d with Some x => s =? x | None => true end
      && shape_compatible shape' dyn'
  | _, _ => false
  end.

Definition AssertShapeCompatible (t : Tensor) (dyn : list (option Z))
    : M World unit :=
  if shape_compatible (shape_ t) dyn then ret tt
  else LogError "Tensor has an incompatible shape.".

(** [bool SetTensorData(const Tensor& dataset_points) override] *)
Definition SetTensorData_no_radius (dataset_points : Tensor)
    : M World bool :=
  LogError "FixedRadiusIndex::SetTensorData witout radius not implemented.".

(** [SearchKnn(const Tensor& query_points, int knn)] *)
Definition SearchKnn (query_points : Tensor) (knn : Z)
    : M World (Array Z * Array Scalar) :=
  LogError "FixedRadiusIndex::SearchKnn not implemented.".

(** [SearchRadius(const Tensor& query_points, const Tensor& radii,
    bool sort)] *)
Definition SearchRadius_multi (query_points radii : Tensor) (sort : bool)
    : M World (Array Z * Array Scalar * Array Z) :=
  LogError
    "FixedRadiusIndex::SearchRadius with multi-radii not implemented.".

Definition SetTensorData (cfg : BuildConfig) (dataset_points : Tensor)
    (radius : Q) : M World bool :=
  if BUILD_CUDA_MODULE cfg then
    (if negb (Device.type_eqb
                (Device.GetType (device_ dataset_points)) Device.CUDA)
     then LogError ("[FixedRadiusIndex::SetTensorData] dataset_points "
                      +:+ "should be GPU Tensor.")
     else ret tt) >>
    (if Qle_bool radius 0
     then LogError
            "[FixedRadiusIndex::SetTensorData] radius should be positive."
     else ret tt) >>
    update (fun o =>
      {| dataset_points_ := Contiguous dataset_points;
         points_row_splits_ := points_row_splits_ o;
         hash_table_splits_ := hash_table_splits_ o;
         hash_table_cell_splits_ := hash_table_cell_splits_ o;
         hash_table_index_ := hash_table_index_ o |}) >>
    let* o := self in
    let device := GetDevice o in
    let dtype := GetDtype o in
    let num_dataset_points := GetDatasetSize o in
    let hash_table_size :=
      Z.min (Z.max (int64_of_double
                      (hash_table_size_factor
                         * double_of_int64 num_dataset_points)%Q)
                   1)
            max_hash_tabls_size in
    let hash_table_splits := [0; hash_table_size] in
    update (fun o =>
      {| dataset_points_ := dataset_points_ o;
         points_row_splits_ := [0; num_dataset_points];
         hash_table_splits_ := hash_table_splits;
         hash_table_cell_splits_ :=
           Array_Full [default 0 (last hash_table_splits) + 1] 0;
         hash_table_index_ := Array_Full [num_dataset_points] 0 |}) >>
    let temp_ptr : option Z := None in
    let temp_size := 0 in
    DISPATCH_FLOAT_DTYPE_TO_TEMPLATE dtype (fun scalar_t =>
      let* o := self in
      (* Determine temp_size. *)
      let* temp_size :=
        BuildSpatialHashTableCUDA temp_ptr temp_size num_dataset_points
          (rows (dataset_points_ o)) scalar_t radius
          (default 0 (arr_shape (hash_table_cell_splits_ o) !! 0%nat)) in
      let* temp_ptr := alloc_temp temp_size in
      (* Actually run the function. *)
      let* _ :=
        BuildSpatialHashTableCUDA temp_ptr temp_size num_dataset_points
          (rows (dataset_points_ o)) scalar_t radius
          (default 0 (arr_shape (hash_table_cell_splits_ o) !! 0%nat)) in
      ret tt) >>
    ret true
  else
    LogError ("FixedRadiusIndex::SetTensorData BUILD_CUDA_MODULE is OFF. "
                +:+ "Please compile Open3d with BUILD_CUDA_MODULE=ON.").

Definition SearchRadius (cfg : BuildConfig) (query_points : Tensor)
    (radius : Q) (sort : bool)
    : M World (Array Z * Array Scalar * Array Z) :=
  if BUILD_CUDA_MODULE cfg then
    let* o := self in
    let dtype := GetDtype o in
    let device := GetDevice o in
    let num_dataset_points := GetDatasetSize o in
    (* Check dtype. *)
    AssertDtype query_points dtype >>
    (* Check shape. *)
    AssertShapeCompatible query_points [None; Some (GetDimension o)] >>
    (* Check device. *)
    AssertDevice query_points device >>
    (if Qle_bool radius 0
     then LogError
            "[FixedRadiusIndex::SearchRadius] radius should be positive."
     else ret tt) >>
    let query_points_ := Contiguous query_points in
    let num_query_points := default 0 (shape_ query_points_ !! 0%nat) in
    let temp_ptr : option Z := None in
    let temp_size := 0 in
    let neighbors_row_splits := Array_Full [num_query_points + 1] 0 in
    DISPATCH_FLOAT_DTYPE_TO_TEMPLATE dtype (fun scalar_t =>
      let output_allocator := NeighborSearchAllocator_new in
      (* Determine temp_size. *)
      let* probe :=
        FixedRadiusSearchCUDA temp_ptr temp_size neighbors_row_splits
          num_dataset_points (rows (dataset_points_ o))
          num_query_points (rows query_points_) scalar_t radius
          (arr_data (hash_table_index_ o)) output_allocator in
      let '(temp_size, neighbors_row_splits, output_allocator) := probe in
      let* temp_ptr := alloc_temp temp_size in
      (* Actually run the function. *)
      let* run :=
        FixedRadiusSearchCUDA temp_ptr temp_size neighbors_row_splits
          num_dataset_points (rows (dataset_points_ o))
          num_query_points (rows query_points_) scalar_t radius
          (arr_data (hash_table_index_ o)) output_allocator in
      let '(temp_size, neighbors_row_splits, output_allocator) := run in
      let indices_unsorted := NeighborsIndex output_allocator in
      let distances_unsorted := NeighborsDistance output_allocator in
      if negb sort then
        ret (indices_unsorted, distances_unsorted, neighbors_row_splits)
      else
        (* Sort indices & distances. *)
        let temp_ptr : option Z := None in
        let temp_size := 0 in
        let num_indices :=
          default 0 (arr_shape indices_unsorted !! 0%nat) in
        let num_segments :=
          default 0 (arr_shape neighbors_row_splits !! 0%nat) - 1 in
        let indices_sorted := Array_Full [num_indices] 0 in
        let distances_sorted := Array_Full [num_indices] uninit in
        (* Determine temp_size for sorting *)
        let* probe :=
          SortPairs temp_ptr temp_size num_indices num_segments
            (arr_data neighbors_row_splits) scalar_t
            (arr_data indices_unsorted) (arr_data distances_unsorted)
            indices_sorted distances_sorted in
        let '(temp_size, indices_sorted, distances_sorted) := probe in
        let* temp_ptr := alloc_temp temp_size in
        (* Actually run the sorting. *)
        let* run :=
          SortPairs temp_ptr temp_size num_indices num_segments
            (arr_data neighbors_row_splits) scalar_t
            (arr_data indices_unsorted) (arr_data distances_unsorted)
            indices_sorted distances_sorted in
        let '(temp_size, indices_sorted, distances_sorted) := run in
        ret (indices_sorted, distances_sorted, neighbors_row_splits))
  else
    LogError ("FixedRadiusIndex::SearchRadius BUILD_CUDA_MODULE is OFF. "
                +:+ "Please compile Open3d with BUILD_CUDA_MODULE=ON.").

Definition SearchHybrid (cfg : BuildConfig) (query_points : Tensor)
    (radius : Q) (max_knn : Z)
    : M World (Array Z * Array Scalar * Array Z) :=
  if BUILD_CUDA_MODULE cfg then
    let* o := self in
    let dtype := GetDtype o in
    let device := GetDevice o in
    let num_dataset_points := GetDatasetSize o in
    (* Check dtype. *)
    AssertDtype query_points dtype >>
    (* Check shape. *)
    AssertShapeCompatible query_points [None; Some (GetDimension o)] >>
    (* Check device. *)
    AssertDevice query_points device >>
    (if Qle_bool radius 0
     then LogError
            "[FixedRadiusIndex::SearchRadius] radius should be positive."
     else ret tt) >>
    let query_points_ := Contiguous query_points in
    let num_query_points := default 0 (shape_ query_points_ !! 0%nat) in
    let* out :=
      DISPATCH_FLOAT_DTYPE_TO_TEMPLATE dtype (fun scalar_t =>
        let output_allocator := NeighborSearchAllocator_new in
        let* output_allocator :=
          HybridSearchCUDA
            num_dataset_points (rows (dataset_points_ o))
            num_query_points (rows query_points_) scalar_t radius max_knn
            (arr_data (hash_table_index_ o)) output_allocator in
        ret (NeighborsIndex output_allocator,
             NeighborsDistance output_allocator,
             NeighborCounts output_allocator)) in
    let '(neighbors_index, neighbors_distance, neighbour_counts) := out in
    let* index_view :=
      Array_View neighbors_index [num_query_points; max_knn] in
    let* distance_view :=
      Array_View neighbors_distance [num_query_points; max_knn] in
    let* counts_view := Array_View neighbour_counts [num_query_points] in
    ret (index_view, distance_view, counts_view)
  else
    LogError ("FixedRadiusIndex::SearchHybrid BUILD_CUDA_MODULE is OFF. "
                +:+ "Please compile Open3d with BUILD_CUDA_MODULE=ON.").

(** *** States of the index *)

(** A freshly constructed index, before any device call. *)
Definition World_new : World :=
  {| this := FixedRadiusIndex_new; trace := [] |}.

(** The index holds a hash table: it is what a successful
    [SetTensorData] left. *)
Definition built (cfg : BuildConfig) (o : FixedRadiusIndex) : Prop :=
  exists dataset_points radius w w',
    SetTensorData cfg dataset_points radius w = (Ok true, w') /\
    this w' = o.

(** The states an index can be in: constructed, then any number of
    calls of [SetTensorData], failed or not (the searches are [const]
    methods). *)
Inductive reachable (cfg : BuildConfig) : FixedRadiusIndex -> Prop :=
  | reachable_new : reachable cfg FixedRadiusIndex_new
  | reachable_set w dataset_points radius res w' :
      reachable cfg (this w) ->
      SetTensorData cfg dataset_points radius w = (res, w') ->
      reachable cfg (this w').

(** A query that breaks a precondition of the searches. *)
Definition query_mismatch (o : FixedRadiusIndex) (query_points : Tensor)
    (radius : Q) : Prop :=
  dtype_ query_points <> GetDtype o \/
  device_ query_points <> GetDevice o \/
  shape_compatible (shape_ query_points) [None; Some (GetDimension o)]
    = false \/
  (radius <= 0)%Q.

(** The two-pass protocol of a device operation: a call with a null
    scratch pointer, the allocation of the scratch buffer, and a call
    with that buffer. *)
Definition two_pass (op : DeviceOp) (size : Z) : list Event :=
  [ DeviceCall op (Scratch None 0);
    AllocTemp size;
    DeviceCall op (Scratch (Some size) size) ].

(** The table size [SetTensorData] computes for [n] points. *)
Definition hash_table_size_of (n : Z) : Z :=
  Z.min (Z.max (int64_of_double
                  (hash_table_size_factor * double_of_int64 n)%Q)
               1)
        max_hash_tabls_size.

(** The index a [SetTensorData] that runs to its end leaves behind. *)
Definition index_after_SetTensorData (dataset_points : Tensor) (radius : Q)
    : FixedRadiusIndex :=
  let points := Contiguous dataset_points in
  let n := default 0 (shape_ points !! 0%nat) in
  let size := hash_table_size_of n + 1 - 1 in
  let cells := cells_of (dtype_ points) radius size (rows points) in
  {| dataset_points_ := points;
     points_row_splits_ := [0; n];
     hash_table_splits_ := [0; hash_table_size_of n];
     hash_table_cell_splits_ :=
       {| arr_shape := [hash_table_size_of n + 1];
          arr_data := cell_splits_of cells size |};
     hash_table_index_ :=
       {| arr_shape := [n]; arr_data := index_of cells size |} |}.

(** The number of dataset points within the radius of a query, counted
    over the whole dataset. *)
Definition true_count (scalar_t : Dtype.t) (radius : Q)
    (points : list (list Scalar)) (q : list Scalar) : Z :=
  Z.of_nat (length (List.filter (in_radius scalar_t radius q) points)).

(** A list of integers that never decreases. *)
Definition non_decreasing (l : list Z) : Prop :=
  forall (i j : nat) (a b : Z),
    (i <= j)%nat -> l !! i = Some a -> l !! j = Some b -> a <= b.

(** The four checks both [SearchRadius] and [SearchHybrid] start with,
    followed by the rest [k] of the method.  The methods above have them
    inline, as the source has; this is their common shape, for the
    proofs. *)
Definition checks (o : FixedRadiusIndex) (query_points : Tensor)
    (radius : Q) {A} (k : M World A) : M World A :=
  AssertDtype query_points (GetDtype o) >>
  AssertShapeCompatible query_points [None; Some (GetDimension o)] >>
  AssertDevice query_points (GetDevice o) >>
  (if Qle_bool radius 0
   then LogError
          "[FixedRadiusIndex::SearchRadius] radius should be positive."
   else ret tt) >>
  k.
End Index.
End nns.

(** ** A concrete instance: integer cells

    Every cell holds an integer; conversions to the integer dtypes wrap
    around, points are lattice points.  Used to run the definitions on
    concrete inputs. *)
Module IntegerCells.
Definition wrap (bits : Z) (signed : bool) (z : Z) : Z :=
  let m := z mod 2 ^ bits in
  if signed && (2 ^ (bits - 1) <=? m) then m - 2 ^ bits else m.

Definition convert_Z (src_t dst_t : Dtype.t) (z : Z) : Z :=
  match dst_t with
  | Dtype.Int8 => wrap 8 true z
  | Dtype.Int16 => wrap 16 true z
  | Dtype.Int32 => wrap 32 true z
  | Dtype.Int64 => wrap 64 true z
  | Dtype.UInt8 => wrap 8 false z
  | Dtype.UInt16 => wrap 16 false z
  | Dtype.UInt32 => wrap 32 false z
  | Dtype.UInt64 => wrap 64 false z
  | Dtype.Bool => if z =? 0 then 0 else 1
  | _ => z
  end.

Definition scalars : ScalarModel :=
  {| Scalar := Z;
     uninit := 0;
     convert := convert_Z;
     truth := fun _ z => negb (z =? 0);
     of_bool := fun _ (b : bool) => if b then 1 else 0;
     unary_math := fun op _ z =>
       match op with
       | UnaryEWOpCode.Neg => - z
       | UnaryEWOpCode.Abs => Z.abs z
       | UnaryEWOpCode.Sqrt => Z.sqrt z
       | _ => z
       end;
     float_test := fun op _ _ =>
       match op with UnaryEWOpCode.IsFinite => true | _ => false end;
     arith := fun op _ a b =>
       match op with
       | BinaryEWOpCode.Add => a + b
       | BinaryEWOpCode.Sub => a - b
       | BinaryEWOpCode.Mul => a * b
       | _ => Z.quot a b
       end;
     compare := fun op _ a b =>
       match op with
       | BinaryEWOpCode.Gt => a >? b
       | BinaryEWOpCode.Lt => a <? b
       | BinaryEWOpCode.Ge => a >=? b
       | BinaryEWOpCode.Le => a <=? b
       | BinaryEWOpCode.Ne => negb (a =? b)
       | _ => a =? b
       end |}.

(** Squared Euclidean distance of two lattice points. *)
Fixpoint sqdist (p q : list Z) : Z :=
  match p, q with
  | x :: p', y :: q' => (x - y) * (x - y) + sqdist p' q'
  | _, _ => 0
  end.

Definition device : @nns.DeviceModel scalars :=
  {| nns.cell_hash := fun _ _ (p : list (@Scalar scalars)) =>
       fold_right Z.add 0 p;
     nns.in_radius := fun _ r (q p : list (@Scalar scalars)) =>
       Qle_bool (inject_Z (sqdist q p)) (r * r);
     nns.distance := fun _ (q p : list (@Scalar scalars)) => sqdist q p;
     nns.dist_leb := fun _ (a b : @Scalar scalars) => a <=? b;
     nns.pad_distance := fun _ => 0;
     nns.build_temp_size := fun n s => 8 * (n + s);
     nns.search_temp_size := fun n m => 8 * (n + m);
     nns.sort_temp_size := fun n s => 16 * n + 8 * s |}.

Definition cuda0 : Device.t := Device.mk Device.CUDA 0.
Definition cpu0 : Device.t := Device.mk Device.CPU 0.

(** A contiguous tensor over the given cells. *)
Definition tensor (shape : list Z) (dtype : Dtype.t) (dev : Device.t)
    (cells : list Z) : @Tensor scalars :=
  @mkTensor scalars shape (shape_util.DefaultStrides shape) dtype dev 0
            cells.

Definition cuda_on : BuildConfig :=
  {| BUILD_CUDA_MODULE := true; BUILD_CACHED_CUDA_MANAGER := true |}.

(** Four points of the plane and two queries. *)
Definition dataset : @Tensor scalars :=
  tensor [4; 2] Dtype.Float32 cuda0 [0; 0; 1; 0; 5; 5; 0; 1].
Definition queries : @Tensor scalars :=
  tensor [2; 2] Dtype.Float32 cuda0 [0; 0; 5; 4].

(** The index built over [dataset] with radius 1. *)
Definition built_world : @nns.World scalars :=
  snd (nns.SetTensorData (DM := device) cuda_on dataset 1 nns.World_new).
End IntegerCells.

(** ** Logging and the console progress bar *)

Module utility.

(** [enum class TextColor]. *)
Inductive TextColor : Type :=
  | Black | Red | Green | Yellow | Blue | Magenta | Cyan | White.

Definition TextColor_to_int (c : TextColor) : Z :=
  match c with
  | Black => 0 | Red => 1 | Green => 2 | Yellow => 3
  | Blue => 4 | Magenta => 5 | Cyan => 6 | White => 7
  end.

(** Modelled from the spec: the enumeration [VerbosityLevel] is declared
    in Logging.h, which is not part of the sources.  Its levels are
    ordered [Error < Warning < Info < Debug]; the comparisons of the
    sources are comparisons of these values. *)
Inductive VerbosityLevel : Type := Error | Warning | Info | Debug.

Definition VerbosityLevel_to_int (l : VerbosityLevel) : Z :=
  match l with Error => 0 | Warning => 1 | Info => 2 | Debug => 3 end.

(** [a >= b] on verbosity levels. *)
Definition VerbosityLevel_geb (a b : VerbosityLevel) : bool :=
  VerbosityLevel_to_int b <=? VerbosityLevel_to_int a.

(** The two preprocessor symbols Logging.cpp branches on. *)
Record Platform : Type := mkPlatform {
  _WIN32 : bool;
  _MSC_VER : bool;
}.

(** A print function: the console one, [std::cout << msg << std::endl],
    or one installed by the user.  A print function is taken to return
    normally; what it does with the message is recorded as a call. *)
Inductive PrintFcn : Type :=
  | console_print_fcn_
  | user_print_fcn (id : nat).

(** What a logging call lets the outside see: a print function called
    with a message, or a line written to [std::cerr]. *)
Inductive Output : Type :=
  | Called (f : PrintFcn) (msg : string)
  | Cerr (msg : string).

(** [struct Logger::Impl]. *)
Record Impl : Type := mkImpl {
  print_fcn_ : PrintFcn;
  verbosity_level_ : VerbosityLevel;
}.

(** The one logger of the process, [Logger::GetInstance()], and the
    output produced so far. *)
Record LogWorld : Type := mkLogWorld {
  impl_ : Impl;
  output : list Output;
}.

Definition newline : string := String (Ascii.ascii_of_nat 10) EmptyString.
Definition escape : string := String (Ascii.ascii_of_nat 27) EmptyString.

(** [Logger::Logger()]. *)
Definition Logger_new : Impl :=
  {| print_fcn_ := console_print_fcn_; verbosity_level_ := Info |}.

Definition call (f : PrintFcn) (msg : string) : M LogWorld unit :=
  modify (fun w =>
    {| impl_ := impl_ w; output := output w ++ [Called f msg] |}).

Definition cerr (msg : string) : M LogWorld unit :=
  modify (fun w => {| impl_ := impl_ w; output := output w ++ [Cerr msg] |}).

Definition impl : M LogWorld Impl := let* w := get in ret (impl_ w).

Section Logger.
(** The platform the file is compiled for, and [fmt::vformat] on the
    argument packs of the callers. *)
Context (platform : Platform) {fmt_args : Type}
        (vformat : string -> fmt_args -> string).

(** [Impl::ColorString]: the text between the escape sequence of the
    colour and the one that resets it; on Windows the text alone. *)
Definition ColorString (text : string) (text_color : TextColor)
    (highlight_text : Z) : string :=
  (if _WIN32 platform then ""
   else escape +:+ "[" +:+ pretty highlight_text +:+ ";"
          +:+ pretty (TextColor_to_int text_color + 30) +:+ "m")
  +:+ text +:+
  (if _WIN32 platform then "" else escape +:+ "[0;m").

(** [Logger::VError]: [[noreturn]], it ends in [throw
    std::runtime_error(err_msg)]. *)
Definition VError {A} (file_name : string) (line_number : Z)
    (function_name : string) (force_console_log : bool)
    (format : string) (args : fmt_args) : M LogWorld A :=
  let err_msg := vformat format args in
  let err_msg :=
    "[Open3D Error] (" +:+ function_name +:+ ") " +:+ file_name +:+ ":"
      +:+ pretty line_number +:+ ": " +:+ err_msg +:+ newline in
  let err_msg := ColorString err_msg Red 1 in
  (if _MSC_VER platform then cerr err_msg else ret tt) >>
  lift (Err err_msg).

Definition VWarning (file_name : string) (line_number : Z)
    (function_name : string) (force_console_log : bool)
    (format : string) (args : fmt_args) : M LogWorld unit :=
  let* impl_ := impl in
  if VerbosityLevel_geb (verbosity_level_ impl_) Warning then
    let err_msg := vformat format args in
    let err_msg := "[Open3D WARNING] " +:+ err_msg in
    let err_msg := ColorString err_msg Yellow 1 in
    if force_console_log then call console_print_fcn_ err_msg
    else call (print_fcn_ impl_) err_msg
  else ret tt.

Definition VInfo (file_name : string) (line_number : Z)
    (function_name : string) (force_console_log : bool)
    (format : string) (args : fmt_args) : M LogWorld unit :=
  let* impl_ := impl in
  if VerbosityLevel_geb (verbosity_level_ impl_) Info then
    let err_msg := vformat format args in
    let err_msg := "[Open3D INFO] " +:+ err_msg in
    if force_console_log then call console_print_fcn_ err_msg
    else call (print_fcn_ impl_) err_msg
  else ret tt.

Definition VDebug (file_name : string) (line_number : Z)
    (function_name : string) (force_console_log : bool)
    (format : string) (args : fmt_args) : M LogWorld unit :=
  let* impl_ := impl in
  if VerbosityLevel_geb (verbosity_level_ impl_) Debug then
    let err_msg := vformat format args in
    let err_msg := "[Open3D DEBUG] " +:+ err_msg in
    if force_console_log then call console_print_fcn_ err_msg
    else call (print_fcn_ impl_) err_msg
  else ret tt.
End Logger.

Definition SetPrintFunction (print_fcn : PrintFcn) : M LogWorld unit :=
  modify (fun w =>
    {| impl_ := {| print_fcn_ := print_fcn;
                   verbosity_level_ := verbosity_level_ (impl_ w) |};
       output := output w |}).

Definition ResetPrintFunction : M LogWorld unit :=
  modify (fun w =>
    {| impl_ := {| print_fcn_ := console_print_fcn_;
                   verbosity_level_ := verbosity_level_ (impl_ w) |};
       output := output w |}).

Definition SetVerbosityLevel (verbosity_level : VerbosityLevel)
    : M LogWorld unit :=
  modify (fun w =>
    {| impl_ := {| print_fcn_ := print_fcn_ (impl_ w);
                   verbosity_level_ := verbosity_level |};
       output := output w |}).

Definition GetVerbosityLevel : M LogWorld VerbosityLevel :=
  let* impl_ := impl in ret (verbosity_level_ impl_).

(** One call after the other, as long as none raises. *)
Fixpoint sequence {S} (ms : list (M S unit)) : M S unit :=
  match ms with
  | [] => ret tt
  | m :: rest => m >> sequence rest
  end.

(** The calls a client can make on the logger, other than [VError]; a
    program that logs is a list of them. *)
Inductive LoggerCall {fmt_args : Type} : Type :=
  | CallVWarning (force_console_log : bool) (format : string)
                 (args : fmt_args)
  | CallVInfo (force_console_log : bool) (format : string) (args : fmt_args)
  | CallVDebug (force_console_log : bool) (format : string)
               (args : fmt_args)
  | CallSetPrintFunction (print_fcn : PrintFcn)
  | CallResetPrintFunction
  | CallSetVerbosityLevel (verbosity_level : VerbosityLevel).
Arguments LoggerCall : clear implicits.

Definition run_call (platform : Platform) {fmt_args : Type}
    (vformat : string -> fmt_args -> string) (c : LoggerCall fmt_args)
    : M LogWorld unit :=
  match c with
  | CallVWarning force format args =>
      VWarning platform vformat "" 0 "" force format args
  | CallVInfo force format args =>
      VInfo vformat "" 0 "" force format args
  | CallVDebug force format args =>
      VDebug vformat "" 0 "" force format args
  | CallSetPrintFunction f => SetPrintFunction f
  | CallResetPrintFunction => ResetPrintFunction
  | CallSetVerbosityLevel l => SetVerbosityLevel l
  end.

(** A program of logger calls, run in order. *)
Definition run (platform : Platform) {fmt_args : Type}
    (vformat : string -> fmt_args -> string)
    (cs : list (LoggerCall fmt_args)) : M LogWorld unit :=
  sequence (map (run_call platform vformat) cs).

(** The level a logging call must reach to be printed; [None] for the
    calls that configure the logger. *)
Definition level_of_call {fmt_args : Type} (c : LoggerCall fmt_args)
    : option VerbosityLevel :=
  match c with
  | CallVWarning _ _ _ => Some Warning
  | CallVInfo _ _ _ => Some Info
  | CallVDebug _ _ _ => Some Debug
  | _ => None
  end.

(** The call is printed under the level [v]. *)
Definition passes {fmt_args : Type} (v : VerbosityLevel)
    (c : LoggerCall fmt_args) : bool :=
  match level_of_call c with
  | Some l => VerbosityLevel_geb v l
  | None => false
  end.

(** A logging call with [force_console_log] set. *)
Definition is_forced {fmt_args : Type} (c : LoggerCall fmt_args) : bool :=
  match c with
  | CallVWarning force _ _
  | CallVInfo force _ _
  | CallVDebug force _ _ => force
  | _ => true
  end.

Definition sets_level {fmt_args : Type} (c : LoggerCall fmt_args) : bool :=
  match c with CallSetVerbosityLevel _ => true | _ => false end.


(** *** The console progress bar

    [size_t] is taken to be 64 bits wide and [int] 32 bits; unsigned
    arithmetic wraps around, the conversion of an unsigned value to [int]
    keeps its low 32 bits. *)
Definition size_t_of (z : Z) : Z := z mod 2 ^ 64.

Definition int_of (z : Z) : Z :=
  let m := z mod 2 ^ 32 in
  if 2 ^ 31 <=? m then m - 2 ^ 32 else m.

(** Unsigned division; a division by zero is undefined behaviour in C++
    and an error here. *)
Definition size_t_div {S} (a b : Z) : M S Z :=
  if b =? 0 then lift (Err "undefined behaviour: division by zero")
  else ret (a / b).

(** An argument of [fmt::print]: a string, [std::string(n, c)], or an
    integer. *)
Inductive FmtArg : Type :=
  | Str (s : string)
  | Fill (n : Z) (c : Ascii.ascii)
  | Int (d : Z).

Inductive StdoutEvent : Type :=
  | fmt_print (format : string) (args : list FmtArg)
  | fflush_stdout.

(** The members of [ConsoleProgressBar].  The width [resolution_] is a
    constant member that Logging.h initialises; no method changes it. *)
Record ConsoleProgressBar : Type := mkConsoleProgressBar {
  resolution_ : Z;
  expected_count_ : Z;
  current_count_ : Z;
  progress_info_ : string;
  progress_pixel_ : Z;
  active_ : bool;
}.

Record BarWorld : Type := mkBarWorld {
  bar : ConsoleProgressBar;
  stdout : list StdoutEvent;
}.

Definition this : M BarWorld ConsoleProgressBar :=
  let* w := get in ret (bar w).

Definition assign (f : ConsoleProgressBar -> ConsoleProgressBar)
    : M BarWorld unit :=
  modify (fun w => {| bar := f (bar w); stdout := stdout w |}).

Definition emit (e : StdoutEvent) : M BarWorld unit :=
  modify (fun w => {| bar := bar w; stdout := stdout w ++ [e] |}).

Definition format_done : string := "{}[{}] 100%" +:+ newline.
Definition format_progress : string :=
  "{}[{}>{}] {:d}%" +:+ String (Ascii.ascii_of_nat 13) EmptyString.

Definition SetCurrentCount (n : Z) : M BarWorld unit :=
  assign (fun b =>
    {| resolution_ := resolution_ b;
       expected_count_ := expected_count_ b;
       current_count_ := n;
       progress_info_ := progress_info_ b;
       progress_pixel_ := progress_pixel_ b;
       active_ := active_ b |}) >>
  let* b := this in
  if negb (active_ b) then ret tt
  else if current_count_ b >=? expected_count_ b then
    emit (fmt_print format_done
            [Str (progress_info_ b);
             Fill (resolution_ b) (Ascii.ascii_of_nat 61)])
  else
    let* q :=
      size_t_div (size_t_of (current_count_ b * resolution_ b))
                 (expected_count_ b) in
    let new_progress_pixel := size_t_of (int_of q) in
    if new_progress_pixel >? progress_pixel_ b then
      assign (fun b =>
        {| resolution_ := resolution_ b;
           expected_count_ := expected_count_ b;
           current_count_ := current_count_ b;
           progress_info_ := progress_info_ b;
           progress_pixel_ := new_progress_pixel;
           active_ := active_ b |}) >>
      let* b := this in
      let* q :=
        size_t_div (size_t_of (current_count_ b * 100))
                   (expected_count_ b) in
      let percent := int_of q in
      emit (fmt_print format_progress
              [Str (progress_info_ b);
               Fill (progress_pixel_ b) (Ascii.ascii_of_nat 61);
               Fill (size_t_of (size_t_of (resolution_ b - 1)
                                - progress_pixel_ b))
                    (Ascii.ascii_of_nat 32);
               Int percent]) >>
      emit fflush_stdout
    else ret tt.

(** [operator++()]. *)
Definition increment : M BarWorld unit :=
  let* b := this in SetCurrentCount (size_t_of (current_count_ b + 1)).

Definition Reset (expected_count : Z) (progress_info : string)
    (active : bool) : M BarWorld unit :=
  assign (fun b =>
    {| resolution_ := resolution_ b;
       expected_count_ := expected_count;
       current_count_ := size_t_of (-1);
       progress_info_ := progress_info;
       progress_pixel_ := 0;
       active_ := active |}) >>
  increment.

(** The constructor runs [Reset] on an object of which only
    [resolution_] is initialised. *)
Definition ConsoleProgressBar_new (expected_count : Z)
    (progress_info : string) (active : bool) : M BarWorld unit :=
  Reset expected_count progress_info active.

(** The calls a client makes on a bar between two [Reset]s; a loop that
    reports its progress is a list of them. *)
Inductive BarCall : Type :=
  | CallIncrement
  | CallSetCurrentCount (n : Z).

Definition run_bar_call (c : BarCall) : M BarWorld unit :=
  match c with
  | CallIncrement => increment
  | CallSetCurrentCount n => SetCurrentCount n
  end.

Definition run_bar (cs : list BarCall) : M BarWorld unit :=
  sequence (map run_bar_call cs).

(** The argument of the call is a [size_t]. *)
Definition BarCall_in_range (c : BarCall) : Prop :=
  match c with
  | CallIncrement => True
  | CallSetCurrentCount n => 0 <= n < 2 ^ 64
  end.

(** A line of the bar that is not the final one. *)
Definition is_progress_line (e : StdoutEvent) : bool :=
  match e with
  | fmt_print format _ => bool_decide (format = format_progress)
  | fflush_stdout => false
  end.

(** A progress line as wide as the bar: [pixel] signs, the head, and
    the padding fill the [resolution] columns, and the percentage is
    below 100. *)
Definition well_drawn (resolution : Z) (e : StdoutEvent) : Prop :=
  match e with
  | fmt_print format args =>
      format = format_progress ->
      exists info pixel pad percent,
        args = [Str info; Fill pixel (Ascii.ascii_of_nat 61);
                Fill pad (Ascii.ascii_of_nat 32); Int percent] /\
        0 < pixel /\ 0 <= pad /\ pixel + 1 + pad = resolution /\
        0 <= percent < 100
  | fflush_stdout => True
  end.

(** The members no call changes between two [Reset]s. *)
Definition same_bar (b b' : ConsoleProgressBar) : Prop :=
  resolution_ b' = resolution_ b /\
  expected_count_ b' = expected_count_ b /\
  progress_info_ b' = progress_info_ b /\
  active_ b' = active_ b.

(** A bar whose arithmetic does not overflow: the width is an [int],
    and the products [current_count_ * resolution_] and
    [current_count_ * 100] of a count below [expected_count_] are below
    [2 ^ 64]. *)
Definition bar_fits (b : ConsoleProgressBar) : Prop :=
  0 < resolution_ b < 2 ^ 31 /\
  0 <= expected_count_ b /\
  expected_count_ b * Z.max (resolution_ b) 100 <= 2 ^ 64 /\
  0 <= progress_pixel_ b <= resolution_ b - 1.

(** The line of a completed bar. *)
Definition done_line (b : ConsoleProgressBar) : StdoutEvent :=
  fmt_print format_done
    [Str (progress_info_ b); Fill (resolution_ b) (Ascii.ascii_of_nat 61)].
End utility.

(** ** Point cloud files (t/io/PointCloudIO.cpp) *)

Module t_io.

(** Modelled from the spec: [utility::LogDebug] (Logging.h is not part
    of the sources) ends in [Logger::VDebug], which only prints; the
    state of the caller is not touched. *)
Definition LogDebug {S} (msg : string) : M S unit := ret tt.

(** Modelled from the spec: [utility::ConsoleProgressUpdater] and the
    option structures are declared in ProgressReporters.h and
    open3d/io/PointCloudIO.h, which are not part of the sources.  An
    update function is none, or the updater built from a text and a
    flag. *)
Inductive UpdateProgress : Type :=
  | no_update_progress
  | ConsoleProgressUpdater (progress_info : string) (active : bool).

Record ReadPointCloudOption : Type := mkReadPointCloudOption {
  format : string;
  remove_nan_points : bool;
  remove_infinite_points : bool;
  print_progress : bool;
  update_progress : UpdateProgress;
}.


Record WritePointCloudOption : Type := mkWritePointCloudOption {
  write_ascii : bool;
  compressed : bool;
  write_print_progress : bool;
  write_update_progress : UpdateProgress;
}.


Section PointCloudIO.
(** The tensor point cloud, the legacy point cloud and the files on
    disk. *)
Context {PointCloud LegacyPointCloud Files : Type}.

(** A reader fills the point cloud it is handed and reports success, or
    raises; a writer changes the files. *)
Definition Reader : Type :=
  string -> ReadPointCloudOption -> M PointCloud bool.
Definition Writer : Type :=
  string -> PointCloud -> WritePointCloudOption -> M Files bool.

(** What the file calls and does not define: the helpers on file names,
    the readers and writers of the formats, the legacy reader and
    writer, and the methods of the point cloud classes. *)
Context (GetFileExtensionInLowerCase : string -> string)
        (ToUpper : string -> string)
        (ReadPointCloudFromXYZI ReadPointCloudFromPLY
         ReadPointCloudFromPTS : Reader)
        (WritePointCloudToXYZI WritePointCloudToPLY
         WritePointCloudToPTS : Writer)
        (legacy_ReadPointCloud :
           string -> ReadPointCloudOption -> M LegacyPointCloud bool)
        (legacy_WritePointCloud :
           string -> LegacyPointCloud -> WritePointCloudOption
           -> M Files bool)
        (PointCloud_new : PointCloud)
        (LegacyPointCloud_new : LegacyPointCloud)
        (FromLegacyPointCloud : LegacyPointCloud -> Dtype.t -> PointCloud)
        (ToLegacyPointCloud : PointCloud -> LegacyPointCloud)
        (CPU : PointCloud -> PointCloud)
        (IsEmpty : PointCloud -> bool)
        (** [pointcloud.GetPoints().GetLength()] *)
        (GetPointsLength : PointCloud -> Result Z).

Definition file_extension_to_pointcloud_read_function
    : gmap string Reader :=
  list_to_map [ ("xyzi", ReadPointCloudFromXYZI);
                ("ply", ReadPointCloudFromPLY);
                ("pts", ReadPointCloudFromPTS) ].

Definition file_extension_to_pointcloud_write_function
    : gmap string Writer :=
  list_to_map [ ("xyzi", WritePointCloudToXYZI);
                ("ply", WritePointCloudToPLY);
                ("pts", WritePointCloudToPTS) ].

(** [ReadPointCloud(filename, pointcloud, params)]; the state is the
    point cloud passed by reference. *)
Definition ReadPointCloud (filename : string)
    (params : ReadPointCloudOption) : M PointCloud bool :=
  let format := format params in
  let format :=
    if bool_decide (format = "auto")
    then GetFileExtensionInLowerCase filename else format in
  LogDebug "Format {} File {}" >>
  match file_extension_to_pointcloud_read_function !! format with
  | None =>
      match legacy_ReadPointCloud filename params LegacyPointCloud_new with
      | (Ok success, legacy_pointcloud) =>
          if negb success then ret false
          else
            put (FromLegacyPointCloud legacy_pointcloud Dtype.Float64) >>
            ret success
      | (Err e, _) => lift (Err e)
      end
  | Some read =>
      let* success := read filename params in
      let* pointcloud := get in
      let* length := lift (GetPointsLength pointcloud) in
      LogDebug "Read geometry::PointCloud: {:d} vertices." >>
      if remove_nan_points params || remove_infinite_points params then
        LogError ("remove_nan_points and remove_infinite_points options "
                    +:+ "are unimplemented.")
      else ret success
  end.

(** [CreatePointCloudFromFile(filename, format, print_progress)]: the
    verdict of [ReadPointCloud] is dropped, an exception is not. *)
Definition CreatePointCloudFromFile (filename format : string)
    (print_progress : bool) : Result PointCloud :=
  let pointcloud := PointCloud_new in
  match ReadPointCloud filename
          {| format := format;
             remove_nan_points := true;
             remove_infinite_points := true;
             print_progress := print_progress;
             update_progress := no_update_progress |}
          pointcloud with
  | (Ok _, pointcloud) => Ok pointcloud
  | (Err e, _) => Err e
  end.


(** [WritePointCloud(filename, pointcloud, params)]; the state is the
    files on disk. *)
Definition WritePointCloud (filename : string) (pointcloud : PointCloud)
    (params : WritePointCloudOption) : M Files bool :=
  let format := GetFileExtensionInLowerCase filename in
  match file_extension_to_pointcloud_write_function !! format with
  | None =>
      legacy_WritePointCloud filename (ToLegacyPointCloud pointcloud) params
  | Some write =>
      let* success := write filename (CPU pointcloud) params in
      (if negb (IsEmpty pointcloud) then
         let* length := lift (GetPointsLength pointcloud) in
         LogDebug "Write geometry::PointCloud: {:d} vertices."
       else LogDebug "Write geometry::PointCloud: 0 vertices.") >>
      ret success
  end.


(** The format [ReadPointCloud] settles on. *)
Definition resolved_format (filename : string)
    (params : ReadPointCloudOption) : string :=
  if bool_decide (format params = "auto")
  then GetFileExtensionInLowerCase filename else format params.

(** The formats read and written without the legacy classes. *)
Definition tensor_formats : list string := ["xyzi"; "ply"; "pts"].
End PointCloudIO.
End t_io.

(** ** A concrete instance: point clouds of integers

    A point cloud is the list of its points, a file name maps to the
    extension after its last dot, and the readers of the three formats
    yield fixed clouds.  Used to run [t_io] on concrete inputs. *)
Module IntegerClouds.
(** The text after the last dot of [s]; [acc] is the text after the
    last dot seen so far. *)
Fixpoint after_last_dot (acc : option string) (s : string) : string :=
  match s with
  | EmptyString => default "" acc
  | String c rest =>
      if Ascii.eqb c (Ascii.ascii_of_nat 46)
      then after_last_dot (Some rest) rest
      else after_last_dot acc rest
  end.

Definition extension (filename : string) : string :=
  after_last_dot None filename.

Definition reader (points : list Z) : @t_io.Reader (list Z) :=
  fun _ _ _ => (Ok true, points).

Definition writer : @t_io.Writer (list Z) (list (string * list Z)) :=
  fun filename pointcloud _ files =>
    (Ok true, (filename, pointcloud) :: files).

(** The legacy reader knows no file. *)
Definition legacy_reader
    : string -> t_io.ReadPointCloudOption -> M (list Z) bool :=
  fun _ _ l => (Ok false, l).

Definition legacy_writer
    : string -> list Z -> t_io.WritePointCloudOption
      -> M (list (string * list Z)) bool :=
  fun filename pointcloud _ files =>
    (Ok true, (filename, pointcloud) :: files).

Definition length_of (pointcloud : list Z) : Result Z :=
  Ok (Z.of_nat (length pointcloud)).

Definition is_empty (pointcloud : list Z) : bool :=
  match pointcloud with [] => true | _ => false end.

Definition ReadPointCloud :=
  t_io.ReadPointCloud extension (reader [1]) (reader [2; 2]) (reader [3])
    legacy_reader [] (fun l _ => l) length_of.

Definition CreatePointCloudFromFile :=
  t_io.CreatePointCloudFromFile extension
    (reader [1]) (reader [2; 2]) (reader [3])
    legacy_reader [] [] (fun l _ => l) length_of.

Definition WritePointCloud :=
  t_io.WritePointCloud extension writer writer writer legacy_writer
    (fun l => l) (fun l => l) is_empty length_of.
End IntegerClouds.

(** ** What the element-wise kernels compute

    The vocabulary of the properties of [CopyCPU], [UnaryEWCPU] and
    [BinaryEWCPU]: which combinations of operation and dtypes reach a
    launch, and which function of the input elements a launch stores. *)
Module elementwise.

(** Iteration [i] of a loop that stores [val i], when there is one, in
    the cell [addr i]: the shape of every element kernel. *)
Definition scatter_step {A} (addr : Z -> Z) (val : Z -> option A) (i : Z)
    (b : list A) : list A :=
  match val i with Some v => write (addr i) v b | None => b end.
Section Elementwise.
Context `{SM : ScalarModel}.

(** The indexer [Indexer_new] returns when its checks pass. *)
Definition indexer_of (inputs : list Tensor) (output : Tensor) : Indexer :=
  {| inputs_ := map (fun t => BroadcastRestride t (GetShape output)) inputs;
     output_ptr_ := GetDataPtr output;
     output_strides_ := strides_ output;
     master_shape_ := GetShape output |}.

(** Every input broadcasts to the shape of the output. *)
Definition broadcastable (inputs : list Tensor) (output : Tensor) : bool :=
  forallb (fun t => shape_util.CanBeBrocastedToShape
                      (GetShape t) (GetShape output))
          inputs.

(** The cell of the buffer that holds element [i] of a tensor. *)
Definition cell_of (t : Tensor) (i : Z) : Z :=
  GetDataPtr t + shape_util.offset_of (GetShape t) (strides_ t) i.

(** No two elements of the tensor share a cell. *)
Definition injective_layout (t : Tensor) : Prop :=
  forall i j, 0 <= i < NumElements t -> 0 <= j < NumElements t ->
    cell_of t i = cell_of t j -> i = j.

(** The dtypes for which [UnaryEWCPU] reaches a launch: [LogicalNot]
    takes every scalar dtype and writes the same dtype or [Bool]; the
    three tests take floats and write [Bool]; the four float functions
    take floats and the other functions every numeric dtype, and write
    the dtype they read. *)
Definition unary_supported (op_code : UnaryEWOpCode.t)
    (src_dtype dst_dtype : Dtype.t) : bool :=
  match op_code with
  | UnaryEWOpCode.LogicalNot =>
      Dtype.is_scalar src_dtype &&
      (Dtype.eqb dst_dtype src_dtype || Dtype.eqb dst_dtype Dtype.Bool)
  | UnaryEWOpCode.IsNan | UnaryEWOpCode.IsInf | UnaryEWOpCode.IsFinite =>
      Dtype.is_float src_dtype && Dtype.eqb dst_dtype Dtype.Bool
  | UnaryEWOpCode.Sqrt | UnaryEWOpCode.Sin | UnaryEWOpCode.Cos
  | UnaryEWOpCode.Exp =>
      Dtype.is_float src_dtype && Dtype.eqb dst_dtype src_dtype
  | _ =>
      Dtype.is_numeric src_dtype && Dtype.eqb dst_dtype src_dtype
  end.

(** What the element kernel of the operation stores for the input
    element [x]. *)
Definition unary_result (op_code : UnaryEWOpCode.t)
    (src_dtype dst_dtype : Dtype.t) (x : Scalar) : Scalar :=
  match op_code with
  | UnaryEWOpCode.LogicalNot => of_bool dst_dtype (negb (truth src_dtype x))
  | UnaryEWOpCode.IsNan | UnaryEWOpCode.IsInf | UnaryEWOpCode.IsFinite =>
      of_bool Dtype.Bool (float_test op_code src_dtype x)
  | _ => unary_math op_code src_dtype x
  end.

Definition is_boolean_op (op_code : BinaryEWOpCode.t) : bool :=
  existsb (BinaryEWOpCode.eqb op_code) kernel.s_boolean_binary_ew_op_codes.

(** The dtypes for which [BinaryEWCPU] reaches a launch: both inputs of
    one dtype; a boolean operation takes every scalar dtype and writes
    the same dtype or [Bool], an arithmetic one takes every numeric
    dtype and writes the dtype it reads. *)
Definition binary_supported (op_code : BinaryEWOpCode.t)
    (lhs_dtype rhs_dtype dst_dtype : Dtype.t) : bool :=
  Dtype.eqb rhs_dtype lhs_dtype &&
  if is_boolean_op op_code then
    Dtype.is_scalar lhs_dtype &&
    (Dtype.eqb dst_dtype lhs_dtype || Dtype.eqb dst_dtype Dtype.Bool)
  else
    Dtype.is_numeric lhs_dtype && Dtype.eqb dst_dtype lhs_dtype.

(** What the element kernel of the operation stores for the input
    elements [x] and [y]. *)
Definition binary_result (op_code : BinaryEWOpCode.t)
    (src_dtype dst_dtype : Dtype.t) (x y : Scalar) : Scalar :=
  match op_code with
  | BinaryEWOpCode.Add | BinaryEWOpCode.Sub | BinaryEWOpCode.Mul
  | BinaryEWOpCode.Div => arith op_code src_dtype x y
  | BinaryEWOpCode.LogicalAnd =>
      of_bool dst_dtype (truth src_dtype x && truth src_dtype y)
  | BinaryEWOpCode.LogicalOr =>
      of_bool dst_dtype (truth src_dtype x || truth src_dtype y)
  | BinaryEWOpCode.LogicalXor =>
      of_bool dst_dtype (xorb (truth src_dtype x) (truth src_dtype y))
  | _ => of_bool dst_dtype (compare op_code src_dtype x y)
  end.


(** What iteration [i] of a unary launch stores. *)
Definition unary_val (indexer : Indexer) (f : Scalar -> Scalar) (i : Z)
    : option Scalar :=
  f <$> deref (GetInputPtr indexer 0 i).

(** What iteration [i] of a binary launch stores. *)
Definition binary_val (indexer : Indexer) (f : Scalar -> Scalar -> Scalar)
    (i : Z) : option Scalar :=
  match deref (GetInputPtr indexer 0 i), deref (GetInputPtr indexer 1 i) with
  | Some x, Some y => Some (f x y)
  | _, _ => None
  end.

(** The iterations of [ParallelFor] run in the order [order] of the
    workloads, as a schedule of the OpenMP loop may run them. *)
Definition ParallelFor_in_order {S} (order : list nat)
    (func : Z -> S -> S) (s : S) : S :=
  fold_left (fun acc i => func (Z.of_nat i) acc) order s.

Definition LaunchUnaryEWKernel_in_order (order : list nat)
    (indexer : Indexer) (func : Ptr -> Z -> kernel.Blob -> kernel.Blob)
    : M kernel.Blob unit :=
  modify (ParallelFor_in_order order
            (fun i => func (GetInputPtr indexer 0 i)
                           (GetOutputPtr indexer i))).

Definition LaunchBinaryEWKernel_in_order (order : list nat)
    (indexer : Indexer)
    (func : Ptr -> Ptr -> Z -> kernel.Blob -> kernel.Blob)
    : M kernel.Blob unit :=
  modify (ParallelFor_in_order order
            (fun i => func (GetInputPtr indexer 0 i)
                           (GetInputPtr indexer 1 i)
                           (GetOutputPtr indexer i))).
End Elementwise.
End elementwise.

(** ** The constructor of the index with data *)

Module nns_construct.
Section Construct.
Context `{SM : ScalarModel} `{DM : !nns.DeviceModel}.

(** [FixedRadiusIndex::FixedRadiusIndex(const Tensor& dataset_points,
    double radius)]: the members are default-constructed, then
    [SetTensorData] runs; what it returns is dropped, what it raises
    leaves the constructor and no object exists.  The state is the log
    of the device calls. *)
Definition FixedRadiusIndex_with_data (cfg : BuildConfig)
    (dataset_points : Tensor) (radius : Q)
    : M (list nns.Event) nns.FixedRadiusIndex :=
  fun trace =>
    match nns.SetTensorData cfg dataset_points radius
            {| nns.this := nns.FixedRadiusIndex_new;
               nns.trace := trace |} with
    | (Ok _, w) => (Ok (nns.this w), nns.trace w)
    | (Err e, w) => (Err e, nns.trace w)
    end.
End Construct.
End nns_construct.

(** ** The stream of the calling thread (CUDAUtils.cpp) *)

Module cuda_stream.
(** A [cudaStream_t] is an opaque handle; the null handle is the
    default stream. *)
Definition cudaStream_t : Type := Z.

(** [class CUDAStream]: its one member. *)
Record CUDAStream : Type := mkCUDAStream { stream_ : cudaStream_t }.

(** [static cudaStream_t Default()]. *)
Definition Default : cudaStream_t := 0.

(** [CUDAStream() = default], with [stream_ = Default()]. *)
Definition CUDAStream_new : CUDAStream := {| stream_ := Default |}.

(** [CUDAStream::GetInstance()] on the thread [thread].  The state
    holds the [static thread_local] instances: one per thread that has
    asked for it, constructed at the first request. *)
Definition GetInstance (thread : nat) : M (gmap nat CUDAStream) CUDAStream :=
  let* instances := get in
  match instances !! thread with
  | Some instance => ret instance
  | None =>
      put (<[thread := CUDAStream_new]> instances) >> ret CUDAStream_new
  end.

Definition Get (thread : nat) : M (gmap nat CUDAStream) cudaStream_t :=
  let* instance := GetInstance thread in ret (stream_ instance).

Definition Set_ (thread : nat) (stream : cudaStream_t)
    : M (gmap nat CUDAStream) unit :=
  let* instance := GetInstance thread in
  modify (fun instances =>
            <[thread := {| stream_ := stream |}]> instances).

Definition GetStream (thread : nat) : M (gmap nat CUDAStream) cudaStream_t :=
  Get thread.

Definition SetStream (thread : nat) (stream : cudaStream_t)
    : M (gmap nat CUDAStream) unit :=
  Set_ thread stream.

Definition GetDefaultStream : cudaStream_t := Default.
End cuda_stream.

(** * Properties *)

(** ** Decidable equalities *)

Lemma Dtype_eqb_eq (a b : Dtype.t) : Dtype.eqb a b = true <-> a = b.
Proof.
  split.
  - destruct a, b; simpl; intros E; try discriminate; try reflexivity.
    apply Z.eqb_eq in E. now subst.
  - intros <-. destruct a; simpl; auto using Z.eqb_refl.
Qed.

Lemma Dtype_eqb_neq (a b : Dtype.t) : Dtype.eqb a b = false <-> a <> b.
Proof.
  rewrite <- Dtype_eqb_eq. destruct (Dtype.eqb a b); split; congruence.
Qed.

Lemma Dtype_eqb_refl (a : Dtype.t) : Dtype.eqb a a = true.
Proof. now apply Dtype_eqb_eq. Qed.

Lemma Device_eqb_eq (a b : Device.t) : Device.eqb a b = true <-> a = b.
Proof.
  destruct a as [ta ia], b as [tb ib]. unfold Device.eqb. simpl.
  rewrite andb_true_iff, Z.eqb_eq. split.
  - intros [Ht ->]. destruct ta, tb; simpl in Ht; congruence.
  - intros E. injection E as -> ->. split; [now destruct tb | reflexivity].
Qed.

Lemma Device_eqb_neq (a b : Device.t) : Device.eqb a b = false <-> a <> b.
Proof.
  rewrite <- Device_eqb_eq. destruct (Device.eqb a b); split; congruence.
Qed.

Lemma float_is_numeric (d : Dtype.t) :
  Dtype.is_float d = true -> Dtype.is_numeric d = true.
Proof. now destruct d. Qed.

Lemma is_float_spec (d : Dtype.t) :
  Dtype.is_float d = false <-> d <> Dtype.Float32 /\ d <> Dtype.Float64.
Proof.
  destruct d; simpl; split; try congruence; try (intros [? ?]; congruence);
    intros _; split; discriminate.
Qed.

(** ** The unsupported overrides of the index (C10) *)

(** C10: the three inherited overrides the class does not support --
    [SetTensorData] without a radius, [SearchKnn], and [SearchRadius]
    with a tensor of radii -- raise their "not implemented" error on
    every input, leave the index as it was and return nothing. *)
Theorem unsupported_overrides_not_implemented
    `{SM : ScalarModel} `{DM : !nns.DeviceModel}
    (w : nns.World) (dataset_points query_points radii : Tensor)
    (knn : Z) (sort : bool) :
  nns.SetTensorData_no_radius dataset_points w =
    (Err "FixedRadiusIndex::SetTensorData witout radius not implemented.",
     w) /\
  nns.SearchKnn query_points knn w =
    (Err "FixedRadiusIndex::SearchKnn not implemented.", w) /\
  nns.SearchRadius_multi query_points radii sort w =
    (Err "FixedRadiusIndex::SearchRadius with multi-radii not implemented.",
     w).
Proof. repeat split. Qed.

(** ** Float-only unary operations (C5) *)

Section UnaryEW_facts.
Context `{SM : ScalarModel}.

Lemma assert_dtype_is_float_fails (d : Dtype.t) (blob : kernel.Blob) :
  Dtype.is_float d = false ->
  exists msg, kernel.assert_dtype_is_float d blob = (Err msg, blob).
Proof.
  intros Hd. unfold kernel.assert_dtype_is_float.
  destruct d; simpl in *; try discriminate; eexists; reflexivity.
Qed.

(** An indexer is built without touching the state. *)
Lemma Indexer_new_state {S} inputs output policy (s : S) :
  snd (Indexer_new inputs output policy s) = s.
Proof.
  unfold Indexer_new.
  destruct (negb (check_dtype_policy inputs output policy)); [reflexivity|].
  destruct (negb _); reflexivity.
Qed.

(** A float-only operation on a dtype that is not a float.  The
    element kernel [k] is never launched. *)
Lemma guarded_launch_fails (src dst : Tensor) policy
    (k : Indexer -> Dtype.t -> M kernel.Blob unit) (blob : kernel.Blob) :
  Dtype.is_float (GetDtype src) = false ->
  exists msg,
    bind (Indexer_new [src] dst policy)
         (fun indexer =>
            DISPATCH_DTYPE_TO_TEMPLATE (GetDtype src) (fun scalar_t =>
              kernel.assert_dtype_is_float (GetDtype src) >>
              k indexer scalar_t)) blob
    = (Err msg, blob).
Proof.
  intros Hd. unfold bind at 1.
  pose proof (Indexer_new_state [src] dst policy blob) as Hs.
  destruct (Indexer_new [src] dst policy blob) as [[ix|e] s];
    simpl in Hs; subst s; [|eexists; reflexivity].
  unfold DISPATCH_DTYPE_TO_TEMPLATE.
  destruct (Dtype.is_numeric (GetDtype src)); [|eexists; reflexivity].
  destruct (assert_dtype_is_float_fails _ blob Hd) as [msg Hm].
  exists msg. unfold bind. now rewrite Hm.
Qed.
End UnaryEW_facts.

(** C5: [UnaryEWCPU] with [Sqrt], [Sin], [Cos], [Exp], [IsNan], [IsInf]
    or [IsFinite] on an input whose dtype is neither [Float32] nor
    [Float64] raises an error, and the output blob is what it was: no
    element is computed or written. *)
Theorem UnaryEWCPU_float_only `{SM : ScalarModel}
    (src dst : Tensor) (op_code : UnaryEWOpCode.t) (blob : kernel.Blob) :
  In op_code [UnaryEWOpCode.Sqrt; UnaryEWOpCode.Sin; UnaryEWOpCode.Cos;
              UnaryEWOpCode.Exp; UnaryEWOpCode.IsNan; UnaryEWOpCode.IsInf;
              UnaryEWOpCode.IsFinite] ->
  GetDtype src <> Dtype.Float32 ->
  GetDtype src <> Dtype.Float64 ->
  exists msg, kernel.UnaryEWCPU src dst op_code blob = (Err msg, blob).
Proof.
  intros Hop H32 H64.
  assert (Hd : Dtype.is_float (GetDtype src) = false)
    by (apply is_float_spec; auto).
  simpl in Hop.
  destruct Hop as [<-|[<-|[<-|[<-|[<-|[<-|[<-|[]]]]]]]];
    unfold kernel.UnaryEWCPU;
    try (apply (guarded_launch_fails src dst DtypePolicy.ALL_SAME
                  (fun indexer scalar_t =>
                     kernel.LaunchUnaryEWKernel indexer _) blob Hd));
    destruct (assert_dtype_is_float_fails _ blob Hd) as [msg Hm];
    exists msg; unfold bind at 1; now rewrite Hm.
Qed.

(** The theorem at work: the square root of an [Int32] tensor. *)
Lemma UnaryEWCPU_float_only_witness :
  exists msg,
    kernel.UnaryEWCPU
      (IntegerCells.tensor [2] Dtype.Int32 IntegerCells.cpu0 [4; 9])
      (IntegerCells.tensor [2] Dtype.Int32 IntegerCells.cpu0 [0; 0])
      UnaryEWOpCode.Sqrt [0; 0]
    = (Err msg, [0; 0]).
Proof.
  apply (UnaryEWCPU_float_only (SM := IntegerCells.scalars)).
  - simpl. auto.
  - discriminate.
  - discriminate.
Defined.

(** ** Output dtype of the boolean operations (C6) *)

Section BooleanOps.
Context `{SM : ScalarModel}.

(** The body both boolean dispatches share: with an output dtype that
    is neither the input's nor [Bool], neither launch is reached. *)
Lemma boolean_dispatch_fails (src_dtype dst_dtype : Dtype.t)
    (same to_bool : Dtype.t -> M kernel.Blob unit) (blob : kernel.Blob) :
  dst_dtype <> src_dtype ->
  dst_dtype <> Dtype.Bool ->
  exists msg,
    DISPATCH_DTYPE_TO_TEMPLATE_WITH_BOOL src_dtype (fun scalar_t =>
      if Dtype.eqb dst_dtype src_dtype then same scalar_t
      else if Dtype.eqb dst_dtype Dtype.Bool then to_bool scalar_t
      else LogError ("Boolean op's output type must be boolean or the "
                       +:+ "same type as the input.")) blob
    = (Err msg, blob).
Proof.
  intros Hs Hb.
  apply Dtype_eqb_neq in Hs. apply Dtype_eqb_neq in Hb.
  unfold DISPATCH_DTYPE_TO_TEMPLATE_WITH_BOOL, DISPATCH_DTYPE_TO_TEMPLATE.
  rewrite Hs, Hb.
  destruct (Dtype.eqb src_dtype Dtype.Bool); [eexists; reflexivity|].
  destruct (Dtype.is_numeric src_dtype); eexists; reflexivity.
Qed.
End BooleanOps.

(** C6: a boolean-family operation -- logical and/or/xor, the six
    comparisons, unary logical-not -- whose output dtype is neither the
    input dtype nor [Bool] raises an error and writes nothing; so when
    such an operation succeeds, the output dtype is the input dtype or
    [Bool]. *)
Theorem boolean_ops_output_dtype `{SM : ScalarModel} :
  (forall (lhs rhs dst : Tensor) (op_code : BinaryEWOpCode.t)
          (blob : kernel.Blob),
     In op_code
        [BinaryEWOpCode.LogicalAnd; BinaryEWOpCode.LogicalOr;
         BinaryEWOpCode.LogicalXor;
         BinaryEWOpCode.Eq; BinaryEWOpCode.Ne; BinaryEWOpCode.Gt;
         BinaryEWOpCode.Lt; BinaryEWOpCode.Ge; BinaryEWOpCode.Le] ->
     (GetDtype dst <> GetDtype lhs -> GetDtype dst <> Dtype.Bool ->
      exists msg,
        kernel.BinaryEWCPU lhs rhs dst op_code blob = (Err msg, blob)) /\
     (forall blob',
        kernel.BinaryEWCPU lhs rhs dst op_code blob = (Ok tt, blob') ->
        GetDtype dst = GetDtype lhs \/ GetDtype dst = Dtype.Bool)) /\
  (forall (src dst : Tensor) (blob : kernel.Blob),
     (GetDtype dst <> GetDtype src -> GetDtype dst <> Dtype.Bool ->
      exists msg,
        kernel.UnaryEWCPU src dst UnaryEWOpCode.LogicalNot blob
        = (Err msg, blob)) /\
     (forall blob',
        kernel.UnaryEWCPU src dst UnaryEWOpCode.LogicalNot blob
        = (Ok tt, blob') ->
        GetDtype dst = GetDtype src \/ GetDtype dst = Dtype.Bool)).
Proof.
  split.
  - intros lhs rhs dst op_code blob Hop.
    assert (Hfail : GetDtype dst <> GetDtype lhs ->
                    GetDtype dst <> Dtype.Bool ->
                    exists msg, kernel.BinaryEWCPU lhs rhs dst op_code blob
                                = (Err msg, blob)).
    { intros Hs Hb. unfold kernel.BinaryEWCPU.
      replace (existsb (BinaryEWOpCode.eqb op_code)
                 kernel.s_boolean_binary_ew_op_codes) with true
        by (simpl in Hop;
            destruct Hop as [<-|[<-|[<-|[<-|[<-|[<-|[<-|[<-|[<-|[]]]]]]]]]];
            reflexivity).
      now apply boolean_dispatch_fails. }
    split; [exact Hfail|].
    intros blob' Hok.
    destruct (Dtype.eqb (GetDtype dst) (GetDtype lhs)) eqn:Es;
      [left; now apply Dtype_eqb_eq|].
    destruct (Dtype.eqb (GetDtype dst) Dtype.Bool) eqn:Eb;
      [right; now apply Dtype_eqb_eq|].
    apply Dtype_eqb_neq in Es. apply Dtype_eqb_neq in Eb.
    destruct (Hfail Es Eb) as [msg Hm]. congruence.
  - intros src dst blob.
    assert (Hfail : GetDtype dst <> GetDtype src ->
                    GetDtype dst <> Dtype.Bool ->
                    exists msg,
                      kernel.UnaryEWCPU src dst UnaryEWOpCode.LogicalNot blob
                      = (Err msg, blob)).
    { intros Hs Hb. unfold kernel.UnaryEWCPU.
      now apply boolean_dispatch_fails. }
    split; [exact Hfail|].
    intros blob' Hok.
    destruct (Dtype.eqb (GetDtype dst) (GetDtype src)) eqn:Es;
      [left; now apply Dtype_eqb_eq|].
    destruct (Dtype.eqb (GetDtype dst) Dtype.Bool) eqn:Eb;
      [right; now apply Dtype_eqb_eq|].
    apply Dtype_eqb_neq in Es. apply Dtype_eqb_neq in Eb.
    destruct (Hfail Es Eb) as [msg Hm]. congruence.
Qed.

(** The theorem at work: comparing two [Int32] tensors into a [Float32]
    output fails, and so does the logical not of an [Int32] tensor into a
    [UInt8] output. *)
Lemma boolean_ops_output_dtype_witness :
  (exists msg,
     kernel.BinaryEWCPU
       (IntegerCells.tensor [2] Dtype.Int32 IntegerCells.cpu0 [1; 2])
       (IntegerCells.tensor [2] Dtype.Int32 IntegerCells.cpu0 [2; 1])
       (IntegerCells.tensor [2] Dtype.Float32 IntegerCells.cpu0 [7; 7])
       BinaryEWOpCode.Lt [7; 7]
     = (Err msg, [7; 7])) /\
  (exists msg,
     kernel.UnaryEWCPU
       (IntegerCells.tensor [2] Dtype.Int32 IntegerCells.cpu0 [0; 3])
       (IntegerCells.tensor [2] Dtype.UInt8 IntegerCells.cpu0 [7; 7])
       UnaryEWOpCode.LogicalNot [7; 7]
     = (Err msg, [7; 7])).
Proof.
  pose proof (boolean_ops_output_dtype (SM := IntegerCells.scalars))
    as [Hbin Hun].
  split.
  - apply Hbin; [simpl; auto 10 | discriminate | discriminate].
  - apply Hun; discriminate.
Defined.

(** ** Device queries without an accelerator (C9) *)

(** C9: when the CUDA module is not built or no device is usable,
    [DeviceCount] returns 0, [IsAvailable] returns false and
    [ReleaseCache] changes nothing; in every configuration none of the
    three raises an error, and [IsAvailable] returns true exactly when
    [DeviceCount] returns a positive number. *)
Theorem cuda_queries_without_accelerator
    (cfg : BuildConfig) (rt : cuda.Runtime) :
  (cuda.no_accelerator cfg rt ->
   cuda.cache_consistent rt ->
   cuda.DeviceCount cfg rt = (Ok 0, rt) /\
   cuda.IsAvailable cfg rt = (Ok false, rt) /\
   cuda.ReleaseCache cfg rt = (Ok tt, rt)) /\
  (exists n b rt',
     cuda.DeviceCount cfg rt = (Ok n, rt) /\
     cuda.IsAvailable cfg rt = (Ok b, rt) /\
     cuda.ReleaseCache cfg rt = (Ok tt, rt') /\
     (b = true <-> n > 0)).
Proof.
  destruct cfg as [built cached], rt as [st cache released].
  split.
  - unfold cuda.no_accelerator, cuda.cache_consistent. simpl.
    intros Hno Hcache.
    unfold cuda.DeviceCount, cuda.IsAvailable, cuda.ReleaseCache,
      cuda.DeviceCount, cuda.CachedMemoryManager_ReleaseCache,
      LogWarning, bind, get, ret, modify. simpl.
    destruct built; simpl; [|auto].
    assert (Hempty : cache = []).
    { destruct cache as [|b rest]; [reflexivity|].
      apply Forall_cons in Hcache as [Hb _].
      destruct Hno as [Hno|Hno]; [discriminate|].
      destruct st; [contradiction | lia]. }
    subst cache.
    destruct Hno as [Hno|Hno]; [discriminate|].
    destruct st as [what|n]; [|subst n];
      (split; [reflexivity|split; [reflexivity|]]);
      destruct cached; simpl; rewrite ?app_nil_r; reflexivity.
  - unfold cuda.DeviceCount, cuda.IsAvailable, cuda.ReleaseCache,
      cuda.DeviceCount, cuda.CachedMemoryManager_ReleaseCache,
      LogWarning, bind, get, ret, modify. simpl.
    destruct built; simpl.
    + destruct st as [what|n]; simpl.
      * exists 0, false. destruct cached; eexists;
          (repeat split; [reflexivity..| |]; cbn; intros; try lia;
           discriminate).
      * exists n, (n >? 0). destruct cached; eexists;
          (repeat split; [reflexivity..| |]; rewrite Z.gtb_gt; lia).
    + exists 0, false. eexists.
      repeat split; [reflexivity..| |]; cbn; intros; try lia; discriminate.
Qed.

(** The theorem at work: CUDA is built in, but [CUDAState::GetInstance]
    throws. *)
Lemma cuda_queries_without_accelerator_witness :
  let rt := {| cuda.cuda_state := cuda.GetInstance_throws "no CUDA driver";
               cuda.cached_blocks := [];
               cuda.released_blocks := [] |} in
  cuda.DeviceCount IntegerCells.cuda_on rt = (Ok 0, rt) /\
  cuda.IsAvailable IntegerCells.cuda_on rt = (Ok false, rt) /\
  cuda.ReleaseCache IntegerCells.cuda_on rt = (Ok tt, rt).
Proof.
  intros rt.
  apply (proj1 (cuda_queries_without_accelerator IntegerCells.cuda_on rt)).
  - right. exact I.
  - constructor.
Defined.

(** ** Preconditions of the index (C4) *)

Arguments nns.round53 : simpl never.
Arguments nns.int64_of_double : simpl never.
Arguments nns.double_of_int64 : simpl never.
Arguments nns.cells_of : simpl never.
Arguments nns.cell_splits_of : simpl never.
Arguments nns.index_of : simpl never.
Arguments nns.rows : simpl never.
Arguments nns.Contiguous : simpl never.
Arguments Qmult : simpl never.

Section Index_facts.
Context `{SM : ScalarModel} `{DM : !nns.DeviceModel}.

Lemma Contiguous_dtype (t : Tensor) : dtype_ (nns.Contiguous t) = dtype_ t.
Proof. unfold nns.Contiguous. now destruct (IsContiguous t). Qed.
Lemma Contiguous_device (t : Tensor) : device_ (nns.Contiguous t) = device_ t.
Proof. unfold nns.Contiguous. now destruct (IsContiguous t). Qed.
Lemma Contiguous_shape (t : Tensor) : shape_ (nns.Contiguous t) = shape_ t.
Proof. unfold nns.Contiguous. now destruct (IsContiguous t). Qed.

Lemma type_eqb_CUDA (t : Device.DeviceType) :
  Device.type_eqb t Device.CUDA = true <-> t = Device.CUDA.
Proof. destruct t; simpl; split; congruence. Qed.

Lemma SetTensorData_runs cfg pts r w :
  BUILD_CUDA_MODULE cfg = true ->
  Device.GetType (device_ pts) = Device.CUDA ->
  Qle_bool r 0 = false ->
  Dtype.is_float (dtype_ pts) = true ->
  nns.SetTensorData cfg pts r w =
    (Ok true,
     {| nns.this := nns.index_after_SetTensorData pts r;
        nns.trace := nns.trace w ++
          nns.two_pass nns.BuildSpatialHashTableCUDA_op
            (nns.build_temp_size (default 0 (shape_ pts !! 0%nat))
               (nns.hash_table_size_of (default 0 (shape_ pts !! 0%nat))
                + 1)) |}).
Proof.
  intros Hb Hd Hr Hf.
  unfold nns.SetTensorData. rewrite Hb, Hd, Hr. simpl.
  unfold bind, nns.update, nns.self, modify, get, ret. simpl.
  unfold DISPATCH_FLOAT_DTYPE_TO_TEMPLATE, nns.GetDtype. simpl.
  rewrite Contiguous_dtype, Hf. simpl.
  unfold nns.index_after_SetTensorData, nns.hash_table_size_of,
    nns.GetDatasetSize, GetShape. simpl.
  rewrite Contiguous_dtype, !Contiguous_shape.
  rewrite <- !app_assoc. simpl. reflexivity.
Qed.

(** The preconditions checked before the object is touched. *)
Lemma SetTensorData_rejects cfg pts r w :
  BUILD_CUDA_MODULE cfg = false \/
  Device.GetType (device_ pts) <> Device.CUDA \/
  Qle_bool r 0 = true ->
  exists msg, nns.SetTensorData cfg pts r w = (Err msg, w).
Proof.
  intros H. unfold nns.SetTensorData.
  destruct (BUILD_CUDA_MODULE cfg); [|eexists; reflexivity].
  destruct (Device.type_eqb _ _) eqn:Ed; simpl; [|eexists; reflexivity].
  apply type_eqb_CUDA in Ed.
  destruct H as [H|[H|H]]; [discriminate|contradiction|].
  rewrite H. eexists. reflexivity.
Qed.

(** A dataset that is not of a float dtype is stored before the
    dispatch fails. *)
Lemma SetTensorData_not_float cfg pts r w :
  BUILD_CUDA_MODULE cfg = true ->
  Device.GetType (device_ pts) = Device.CUDA ->
  Qle_bool r 0 = false ->
  Dtype.is_float (dtype_ pts) = false ->
  exists msg w',
    nns.SetTensorData cfg pts r w = (Err msg, w') /\
    nns.GetDtype (nns.this w') = dtype_ pts.
Proof.
  intros Hb Hd Hr Hf.
  unfold nns.SetTensorData. rewrite Hb, Hd, Hr. simpl.
  unfold bind, nns.update, nns.self, modify, get, ret. simpl.
  unfold DISPATCH_FLOAT_DTYPE_TO_TEMPLATE, nns.GetDtype. simpl.
  rewrite Contiguous_dtype, Hf. simpl.
  eexists. eexists. split; [reflexivity|]. simpl. apply Contiguous_dtype.
Qed.

Lemma SetTensorData_Ok_inv cfg pts r w b w' :
  nns.SetTensorData cfg pts r w = (Ok b, w') ->
  BUILD_CUDA_MODULE cfg = true /\
  Device.GetType (device_ pts) = Device.CUDA /\
  Qle_bool r 0 = false /\
  Dtype.is_float (dtype_ pts) = true.
Proof.
  intros H.
  destruct (BUILD_CUDA_MODULE cfg) eqn:Hb.
  2:{ destruct (SetTensorData_rejects cfg pts r w) as [m Hm];
        [auto|congruence]. }
  destruct (Device.type_eqb (Device.GetType (device_ pts)) Device.CUDA)
    eqn:Hd.
  2:{ destruct (SetTensorData_rejects cfg pts r w) as [m Hm]; [|congruence].
      right; left. intros E. apply type_eqb_CUDA in E. congruence. }
  apply type_eqb_CUDA in Hd.
  destruct (Qle_bool r 0) eqn:Hr.
  { destruct (SetTensorData_rejects cfg pts r w) as [m Hm];
      [auto|congruence]. }
  destruct (Dtype.is_float (dtype_ pts)) eqn:Hf; [auto|].
  destruct (SetTensorData_not_float cfg pts r w Hb Hd Hr Hf)
    as (m & w'' & Hm & _).
  congruence.
Qed.

(** An index that can be reached holds a table or a dataset that is
    not of a float dtype. *)
Lemma reachable_built_or_not_float cfg o :
  nns.reachable cfg o ->
  nns.built cfg o \/ Dtype.is_float (nns.GetDtype o) = false.
Proof.
  induction 1 as [|w pts r res w' Hreach IH Hset].
  - right. reflexivity.
  - destruct res as [b|msg].
    + left.
      pose proof (SetTensorData_Ok_inv _ _ _ _ _ _ Hset)
        as (Hb & Hd & Hr & Hf).
      pose proof (SetTensorData_runs cfg pts r w Hb Hd Hr Hf) as Hrun.
      exists pts, r, w, w'. split; [|reflexivity]. congruence.
    + destruct (BUILD_CUDA_MODULE cfg) eqn:Hb.
      2:{ destruct (SetTensorData_rejects cfg pts r w) as [m Hm]; [auto|].
          assert (w' = w) by congruence. now subst. }
      destruct (Device.type_eqb (Device.GetType (device_ pts)) Device.CUDA)
        eqn:Hd.
      2:{ destruct (SetTensorData_rejects cfg pts r w) as [m Hm].
          - right; left. intros E. apply type_eqb_CUDA in E. congruence.
          - assert (w' = w) by congruence. now subst. }
      apply type_eqb_CUDA in Hd.
      destruct (Qle_bool r 0) eqn:Hr.
      { destruct (SetTensorData_rejects cfg pts r w) as [m Hm]; [auto|].
        assert (w' = w) by congruence. now subst. }
      destruct (Dtype.is_float (dtype_ pts)) eqn:Hf.
      * rewrite (SetTensorData_runs cfg pts r w Hb Hd Hr Hf) in Hset.
        discriminate.
      * destruct (SetTensorData_not_float cfg pts r w Hb Hd Hr Hf)
          as (m & w'' & Hm & Hdt).
        right. assert (w' = w'') by congruence. subst. now rewrite Hdt.
Qed.

Lemma checks_fail o q r {A} (k : M nns.World A) w :
  nns.query_mismatch o q r ->
  exists msg, nns.checks o q r k w = (Err msg, w).
Proof.
  intros H. unfold nns.checks, nns.query_mismatch in *.
  unfold nns.AssertDtype, nns.AssertShapeCompatible, nns.AssertDevice.
  destruct (Dtype.eqb (dtype_ q) (nns.GetDtype o)) eqn:E1;
    [|eexists; reflexivity].
  destruct (nns.shape_compatible _ _) eqn:E2; [|eexists; reflexivity].
  destruct (Device.eqb _ _) eqn:E3; [|eexists; reflexivity].
  destruct (Qle_bool r 0) eqn:E4; [eexists; reflexivity|].
  exfalso.
  apply Dtype_eqb_eq in E1. apply Device_eqb_eq in E3.
  destruct H as [H|[H|[H|H]]]; try congruence.
  apply Qle_bool_iff in H. congruence.
Qed.

Lemma checks_pass_or_fail o q r {A} (k : M nns.World A) w :
  (exists msg, nns.checks o q r k w = (Err msg, w)) \/
  nns.checks o q r k w = k w.
Proof.
  unfold nns.checks.
  unfold nns.AssertDtype, nns.AssertShapeCompatible, nns.AssertDevice.
  destruct (Dtype.eqb (dtype_ q) (nns.GetDtype o)) eqn:E1;
    [|left; eexists; reflexivity].
  destruct (nns.shape_compatible _ _) eqn:E2; [|left; eexists; reflexivity].
  destruct (Device.eqb _ _) eqn:E3; [|left; eexists; reflexivity].
  destruct (Qle_bool r 0) eqn:E4; [left; eexists; reflexivity|].
  right. reflexivity.
Qed.

Lemma SearchRadius_checks cfg q r sort w :
  BUILD_CUDA_MODULE cfg = true ->
  exists k,
    nns.SearchRadius cfg q r sort w
    = nns.checks (nns.this w) q r
        (DISPATCH_FLOAT_DTYPE_TO_TEMPLATE (nns.GetDtype (nns.this w)) k) w.
Proof.
  intros Hb. unfold nns.SearchRadius. rewrite Hb.
  eexists. unfold bind at 1. unfold nns.self at 1. unfold bind at 1.
  simpl. unfold nns.checks. reflexivity.
Qed.

Lemma SearchHybrid_checks cfg q r knn w :
  BUILD_CUDA_MODULE cfg = true ->
  exists B (k : Dtype.t -> M nns.World B) k',
    nns.SearchHybrid cfg q r knn w
    = nns.checks (nns.this w) q r
        (bind (DISPATCH_FLOAT_DTYPE_TO_TEMPLATE
                 (nns.GetDtype (nns.this w)) k) k') w.
Proof.
  intros Hb. unfold nns.SearchHybrid. rewrite Hb.
  eexists. eexists. eexists.
  unfold bind at 1. unfold nns.self at 1. unfold bind at 1.
  simpl. unfold nns.checks. reflexivity.
Qed.


(** C4: a violated precondition is a fatal error that returns nothing and
    changes nothing.  [SetTensorData] raises, with the index and the
    device log as they were, when the dataset is not on a CUDA device or
    the radius is not positive; [SearchRadius] and [SearchHybrid] raise,
    again with nothing changed, on an index that holds no hash table, on
    a radius that is not positive, and on a query whose dtype, device or
    shape does not match the dataset. *)
Theorem FixedRadiusIndex_preconditions (cfg : BuildConfig) :
  (forall (dataset_points : Tensor) (radius : Q) (w : nns.World),
     Device.GetType (device_ dataset_points) <> Device.CUDA \/
     (radius <= 0)%Q ->
     exists msg,
       nns.SetTensorData cfg dataset_points radius w = (Err msg, w)) /\
  (forall (query_points : Tensor) (radius : Q) (sort : bool) (max_knn : Z)
          (w : nns.World),
     nns.reachable cfg (nns.this w) ->
     ~ nns.built cfg (nns.this w) \/
     nns.query_mismatch (nns.this w) query_points radius ->
     (exists msg,
        nns.SearchRadius cfg query_points radius sort w = (Err msg, w)) /\
     (exists msg,
        nns.SearchHybrid cfg query_points radius max_knn w = (Err msg, w))).
Proof.
  split.
  - intros pts r w H. apply SetTensorData_rejects.
    destruct H as [H|H]; [auto|].
    right; right. now apply Qle_bool_iff.
  - intros q r sort knn w Hreach H.
    destruct (BUILD_CUDA_MODULE cfg) eqn:Hb.
    2:{ unfold nns.SearchRadius, nns.SearchHybrid. rewrite Hb.
        split; eexists; reflexivity. }
    destruct (SearchRadius_checks cfg q r sort w Hb) as (k1 & ->).
    destruct (SearchHybrid_checks cfg q r knn w Hb) as (B & k2 & k2' & ->).
    destruct H as [H|H]; [|split; now apply checks_fail].
    destruct (reachable_built_or_not_float cfg _ Hreach) as [Hbuilt|Hf];
      [contradiction|].
    split.
    + destruct (checks_pass_or_fail (nns.this w) q r
                  (DISPATCH_FLOAT_DTYPE_TO_TEMPLATE
                     (nns.GetDtype (nns.this w)) k1) w) as [Hc| ->];
        [exact Hc|].
      unfold DISPATCH_FLOAT_DTYPE_TO_TEMPLATE. rewrite Hf.
      eexists; reflexivity.
    + destruct (checks_pass_or_fail (nns.this w) q r
                  (bind (DISPATCH_FLOAT_DTYPE_TO_TEMPLATE
                           (nns.GetDtype (nns.this w)) k2) k2') w)
        as [Hc| ->]; [exact Hc|].
      unfold bind, DISPATCH_FLOAT_DTYPE_TO_TEMPLATE. rewrite Hf.
      eexists; reflexivity.
Qed.
End Index_facts.

(** The theorem at work: a dataset on the host is refused, and a freshly
    constructed index refuses a query. *)
Lemma FixedRadiusIndex_preconditions_witness :
  (exists msg,
     nns.SetTensorData (DM := IntegerCells.device) IntegerCells.cuda_on
       (IntegerCells.tensor [4; 2] Dtype.Float32 IntegerCells.cpu0
          [0; 0; 1; 0; 5; 5; 0; 1])
       (1 # 1) nns.World_new
     = (Err msg, nns.World_new)) /\
  (exists msg,
     nns.SearchRadius (DM := IntegerCells.device) IntegerCells.cuda_on
       IntegerCells.queries (1 # 1) true nns.World_new
     = (Err msg, nns.World_new)) /\
  (exists msg,
     nns.SearchHybrid (DM := IntegerCells.device) IntegerCells.cuda_on
       IntegerCells.queries (1 # 1) 3 nns.World_new
     = (Err msg, nns.World_new)).
Proof.
  pose proof (FixedRadiusIndex_preconditions
                (SM := IntegerCells.scalars) (DM := IntegerCells.device)
                IntegerCells.cuda_on) as [Hset Hsearch].
  split.
  - apply Hset. left. discriminate.
  - apply Hsearch.
    + apply nns.reachable_new.
    + right. left. discriminate.
Defined.

(** ** Device calls of the searches *)

Arguments nns.neighbours : simpl never.
Arguments nns.distances_of : simpl never.
Arguments nns.scan : simpl never.
Arguments nns.sort_pairs : simpl never.
Arguments nns.segments : simpl never.
Arguments nns.hybrid_row : simpl never.

Section Search_facts.
Context `{SM : ScalarModel} `{DM : !nns.DeviceModel}.

(** What the checks leave when they pass. *)
Lemma checks_Ok_inv o q r {A} (k : M nns.World A) w (a : A) w' :
  nns.checks o q r k w = (Ok a, w') ->
  k w = (Ok a, w') /\
  dtype_ q = nns.GetDtype o /\
  device_ q = nns.GetDevice o /\
  nns.shape_compatible (shape_ q) [None; Some (nns.GetDimension o)] = true /\
  Qle_bool r 0 = false.
Proof.
  unfold nns.checks, nns.AssertDtype, nns.AssertShapeCompatible,
    nns.AssertDevice.
  destruct (Dtype.eqb (dtype_ q) (nns.GetDtype o)) eqn:E1; [|discriminate].
  destruct (nns.shape_compatible _ _) eqn:E2; [|discriminate].
  destruct (Device.eqb _ _) eqn:E3; [|discriminate].
  destruct (Qle_bool r 0) eqn:E4; [discriminate|].
  intros H. apply Dtype_eqb_eq in E1. apply Device_eqb_eq in E3. auto.
Qed.

Lemma SearchRadius_trace cfg q r sort w res w' :
  nns.SearchRadius cfg q r sort w = (Ok res, w') ->
  nns.this w' = nns.this w /\
  exists num_indices num_segments,
    nns.trace w' = nns.trace w ++
      nns.two_pass nns.FixedRadiusSearchCUDA_op
        (nns.search_temp_size (nns.GetDatasetSize (nns.this w))
           (default 0 (shape_ q !! 0%nat))) ++
      (if sort
       then nns.two_pass nns.SortPairs_op
              (nns.sort_temp_size num_indices num_segments)
       else []).
Proof.
  intros H. unfold nns.SearchRadius in H.
  destruct (BUILD_CUDA_MODULE cfg); [|discriminate].
  unfold bind at 1, nns.self at 1, bind at 1 in H. simpl in H.
  apply checks_Ok_inv in H as (H & _).
  unfold DISPATCH_FLOAT_DTYPE_TO_TEMPLATE in H.
  destruct (Dtype.is_float _); [|discriminate].
  rewrite Contiguous_shape in H.
  destruct sort; simpl in H;
    unfold bind, nns.FixedRadiusSearchCUDA, nns.SortPairs, nns.alloc_temp,
      nns.log, modify, ret in H; simpl in H;
    injection H as <- <-.
  - simpl. split; [reflexivity|].
    eexists; eexists; rewrite <- !app_assoc; reflexivity.
  - simpl. split; [reflexivity|].
    exists 0, 0. rewrite <- !app_assoc; reflexivity.
Qed.

Lemma SearchHybrid_trace cfg q r k w res w' :
  nns.SearchHybrid cfg q r k w = (Ok res, w') ->
  nns.this w' = nns.this w /\
  nns.trace w' = nns.trace w ++
    [nns.DeviceCall nns.HybridSearchCUDA_op nns.NoScratchParameters].
Proof.
  intros H. unfold nns.SearchHybrid in H.
  destruct (BUILD_CUDA_MODULE cfg); [|discriminate].
  unfold bind at 1, nns.self at 1, bind at 1 in H. simpl in H.
  apply checks_Ok_inv in H as (H & _).
  unfold DISPATCH_FLOAT_DTYPE_TO_TEMPLATE in H.
  unfold bind at 1 in H.
  destruct (Dtype.is_float _); [|discriminate].
  unfold bind at 1 in H.
  unfold nns.HybridSearchCUDA at 1, bind at 1, nns.log, modify, ret in H. 
  cbv beta iota zeta in H. 
  unfold nns.Array_View, bind, ret, LogError in H.
  repeat match type of H with
  | context [if ?c then _ else _] => destruct c; try discriminate
  end.
  injection H as <- <-. simpl. auto.
Qed.
End Search_facts.

(** ** Arithmetic of the table size *)

Lemma round53_small (n : Z) : 0 <= n < 2 ^ 53 -> nns.round53 n = n.
Proof.
  intros H. unfold nns.round53.
  rewrite Z.abs_eq by lia.
  destruct (n <? 2 ^ 53) eqn:E; [reflexivity|].
  apply Z.ltb_ge in E. lia.
Qed.

Lemma round53_large (n : Z) : 2 ^ 53 <= n -> 2 ^ 53 <= nns.round53 n.
Proof.
  intros H. unfold nns.round53.
  rewrite Z.abs_eq by lia.
  destruct (n <? 2 ^ 53) eqn:E; [apply Z.ltb_lt in E; lia|].
  assert (Hlog : 53 <= Z.log2 n) by (apply Z.log2_le_pow2; lia).
  set (e := Z.log2 n - 52).
  assert (He : 1 <= e) by (unfold e; lia).
  assert (Hpow : 2 <= 2 ^ e).
  { change 2 with (2 ^ 1) at 1. apply Z.pow_le_mono_r; lia. }
  assert (Hq : 2 ^ 52 <= n / 2 ^ e).
  { apply Z.div_le_lower_bound; [lia|].
    rewrite Z.mul_comm, <- Z.pow_add_r by lia.
    replace (52 + e) with (Z.log2 n) by (unfold e; lia).
    apply Z.log2_spec. lia. }
  set (q := n / 2 ^ e) in *.
  assert (Hres : forall x, q <= x -> 2 ^ 53 <= x * 2 ^ e).
  { intros x Hx. change (2 ^ 53) with (2 ^ 52 * 2).
    apply Z.mul_le_mono_nonneg; lia. }
  destruct (n mod 2 ^ e <? 2 ^ (e - 1)); [apply Hres; lia|].
  destruct (2 ^ (e - 1) <? n mod 2 ^ e); [apply Hres; lia|].
  destruct (Z.even q); apply Hres; lia.
Qed.

Lemma hash_table_size_of_spec (n : Z) :
  0 <= n ->
  nns.hash_table_size_of n = Z.min (Z.max (n / 32) 1) 33554432.
Proof.
  intros Hn. unfold nns.hash_table_size_of, nns.int64_of_double,
    nns.hash_table_size_factor, nns.double_of_int64, nns.max_hash_tabls_size.
  unfold Qmult, inject_Z. cbn [Qnum Qden].
  change (Z.pos (32 * 1)) with 32.
  rewrite Z.mul_1_l.
  destruct (Z_lt_le_dec n (2 ^ 53)) as [Hs|Hl].
  - rewrite round53_small by lia.
    rewrite Z.quot_div_nonneg by lia. reflexivity.
  - pose proof (round53_large n Hl) as Hr.
    rewrite Z.quot_div_nonneg by lia.
    assert (2 ^ 48 <= nns.round53 n / 32)
      by (apply Z.div_le_lower_bound; lia).
    assert (2 ^ 48 <= n / 32) by (apply Z.div_le_lower_bound; lia).
    change (2 ^ 48) with 281474976710656 in *. lia.
Qed.

(** ** The bucket layout *)

Lemma filter_below_mono (cells : list Z) (a b : Z) :
  a <= b ->
  Z.of_nat (length (List.filter (fun x => x <? a) cells))
  <= Z.of_nat (length (List.filter (fun x => x <? b) cells)).
Proof.
  intros Hab. induction cells as [|x rest IH]; simpl; [lia|].
  destruct (Z.ltb_spec x a), (Z.ltb_spec x b); simpl length; lia.
Qed.

Section Layout.
Context `{SM : ScalarModel} `{DM : !nns.DeviceModel}.

Lemma cell_splits_of_length (cells : list Z) (size : Z) :
length (nns.cell_splits_of cells size) = Z.to_nat (size + 1).
Proof. unfold nns.cell_splits_of. now rewrite length_map, length_seqZ. Qed.

Lemma cell_splits_of_lookup (cells : list Z) (size : Z) (i : nat) (a : Z) :
nns.cell_splits_of cells size !! i = Some a ->
a = Z.of_nat (length (List.filter (fun x => x <? Z.of_nat i) cells)).
Proof.
unfold nns.cell_splits_of. rewrite list_lookup_fmap.
destruct (seqZ 0 (size + 1) !! i) as [c|] eqn:E; [|discriminate].
apply lookup_seqZ in E as [-> _]. simpl. intros [= <-]. reflexivity.
Qed.

Lemma cell_splits_of_monotone (cells : list Z) (size : Z) (i j : nat)
    (a b : Z) :
(i <= j)%nat ->
nns.cell_splits_of cells size !! i = Some a ->
nns.cell_splits_of cells size !! j = Some b ->
a <= b.
Proof.
intros Hij Ha Hb.
apply cell_splits_of_lookup in Ha. apply cell_splits_of_lookup in Hb.
subst. apply filter_below_mono. lia.
Qed.

Lemma flat_map_nil {A B} (l : list A) : flat_map (fun _ => @nil B) l = [].
Proof. induction l; simpl; auto. Qed.

Lemma flat_map_app_perm {A B} (f g : A -> list B) (l : list A) :
Permutation (flat_map (fun x => f x ++ g x) l)
            (flat_map f l ++ flat_map g l).
Proof.
induction l as [|x l IH]; simpl; [constructor|].
rewrite IH. rewrite <- !app_assoc. apply Permutation_app_head.
rewrite !app_assoc. apply Permutation_app_tail. apply Permutation_app_comm.
Qed.

Lemma flat_map_single (x j : Z) (cs : list Z) :
NoDup cs -> In x cs ->
flat_map (fun c => if x =? c then [j] else []) cs = [j].
Proof.
induction 1 as [|c cs Hnot Hnd IH]; simpl; [contradiction|].
intros [->|Hin].
- rewrite Z.eqb_refl. simpl. f_equal.
  clear IH Hnd. induction cs as [|d cs IH]; simpl; [reflexivity|].
  destruct (Z.eqb_spec x d) as [->|Hne].
  + exfalso. apply Hnot. apply list_elem_of_In. now left.
  + simpl. apply IH. intros Hc. apply Hnot. apply list_elem_of_In.
    right. now apply list_elem_of_In.
- destruct (Z.eqb_spec x c) as [->|Hne].
  + exfalso. apply Hnot. now apply list_elem_of_In.
  + simpl. now apply IH.
Qed.

Lemma bucket_perm (cells cs : list Z) (j : Z) :
NoDup cs ->
Forall (fun x => In x cs) cells ->
Permutation (flat_map (fun c => nns.bucket c j cells) cs)
            (seqZ j (Z.of_nat (length cells))).
Proof.
intros Hnd. revert j.
induction cells as [|x rest IH]; intros j Hall.
- simpl. rewrite flat_map_nil. constructor.
- apply Forall_cons in Hall as [Hx Hrest].
  cbn [nns.bucket].
  rewrite flat_map_app_perm, (flat_map_single x j cs Hnd Hx).
  rewrite seqZ_cons by (simpl; lia).
  simpl. constructor.
  replace (Z.pred (Z.of_nat (S (length rest))))
    with (Z.of_nat (length rest)) by lia.
  replace (Z.succ j) with (j + 1) by lia.
  now apply IH.
Qed.

Lemma index_of_perm (cells : list Z) (size : Z) :
Forall (fun x => 0 <= x < size) cells ->
Permutation (nns.index_of cells size) (seqZ 0 (Z.of_nat (length cells))).
Proof.
intros Hall. unfold nns.index_of. apply bucket_perm.
- apply NoDup_seqZ.
- eapply Forall_impl; [exact Hall|]. intros x Hx. simpl in Hx.
  apply list_elem_of_In, elem_of_seqZ. lia.
Qed.

Lemma cells_of_range scalar_t radius size points :
0 < size ->
Forall (fun x => 0 <= x < size) (nns.cells_of scalar_t radius size points).
Proof.
intros Hs. unfold nns.cells_of. apply Forall_map, Forall_forall.
intros p _. simpl. apply Z.mod_pos_bound. lia.
Qed.

Lemma cells_of_length scalar_t radius size points :
length (nns.cells_of scalar_t radius size points) = length points.
Proof. unfold nns.cells_of. apply length_map. Qed.

Lemma rows_length (t : Tensor) :
length (nns.rows t) = Z.to_nat (default 0 (shape_ t !! 0%nat)).
Proof. unfold nns.rows. now rewrite length_map, length_seqZ. Qed.
End Layout.

(** Running a definition on a concrete input: the left-hand side of the
    goal is replaced by its value. *)
Ltac run_lhs :=
  match goal with
  | |- ?x = _ => let y := eval vm_compute in x in change x with y
  end.

(** ** The hash table after [SetTensorData] (C2) *)

(** What a successful [SetTensorData] leaves. *)
Lemma SetTensorData_Ok `{SM : ScalarModel} `{DM : !nns.DeviceModel}
    cfg pts r w b w' :
  nns.SetTensorData cfg pts r w = (Ok b, w') ->
  b = true /\
  nns.this w' = nns.index_after_SetTensorData pts r /\
  nns.trace w' = nns.trace w ++
    nns.two_pass nns.BuildSpatialHashTableCUDA_op
      (nns.build_temp_size (default 0 (shape_ pts !! 0%nat))
         (nns.hash_table_size_of (default 0 (shape_ pts !! 0%nat)) + 1)).
Proof.
  intros H.
  pose proof (SetTensorData_Ok_inv _ _ _ _ _ _ H) as (Hb & Hd & Hr & Hf).
  rewrite (SetTensorData_runs cfg pts r w Hb Hd Hr Hf) in H.
  injection H as <- <-. auto.
Qed.

(** C2: after a successful [SetTensorData] on a dataset of [n] points the
    table size is [min (max (n / 32) 1) 33554432], the cell splits have
    that many entries plus one and never decrease, and the index has [n]
    entries. *)
Theorem SetTensorData_hash_table `{SM : ScalarModel} `{DM : !nns.DeviceModel}
    (cfg : BuildConfig) (dataset_points : Tensor) (radius : Q)
    (w w' : nns.World) (b : bool) :
  nns.SetTensorData cfg dataset_points radius w = (Ok b, w') ->
  0 <= nns.GetDatasetSize (nns.this w') ->
  let o := nns.this w' in
  let n := nns.GetDatasetSize o in
  let hash_table_size := Z.min (Z.max (n / 32) 1) 33554432 in
  nns.hash_table_splits_ o = [0; hash_table_size] /\
  nns.arr_shape (nns.hash_table_cell_splits_ o) = [hash_table_size + 1] /\
  Z.of_nat (length (nns.arr_data (nns.hash_table_cell_splits_ o)))
    = hash_table_size + 1 /\
  nns.non_decreasing (nns.arr_data (nns.hash_table_cell_splits_ o)) /\
  nns.arr_shape (nns.hash_table_index_ o) = [n] /\
  Z.of_nat (length (nns.arr_data (nns.hash_table_index_ o))) = n.
Proof.
  intros H Hn o n hash_table_size.
  apply SetTensorData_Ok in H as (_ & Ho & _).
  subst o n hash_table_size. rewrite Ho in *. clear Ho.
  unfold nns.GetDatasetSize, nns.index_after_SetTensorData, GetShape in *.
  cbn [nns.dataset_points_ nns.hash_table_splits_ nns.hash_table_cell_splits_
       nns.hash_table_index_ nns.arr_shape nns.arr_data] in *.
  set (n := default 0 (shape_ (nns.Contiguous dataset_points) !! 0%nat)) in *.
  rewrite (hash_table_size_of_spec n Hn).
  set (size := Z.min (Z.max (n / 32) 1) 33554432).
  assert (Hsize : 0 < size) by (unfold size; lia).
  replace (size + 1 - 1) with size by lia.
  repeat split.
  - rewrite cell_splits_of_length. lia.
  - intros i j a c. apply cell_splits_of_monotone.
  - rewrite (Permutation_length
               (index_of_perm _ _ (cells_of_range _ _ _ _ Hsize))).
    rewrite length_seqZ, cells_of_length, rows_length. fold n. lia.
Qed.

(** The theorem at work: four points, a table of one cell. *)
Lemma SetTensorData_hash_table_witness :
  let o := nns.this IntegerCells.built_world in
  let n := nns.GetDatasetSize o in
  let hash_table_size := Z.min (Z.max (n / 32) 1) 33554432 in
  nns.hash_table_splits_ o = [0; hash_table_size] /\
  nns.arr_shape (nns.hash_table_cell_splits_ o) = [hash_table_size + 1] /\
  Z.of_nat (length (nns.arr_data (nns.hash_table_cell_splits_ o)))
    = hash_table_size + 1 /\
  nns.non_decreasing (nns.arr_data (nns.hash_table_cell_splits_ o)) /\
  nns.arr_shape (nns.hash_table_index_ o) = [n] /\
  Z.of_nat (length (nns.arr_data (nns.hash_table_index_ o))) = n.
Proof.
  apply (SetTensorData_hash_table (DM := IntegerCells.device)
           IntegerCells.cuda_on IntegerCells.dataset 1 nns.World_new
           IntegerCells.built_world true).
  - reflexivity.
  - vm_compute. discriminate.
Defined.

(** ** The scratch protocol of the device calls (C3) *)

(** C3, as the code has it: the hash-table build, the radius search and,
    when sorting is requested, the pair sort are each called twice: once
    with a null scratch pointer, a call that only reports the scratch
    size and leaves the outputs alone, and, once a buffer of exactly that
    size is allocated, a second time with it.  The hybrid search is one
    call, without any scratch argument. *)
Theorem device_calls_scratch_protocol
    `{SM : ScalarModel} `{DM : !nns.DeviceModel} (cfg : BuildConfig) :
  (forall dataset_points radius w b w',
     nns.SetTensorData cfg dataset_points radius w = (Ok b, w') ->
     nns.trace w' = nns.trace w ++
       nns.two_pass nns.BuildSpatialHashTableCUDA_op
         (nns.build_temp_size
            (nns.GetDatasetSize (nns.this w'))
            (default 0 (nns.arr_shape
                          (nns.hash_table_cell_splits_ (nns.this w'))
                        !! 0%nat)))) /\
  (forall query_points radius sort w res w',
     nns.SearchRadius cfg query_points radius sort w = (Ok res, w') ->
     exists num_indices num_segments,
       nns.trace w' = nns.trace w ++
         nns.two_pass nns.FixedRadiusSearchCUDA_op
           (nns.search_temp_size (nns.GetDatasetSize (nns.this w))
              (default 0 (shape_ query_points !! 0%nat))) ++
         (if sort
          then nns.two_pass nns.SortPairs_op
                 (nns.sort_temp_size num_indices num_segments)
          else [])) /\
  (forall query_points radius max_knn w res w',
     nns.SearchHybrid cfg query_points radius max_knn w = (Ok res, w') ->
     nns.trace w' = nns.trace w ++
       [nns.DeviceCall nns.HybridSearchCUDA_op nns.NoScratchParameters]) /\
  (forall temp_size n points scalar_t radius cs w,
     nns.BuildSpatialHashTableCUDA None temp_size n points scalar_t radius
       cs w
     = (Ok (nns.build_temp_size n cs),
        {| nns.this := nns.this w;
           nns.trace := nns.trace w ++
             [nns.DeviceCall nns.BuildSpatialHashTableCUDA_op
                (nns.Scratch None temp_size)] |})) /\
  (forall temp_size row_splits n points m queries scalar_t radius index
          allocator w,
     nns.FixedRadiusSearchCUDA None temp_size row_splits n points m queries
       scalar_t radius index allocator w
     = (Ok (nns.search_temp_size n m, row_splits, allocator),
        {| nns.this := nns.this w;
           nns.trace := nns.trace w ++
             [nns.DeviceCall nns.FixedRadiusSearchCUDA_op
                (nns.Scratch None temp_size)] |})) /\
  (forall temp_size num_indices num_segments row_splits scalar_t
          indices distances indices_sorted distances_sorted w,
     nns.SortPairs None temp_size num_indices num_segments row_splits
       scalar_t indices distances indices_sorted distances_sorted w
     = (Ok (nns.sort_temp_size num_indices num_segments,
            indices_sorted, distances_sorted),
        {| nns.this := nns.this w;
           nns.trace := nns.trace w ++
             [nns.DeviceCall nns.SortPairs_op
                (nns.Scratch None temp_size)] |})).
Proof.
  repeat split.
  - intros pts r w b w' H.
    apply SetTensorData_Ok in H as (_ & Ho & Ht).
    rewrite Ht, Ho. unfold nns.GetDatasetSize, GetShape. simpl.
    now rewrite Contiguous_shape.
  - intros q r sort w res w' H.
    now apply SearchRadius_trace in H as (_ & H).
  - intros q r k w res w' H.
    now apply SearchHybrid_trace in H as (_ & H).
Qed.

(** The theorem at work on the index over four points. *)
Lemma device_calls_scratch_protocol_witness :
  nns.trace IntegerCells.built_world =
    nns.trace (@nns.World_new IntegerCells.scalars) ++
    nns.two_pass nns.BuildSpatialHashTableCUDA_op 48 /\
  (exists num_indices num_segments,
     nns.trace
       (snd (nns.SearchRadius (DM := IntegerCells.device)
               IntegerCells.cuda_on IntegerCells.queries 2 true
               IntegerCells.built_world))
     = nns.trace IntegerCells.built_world ++
       nns.two_pass nns.FixedRadiusSearchCUDA_op 48 ++
       nns.two_pass nns.SortPairs_op
         (IntegerCells.device.(nns.sort_temp_size)
            num_indices num_segments)) /\
  nns.trace
    (snd (nns.SearchHybrid (DM := IntegerCells.device)
            IntegerCells.cuda_on IntegerCells.queries 2 3
            IntegerCells.built_world))
  = nns.trace IntegerCells.built_world ++
    [nns.DeviceCall nns.HybridSearchCUDA_op nns.NoScratchParameters].
Proof.
  pose proof (device_calls_scratch_protocol
                (DM := IntegerCells.device) IntegerCells.cuda_on)
    as (Hbuild & Hradius & Hhybrid & _).
  split; [|split].
  - apply (Hbuild IntegerCells.dataset 1%Q nns.World_new true).
    reflexivity.
  - eapply (Hradius IntegerCells.queries 2%Q true IntegerCells.built_world).
    run_lhs. reflexivity.
  - eapply (Hhybrid IntegerCells.queries 2%Q 3 IntegerCells.built_world).
    run_lhs. reflexivity.
Defined.

(** The claim as it was stated fails for the hybrid search: on the index
    over four points [SearchHybrid] succeeds, and the calls it makes are
    not a probe, an allocation and a run. *)
Lemma SearchHybrid_not_two_pass :
  exists res w',
    nns.SearchHybrid (DM := IntegerCells.device) IntegerCells.cuda_on
      IntegerCells.queries 2 3 IntegerCells.built_world = (Ok res, w') /\
    ~ (exists size,
         nns.trace w' = nns.trace IntegerCells.built_world ++
           nns.two_pass nns.HybridSearchCUDA_op size).
Proof.
  eexists. eexists. split.
  - run_lhs. reflexivity.
  - intros [size H]. vm_compute in H. discriminate H.
Qed.

(** ** Counts of the hybrid search (C7) *)

Lemma filter_length_perm {A} (f : A -> bool) (l l' : list A) :
  Permutation l l' ->
  length (List.filter f l) = length (List.filter f l').
Proof.
  induction 1 as [|x l l' _ IH|x y l|l l' l'' _ IH1 _ IH2]; simpl.
  - reflexivity.
  - destruct (f x); simpl; congruence.
  - destruct (f x), (f y); reflexivity.
  - congruence.
Qed.

Lemma read_app_r {A} (pre l : list A) (j : Z) :
  0 <= j ->
  read (pre ++ l) (Z.of_nat (length pre) + j) = read l j.
Proof.
  intros Hj. unfold read.
  destruct (Z.leb_spec 0 (Z.of_nat (length pre) + j)); [|lia].
  destruct (Z.leb_spec 0 j); [|lia].
  rewrite lookup_app_r by lia. f_equal. lia.
Qed.

(** Filtering the positions of a list by what they hold keeps as many
    as filtering the list itself. *)
Lemma filter_positions {A} (f : A -> bool) (l pre : list A) :
  length (List.filter
            (fun j => match read (pre ++ l) j with
                      | Some p => f p
                      | None => false
                      end)
            (seqZ (Z.of_nat (length pre)) (Z.of_nat (length l))))
  = length (List.filter f l).
Proof.
  revert pre. induction l as [|x l IH]; intros pre; [reflexivity|].
  rewrite seqZ_cons by (simpl; lia).
  cbn [List.filter].
  replace (read (pre ++ x :: l) (Z.of_nat (length pre))) with (Some x).
  2:{ replace (Z.of_nat (length pre)) with (Z.of_nat (length pre) + 0) by lia.
      now rewrite read_app_r by lia. }
  specialize (IH (pre ++ [x])).
  rewrite <- app_assoc in IH. simpl in IH.
  rewrite length_app in IH. simpl in IH.
  replace (Z.succ (Z.of_nat (length pre)))
    with (Z.of_nat (length pre + 1)) by lia.
  replace (Z.pred (Z.of_nat (length (x :: l))))
    with (Z.of_nat (length l)) by (simpl; lia).
  destruct (f x); simpl; rewrite IH; reflexivity.
Qed.

Lemma flat_map_length_const {A B C} (f : B -> list C) (g : A -> B)
    (l : list A) (c : nat) :
  (forall x, length (f (g x)) = c) ->
  length (flat_map f (map g l)) = (length l * c)%nat.
Proof.
  intros Hf. induction l as [|x l IH]; simpl; [reflexivity|].
  now rewrite length_app, Hf, IH.
Qed.

Section Hybrid.
Context `{SM : ScalarModel} `{DM : !nns.DeviceModel}.

(** A table that lists every point once finds the neighbours the whole
    dataset has. *)
Lemma neighbours_count scalar_t radius points table_index q :
  Permutation table_index (seqZ 0 (Z.of_nat (length points))) ->
  Z.of_nat (length (nns.neighbours scalar_t radius points table_index q))
  = nns.true_count scalar_t radius points q.
Proof.
  intros Hperm. unfold nns.neighbours, nns.true_count. f_equal.
  rewrite (filter_length_perm _ _ _ Hperm).
  apply (filter_positions (nns.in_radius scalar_t radius q) points []).
Qed.

Lemma hybrid_row_spec scalar_t radius max_knn points table_index q :
  0 <= max_knn ->
  let row := nns.hybrid_row scalar_t radius max_knn points table_index q in
  length (fst (fst row)) = Z.to_nat max_knn /\
  length (snd (fst row)) = Z.to_nat max_knn /\
  snd row = Z.min max_knn
              (Z.of_nat (length (nns.neighbours scalar_t radius points
                                   table_index q))).
Proof.
  intros Hk. unfold nns.hybrid_row. cbn [fst snd].
  set (found := nns.neighbours scalar_t radius points table_index q).
  unfold nns.distances_of.
  rewrite !length_app, !length_replicate, length_map, !length_take.
  repeat split; lia.
Qed.
End Hybrid.

Section Hybrid_search.
Context `{SM : ScalarModel} `{DM : !nns.DeviceModel}.

Lemma Qle_bool_pos (r : Q) : (0 < r)%Q -> Qle_bool r 0 = false.
Proof.
  intros H. destruct (Qle_bool r 0) eqn:E; [|reflexivity].
  apply Qle_bool_iff in E. exfalso. apply (Qlt_not_le _ _ H E).
Qed.

(** C7: on a built index, for a query set of [m] points that matches
    the dataset, a positive radius and [max_knn = k >= 0], [SearchHybrid]
    returns index and distance arrays of shape [(m, k)] -- [k] slots per
    query, never more -- and a count vector of length [m]; the count of
    query [i] is at most [k] and is the number of dataset points within
    the radius of the query, capped at [k]. *)
Theorem SearchHybrid_counts
    (cfg : BuildConfig) (dataset_points : Tensor) (radius0 : Q)
    (w0 w1 w : nns.World) (b : bool)
    (query_points : Tensor) (radius : Q) (max_knn m : Z) :
  nns.SetTensorData cfg dataset_points radius0 w0 = (Ok b, w1) ->
  nns.this w = nns.this w1 ->
  shape_ query_points = [m; nns.GetDimension (nns.this w)] ->
  0 <= m ->
  dtype_ query_points = nns.GetDtype (nns.this w) ->
  device_ query_points = nns.GetDevice (nns.this w) ->
  (0 < radius)%Q ->
  0 <= max_knn ->
  exists index distance counts w',
    nns.SearchHybrid cfg query_points radius max_knn w
      = (Ok (index, distance, counts), w') /\
    nns.arr_shape index = [m; max_knn] /\
    nns.arr_shape distance = [m; max_knn] /\
    nns.arr_shape counts = [m] /\
    Z.of_nat (length (nns.arr_data index)) = m * max_knn /\
    Z.of_nat (length (nns.arr_data distance)) = m * max_knn /\
    Z.of_nat (length (nns.arr_data counts)) = m /\
    forall (i : nat) (q : list Scalar),
      nns.rows (nns.Contiguous query_points) !! i = Some q ->
      exists c,
        nns.arr_data counts !! i = Some c /\
        0 <= c <= max_knn /\
        c = Z.min max_knn
              (nns.true_count (nns.GetDtype (nns.this w)) radius
                 (nns.rows (nns.dataset_points_ (nns.this w))) q).
Proof.
  intros Hset Hw Hshape Hm Hdtype Hdevice Hr Hk.
  pose proof (SetTensorData_Ok_inv _ _ _ _ _ _ Hset) as (Hb & _ & _ & Hf).
  apply SetTensorData_Ok in Hset as (_ & Ho & _).
  rewrite <- Hw in Ho. clear Hw w0 w1 b.
  assert (Hfloat : Dtype.is_float (nns.GetDtype (nns.this w)) = true).
  { rewrite Ho. unfold nns.GetDtype, nns.index_after_SetTensorData. simpl.
    now rewrite Contiguous_dtype. }
  unfold nns.SearchHybrid. rewrite Hb.
  unfold bind at 1, nns.self at 1, bind at 1. cbn [get ret fst snd].
  unfold nns.AssertDtype, nns.AssertShapeCompatible, nns.AssertDevice.
  rewrite (proj2 (Dtype_eqb_eq _ _) Hdtype).
  rewrite (proj2 (Device_eqb_eq _ _) Hdevice).
  rewrite Hshape. cbn [nns.shape_compatible]. rewrite Z.eqb_refl.
  rewrite (Qle_bool_pos _ Hr).
  unfold DISPATCH_FLOAT_DTYPE_TO_TEMPLATE. rewrite Hfloat.
  cbn [andb]. unfold nns.HybridSearchCUDA, nns.log, modify.
  unfold bind, ret.
  cbn [fst snd nns.NeighborsIndex nns.NeighborsDistance nns.NeighborCounts
       nns.indices_ nns.distances_ nns.counts_].
  rewrite Contiguous_shape, Hshape.
  cbn [lookup list_lookup default from_option id].
  unfold nns.Array_View. cbn [nns.arr_data nns.arr_shape].
  set (o := nns.this w) in *.
  set (queries := nns.rows (nns.Contiguous query_points)).
  set (points := nns.rows (nns.dataset_points_ o)).
  set (table := nns.arr_data (nns.hash_table_index_ o)).
  set (row := nns.hybrid_row (nns.GetDtype o) radius max_knn points table).
  assert (Hq : length queries = Z.to_nat m).
  { unfold queries. rewrite rows_length, Contiguous_shape, Hshape.
    reflexivity. }
  assert (Hlen1 : length (flat_map (fun r => fst (fst r)) (map row queries))
                  = (length queries * Z.to_nat max_knn)%nat).
  { apply flat_map_length_const. intros q.
    apply (hybrid_row_spec _ radius max_knn points table q Hk). }
  assert (Hlen2 : length (flat_map (fun r => snd (fst r)) (map row queries))
                  = (length queries * Z.to_nat max_knn)%nat).
  { apply flat_map_length_const. intros q.
    apply (hybrid_row_spec _ radius max_knn points table q Hk). }
  assert (Hlen3 : length (map snd (map row queries)) = length queries)
    by now rewrite !length_map.
  assert (Hperm : Permutation table (seqZ 0 (Z.of_nat (length points)))).
  { unfold table, points. rewrite Ho.
    unfold nns.index_after_SetTensorData.
    cbn [nns.hash_table_index_ nns.arr_data nns.dataset_points_].
    rewrite <- (cells_of_length (dtype_ (nns.Contiguous dataset_points))
                  radius0
                  (nns.hash_table_size_of
                     (default 0 (shape_ (nns.Contiguous dataset_points)
                                 !! 0%nat)) + 1 - 1)
                  (nns.rows (nns.Contiguous dataset_points))).
    apply index_of_perm, cells_of_range.
    unfold nns.hash_table_size_of, nns.max_hash_tabls_size. lia. }
  rewrite Hlen1, Hlen2, Hlen3, Hq.
  cbn [shape_util.NumElements fold_right].
  replace (m * (max_knn * 1) =? Z.of_nat (Z.to_nat m * Z.to_nat max_knn))
    with true by (symmetry; apply Z.eqb_eq; lia).
  replace (m * 1 =? Z.of_nat (Z.to_nat m))
    with true by (symmetry; apply Z.eqb_eq; lia).
  do 4 eexists. split; [reflexivity|].
  cbn [nns.arr_shape nns.arr_data].
  rewrite Hlen1, Hlen2, Hlen3, Hq.
  repeat split; try lia.
  intros i q Hi.
  exists (snd (row q)).
  split.
  { rewrite !list_lookup_fmap. fold queries in Hi. rewrite Hi. reflexivity. }
  destruct (hybrid_row_spec (nns.GetDtype o) radius max_knn points table q Hk)
    as (_ & _ & Hc).
  fold row in Hc. rewrite Hc.
  rewrite (neighbours_count _ _ _ _ _ Hperm).
  unfold nns.true_count. split; [lia|reflexivity].
Qed.
End Hybrid_search.

(** The theorem at work: two queries on the index over four points, at
    most three neighbours each. *)
Lemma SearchHybrid_counts_witness :
  exists index distance counts w',
    nns.SearchHybrid (DM := IntegerCells.device) IntegerCells.cuda_on
      IntegerCells.queries 2 3 IntegerCells.built_world
      = (Ok (index, distance, counts), w') /\
    nns.arr_shape index = [2; 3] /\
    nns.arr_shape distance = [2; 3] /\
    nns.arr_shape counts = [2] /\
    Z.of_nat (length (nns.arr_data index)) = 2 * 3 /\
    Z.of_nat (length (nns.arr_data distance)) = 2 * 3 /\
    Z.of_nat (length (nns.arr_data counts)) = 2 /\
    forall (i : nat) (q : list Z),
      nns.rows (nns.Contiguous IntegerCells.queries) !! i = Some q ->
      exists c,
        nns.arr_data counts !! i = Some c /\
        0 <= c <= 3 /\
        c = Z.min 3
              (nns.true_count (DM := IntegerCells.device)
                 (nns.GetDtype (nns.this IntegerCells.built_world)) 2
                 (nns.rows
                    (nns.dataset_points_ (nns.this IntegerCells.built_world)))
                 q).
Proof.
  apply (SearchHybrid_counts (DM := IntegerCells.device)
           IntegerCells.cuda_on IntegerCells.dataset 1%Q
           nns.World_new IntegerCells.built_world IntegerCells.built_world
           true IntegerCells.queries 2%Q 3 2).
  - reflexivity.
  - reflexivity.
  - reflexivity.
  - lia.
  - reflexivity.
  - reflexivity.
  - reflexivity.
  - lia.
Defined.

(** ** Row-major offsets *)

Lemma NumElements_nonneg (shape : list Z) :
  Forall (fun d => 0 <= d) shape -> 0 <= shape_util.NumElements shape.
Proof.
  induction 1 as [|d shape Hd _ IH]; simpl; [lia|].
  apply Z.mul_nonneg_nonneg; assumption.
Qed.

Lemma DefaultStrides_length (shape : list Z) :
  length (shape_util.DefaultStrides shape) = length shape.
Proof. induction shape; simpl; congruence. Qed.

(** In the canonical layout the workload [i] is the element [i]. *)
Lemma offset_of_contiguous (shape : list Z) (i : Z) :
  Forall (fun d => 0 <= d) shape ->
  0 <= i < shape_util.NumElements shape ->
  shape_util.offset_of shape (shape_util.DefaultStrides shape) i = i.
Proof.
  intros Hshape. revert i.
  induction Hshape as [|d shape Hd Hrest IH]; intros i Hi; simpl in *.
  - lia.
  - pose proof (NumElements_nonneg shape Hrest) as Hinner.
    set (inner := shape_util.NumElements shape) in *.
    assert (0 < inner) by nia.
    assert (0 <= i / inner < d).
    { split; [apply Z.div_pos; lia|].
      apply Z.div_lt_upper_bound; lia. }
    rewrite Z.mod_small by lia.
    rewrite IH by (apply Z.mod_pos_bound; lia).
    pose proof (Z.div_mod i inner). lia.
Qed.

(** An operand of one element is read at its first cell by every
    workload. *)
Lemma offset_of_broadcast_ones (dst_shape shape strides : list Z) (i : Z) :
  Forall (fun d => d = 1) shape ->
  shape_util.offset_of dst_shape
    (broadcast_strides shape strides dst_shape) i = 0.
Proof.
  revert shape strides i.
  induction dst_shape as [|d dst_shape IH]; intros shape strides i Hones.
  - destruct shape, strides; reflexivity.
  - destruct shape as [|s shape]; [reflexivity|].
    destruct strides as [|st strides]; [reflexivity|].
    apply Forall_cons in Hones as [-> Hones].
    cbn [broadcast_strides shape_util.offset_of].
    rewrite (IH shape strides _ Hones).
    rewrite Z.eqb_refl. cbn [andb].
    destruct (Z.eqb_spec d 1) as [->|Hd]; cbn [negb].
    + rewrite Z.mod_1_r. lia.
    + lia.
Qed.

Lemma ones_of_NumElements (shape : list Z) :
  Forall (fun d => 0 <= d) shape ->
  shape_util.NumElements shape = 1 ->
  Forall (fun d => d = 1) shape.
Proof.
  induction 1 as [|d shape Hd Hrest IH]; simpl; intros Hn; constructor.
  - now apply Z.eq_mul_1_nonneg in Hn.
  - apply IH. now apply Z.eq_mul_1_nonneg in Hn.
Qed.

Lemma broadcast_strides_same (shape strides : list Z) :
  length strides = length shape ->
  broadcast_strides shape strides shape = strides.
Proof.
  revert strides. induction shape as [|s shape IH]; intros [|st strides] Hl;
    try discriminate; [reflexivity|].
  simpl in *. rewrite IH by congruence.
  destruct (Z.eqb_spec s 1); simpl; reflexivity.
Qed.

(** ** Loops that write one cell per iteration *)

Lemma ParallelFor_ext {S} (n g1 g2 : Z) (f1 f2 : Z -> S -> S) (s : S) :
  (forall i s', 0 <= i < n -> f1 i s' = f2 i s') ->
  cpu_launcher.ParallelFor n g1 f1 s = cpu_launcher.ParallelFor n g2 f2 s.
Proof.
  intros Hf. unfold cpu_launcher.ParallelFor.
  assert (Hall : forall k, In k (seq 0 (Z.to_nat n)) ->
                           0 <= Z.of_nat k < n).
  { intros k Hk. apply in_seq in Hk. lia. }
  revert s Hall. generalize (seq 0 (Z.to_nat n)) as l.
  induction l as [|k l IH]; intros s Hall; simpl; [reflexivity|].
  rewrite Hf by (apply Hall; now left).
  apply IH. intros k' Hk'. apply Hall. now right.
Qed.

Lemma read_write_eq {A} (blob : list A) (p : Z) (v : A) :
  0 <= p < Z.of_nat (length blob) -> read (write p v blob) p = Some v.
Proof.
  intros Hp. unfold read, write.
  destruct (Z.leb_spec 0 p); [|lia].
  apply list_lookup_insert_eq. lia.
Qed.

Lemma read_write_ne {A} (blob : list A) (p q : Z) (v : A) :
  p <> q -> read (write p v blob) q = read blob q.
Proof.
  intros Hpq. unfold read, write.
  destruct (Z.leb_spec 0 p), (Z.leb_spec 0 q); try reflexivity.
  apply list_lookup_insert_ne. lia.
Qed.

Lemma write_length {A} (blob : list A) (p : Z) (v : A) :
  length (write p v blob) = length blob.
Proof. unfold write. destruct (0 <=? p); [apply length_insert|reflexivity]. Qed.

Lemma range_true (p q e : Z) :
  p <= q < e -> (p <=? q) && (q <? e) = true.
Proof.
  intros H. apply andb_true_iff. split; [apply Z.leb_le|apply Z.ltb_lt]; lia.
Qed.

Lemma range_false (p q e : Z) :
  ~ (p <= q < e) -> (p <=? q) && (q <? e) = false.
Proof.
  intros H. destruct (Z.leb_spec p q), (Z.ltb_spec q e); simpl;
    try reflexivity; lia.
Qed.

Lemma store_loop_spec {A} (k : nat) (p : Z) (g : Z -> option A)
    (blob : list A) :
  0 <= p ->
  p + Z.of_nat k <= Z.of_nat (length blob) ->
  let blob' := store_loop (Z.of_nat k) p g blob in
  length blob' = length blob /\
  forall q,
    read blob' q =
      if (p <=? q) && (q <? p + Z.of_nat k)
      then match g (q - p) with
           | Some v => Some v
           | None => read blob q
           end
      else read blob q.
Proof.
  intros Hp. unfold store_loop, cpu_launcher.ParallelFor.
  rewrite Nat2Z.id.
  induction k as [|k IH]; intros Hk.
  - simpl. split; [reflexivity|]. intros q.
    rewrite range_false by lia. reflexivity.
  - rewrite seq_S, fold_left_app. cbn [fold_left Nat.add].
    destruct IH as [Hlen Hread]; [lia|].
    set (prev := fold_left _ (seq 0 k) blob) in *.
    split.
    + destruct (g (Z.of_nat k)); [rewrite write_length|]; exact Hlen.
    + intros q. specialize (Hread q).
      destruct (Z.eq_dec q (p + Z.of_nat k)) as [->|Hq].
      * rewrite range_true by lia.
        rewrite range_false in Hread by lia.
        replace (p + Z.of_nat k - p) with (Z.of_nat k) by lia.
        destruct (g (Z.of_nat k)); [|exact Hread].
        apply read_write_eq. lia.
      * assert (Hsame : (p <=? q) && (q <? p + Z.of_nat (S k))
                        = (p <=? q) && (q <? p + Z.of_nat k)).
        { destruct (Z_lt_le_dec q p);
            [rewrite !range_false by lia; reflexivity|].
          destruct (Z_lt_le_dec q (p + Z.of_nat k));
            [rewrite !range_true by lia; reflexivity|].
          rewrite !range_false by lia; reflexivity. }
        rewrite Hsame.
        destruct (g (Z.of_nat k)); [|exact Hread].
        rewrite read_write_ne by lia. exact Hread.
Qed.

(** ** The copy kernel (C1, C8) *)

Lemma aligned_ok_refl (shape : list Z) :
  shape_util.aligned_ok shape shape = true.
Proof.
  induction shape as [|s shape IH]; simpl; [reflexivity|].
  rewrite Z.eqb_refl, orb_true_r. exact IH.
Qed.

Lemma CanBeBrocastedToShape_refl (shape : list Z) :
  shape_util.CanBeBrocastedToShape shape shape = true.
Proof.
  unfold shape_util.CanBeBrocastedToShape.
  rewrite Nat.leb_refl, Nat.sub_diag. simpl. apply aligned_ok_refl.
Qed.

Section Copy.
Context `{SM : ScalarModel}.

(** The indexer of a copy, once the shapes are known to broadcast. *)
Lemma Indexer_new_copy (src dst : Tensor) (blob : kernel.Blob) :
  shape_util.CanBeBrocastedToShape (GetShape src) (GetShape dst) = true ->
  Indexer_new [src] dst DtypePolicy.NONE blob
  = (Ok {| inputs_ := [BroadcastRestride src (GetShape dst)];
           output_ptr_ := GetDataPtr dst;
           output_strides_ := strides_ dst;
           master_shape_ := GetShape dst |}, blob).
Proof.
  intros Hb. unfold Indexer_new. cbn [check_dtype_policy negb forallb].
  rewrite Hb. reflexivity.
Qed.

(** Element-wise copy of a contiguous tensor into a contiguous tensor of
    the same shape: iteration [i] moves cell [i] to cell [i]. *)
Lemma launch_same_shape (src dst : Tensor) (f : Scalar -> Scalar)
    (blob : kernel.Blob) :
  IsContiguous src = true ->
  IsContiguous dst = true ->
  GetShape src = GetShape dst ->
  Forall (fun d => 0 <= d) (GetShape dst) ->
  kernel.LaunchUnaryEWKernel
    {| inputs_ := [BroadcastRestride src (GetShape dst)];
       output_ptr_ := GetDataPtr dst;
       output_strides_ := strides_ dst;
       master_shape_ := GetShape dst |}
    (kernel.store1 f) blob
  = (Ok tt,
     store_loop (NumElements dst) (GetDataPtr dst)
       (fun i => f <$> read (blob_ src) (GetDataPtr src + i)) blob).
Proof.
  intros Hcs Hcd Hshape Hnn.
  unfold IsContiguous in Hcs, Hcd.
  apply bool_decide_eq_true in Hcs. apply bool_decide_eq_true in Hcd.
  unfold kernel.LaunchUnaryEWKernel, modify, store_loop, NumWorkloads.
  cbn [master_shape_]. f_equal.
  apply ParallelFor_ext. intros i b Hi.
  unfold GetInputPtr, GetOutputPtr, BroadcastRestride, kernel.store1, deref.
  cbn [inputs_ lookup list_lookup ref_blob ref_ptr ref_strides ptr_blob
       ptr_off output_ptr_ output_strides_ master_shape_].
  unfold GetShape in *. rewrite Hshape, Nat.sub_diag. cbn [replicate app].
  rewrite Hcs, Hcd, Hshape.
  rewrite broadcast_strides_same by apply DefaultStrides_length.
  rewrite offset_of_contiguous by assumption.
  unfold GetDataPtr.
  destruct (read (blob_ src) (data_ptr_ src + i)); reflexivity.
Qed.

(** Copy of a tensor of one element into a contiguous tensor: every
    iteration reads the one cell. *)
Lemma launch_one_element (src dst : Tensor) (f : Scalar -> Scalar)
    (blob : kernel.Blob) :
  NumElements src = 1 ->
  Forall (fun d => 0 <= d) (GetShape src) ->
  IsContiguous dst = true ->
  Forall (fun d => 0 <= d) (GetShape dst) ->
  kernel.LaunchUnaryEWKernel
    {| inputs_ := [BroadcastRestride src (GetShape dst)];
       output_ptr_ := GetDataPtr dst;
       output_strides_ := strides_ dst;
       master_shape_ := GetShape dst |}
    (kernel.store1 f) blob
  = (Ok tt,
     store_loop (NumElements dst) (GetDataPtr dst)
       (fun _ => f <$> read (blob_ src) (GetDataPtr src)) blob).
Proof.
  intros Hone Hns Hcd Hnn.
  unfold IsContiguous in Hcd. apply bool_decide_eq_true in Hcd.
  unfold kernel.LaunchUnaryEWKernel, modify, store_loop, NumWorkloads.
  cbn [master_shape_]. f_equal.
  apply ParallelFor_ext. intros i b Hi.
  unfold GetInputPtr, GetOutputPtr, BroadcastRestride, kernel.store1, deref.
  cbn [inputs_ lookup list_lookup ref_blob ref_ptr ref_strides ptr_blob
       ptr_off output_ptr_ output_strides_ master_shape_].
  rewrite offset_of_broadcast_ones.
  2:{ apply Forall_app. split; [apply Forall_replicate; reflexivity|].
      now apply ones_of_NumElements. }
  unfold GetShape in *. rewrite Hcd.
  rewrite offset_of_contiguous by assumption.
  unfold GetDataPtr. rewrite Z.add_0_r.
  destruct (read (blob_ src) (data_ptr_ src)); reflexivity.
Qed.
End Copy.

Lemma offset_of_zero (shape strides : list Z) :
  shape_util.offset_of shape strides 0 = 0.
Proof.
  revert strides. induction shape as [|s shape IH]; intros [|st strides];
    simpl; try reflexivity.
  now rewrite Zdiv_0_l, !Zmod_0_l, IH.
Qed.

Lemma DISPATCH_WITH_BOOL_scalar {S A} (d : Dtype.t)
    (body : Dtype.t -> M S A) :
  Dtype.is_scalar d = true ->
  DISPATCH_DTYPE_TO_TEMPLATE_WITH_BOOL d body = body d.
Proof.
  unfold Dtype.is_scalar, DISPATCH_DTYPE_TO_TEMPLATE_WITH_BOOL,
    DISPATCH_DTYPE_TO_TEMPLATE.
  destruct (Dtype.eqb d Dtype.Bool) eqn:E.
  - apply Dtype_eqb_eq in E. now subst.
  - simpl. now intros ->.
Qed.

Lemma DISPATCH_WITH_BOOL_not_scalar {S A} (d : Dtype.t)
    (body : Dtype.t -> M S A) (s : S) :
  Dtype.is_scalar d = false ->
  DISPATCH_DTYPE_TO_TEMPLATE_WITH_BOOL d body s
  = (Err "Unsupported data type.", s).
Proof.
  unfold Dtype.is_scalar, DISPATCH_DTYPE_TO_TEMPLATE_WITH_BOOL,
    DISPATCH_DTYPE_TO_TEMPLATE.
  destruct (Dtype.eqb d Dtype.Bool); [discriminate|].
  simpl. now intros ->.
Qed.

Lemma scalar_not_object (d : Dtype.t) :
  Dtype.is_scalar d = true -> Dtype.IsObject d = false.
Proof. now destruct d. Qed.

Lemma scalar_ByteSize (d : Dtype.t) :
  Dtype.is_scalar d = true -> 0 < Dtype.ByteSize d.
Proof. destruct d; simpl; intros; try lia; discriminate. Qed.

Section Copy_paths.
Context `{SM : ScalarModel}.

(** The copy through the indexer, for two scalar dtypes. *)
Lemma CopyCPU_indexer_scalar (src dst : Tensor) (blob : kernel.Blob) :
  shape_util.CanBeBrocastedToShape (GetShape src) (GetShape dst) = true ->
  Dtype.is_scalar (GetDtype src) = true ->
  Dtype.is_scalar (GetDtype dst) = true ->
  kernel.CopyCPU_indexer src dst blob
  = kernel.LaunchUnaryEWKernel
      {| inputs_ := [BroadcastRestride src (GetShape dst)];
         output_ptr_ := GetDataPtr dst;
         output_strides_ := strides_ dst;
         master_shape_ := GetShape dst |}
      (kernel.store1 (static_cast (GetDtype src) (GetDtype dst))) blob.
Proof.
  intros Hb Hs Hd. unfold kernel.CopyCPU_indexer, bind.
  rewrite (Indexer_new_copy src dst blob Hb).
  rewrite (scalar_not_object _ Hs).
  rewrite (DISPATCH_WITH_BOOL_scalar _ _ Hs).
  rewrite (DISPATCH_WITH_BOOL_scalar _ _ Hd).
  reflexivity.
Qed.

(** The copy through the indexer fails, without a write, when the source
    is not an object and one of the dtypes is not a scalar type. *)
Lemma CopyCPU_indexer_unsupported (src dst : Tensor) (blob : kernel.Blob) :
  shape_util.CanBeBrocastedToShape (GetShape src) (GetShape dst) = true ->
  Dtype.IsObject (GetDtype src) = false ->
  Dtype.is_scalar (GetDtype src) && Dtype.is_scalar (GetDtype dst) = false ->
  kernel.CopyCPU_indexer src dst blob
  = (Err "Unsupported data type.", blob).
Proof.
  intros Hb Ho Hs. unfold kernel.CopyCPU_indexer, bind.
  rewrite (Indexer_new_copy src dst blob Hb), Ho.
  destruct (Dtype.is_scalar (GetDtype src)) eqn:Es.
  - rewrite (DISPATCH_WITH_BOOL_scalar _ _ Es).
    now apply DISPATCH_WITH_BOOL_not_scalar.
  - now apply DISPATCH_WITH_BOOL_not_scalar.
Qed.

Lemma store_loop_one (p : Z) (v : Scalar) (blob : kernel.Blob) :
  store_loop 1 p (fun _ => Some v) blob = write (p + 0) v blob.
Proof. reflexivity. Qed.

(** [src.To(dst_dtype).Item<scalar_t>()] for a tensor of one element. *)
Lemma To_Item_one_element {S} (src : Tensor) (dtype : Dtype.t) (x : Scalar)
    (s : S) :
  NumElements src = 1 ->
  Forall (fun d => 0 <= d) (GetShape src) ->
  read (blob_ src) (GetDataPtr src) = Some x ->
  Dtype.IsObject (GetDtype src) = false ->
  Dtype.is_scalar dtype = true ->
  bind (kernel.To src dtype) kernel.Item s
  = if Dtype.is_scalar (GetDtype src)
    then (Ok (static_cast (GetDtype src) dtype x), s)
    else (Err "Unsupported data type.", s).
Proof.
  intros Hone Hnn Hx Hobj Hd. unfold kernel.To, static_cast.
  destruct (Dtype.eqb (GetDtype src) dtype) eqn:E.
  - apply Dtype_eqb_eq in E. rewrite E, Hd.
    unfold bind, ret, kernel.Item. rewrite Hone, Hx. reflexivity.
  - set (dst := Empty (GetShape src) dtype (GetDevice src)).
    assert (Hbc : shape_util.CanBeBrocastedToShape (GetShape src)
                    (GetShape dst) = true)
      by apply CanBeBrocastedToShape_refl.
    destruct (Dtype.is_scalar (GetDtype src)) eqn:Es.
    + rewrite (CopyCPU_indexer_scalar src dst (blob_ dst) Hbc Es Hd).
      rewrite (launch_one_element src dst _ (blob_ dst) Hone Hnn).
      2:{ unfold IsContiguous. now apply bool_decide_eq_true. }
      2:{ exact Hnn. }
      rewrite Hx. unfold static_cast. cbn [fmap option_fmap option_map].
      change (GetDtype dst) with dtype. rewrite E.
      unfold dst, Empty, NumElements, GetDataPtr, GetShape in *.
      cbn [shape_ blob_ data_ptr_]. rewrite Hone.
      change (Z.to_nat 1) with 1%nat. cbn [replicate].
      rewrite store_loop_one.
      unfold bind, ret, kernel.Item, with_blob, NumElements, GetDataPtr.
      cbn [shape_ blob_ data_ptr_]. rewrite Hone. reflexivity.
    + rewrite (CopyCPU_indexer_unsupported src dst (blob_ dst) Hbc Hobj)
        by (now rewrite Es).
      reflexivity.
Qed.
End Copy_paths.

Lemma bind_assoc {S A B C} (m : M S A) (f : A -> M S B) (g : B -> M S C)
    (s : S) :
  bind (bind m f) g s = bind m (fun x => bind (f x) g) s.
Proof. unfold bind. destruct (m s) as [[a|e] s']; reflexivity. Qed.

Section Copy_claims.
Context `{SM : ScalarModel}.

(** The first cell of a tensor all of whose elements are in its blob. *)
Lemma in_bounds_first (t : Tensor) :
  0 < NumElements t ->
  in_bounds t ->
  exists x, read (blob_ t) (GetDataPtr t) = Some x /\ element t 0 = Some x.
Proof.
  intros Hn [_ Hb]. specialize (Hb 0 ltac:(lia)).
  unfold element. rewrite offset_of_zero, Z.add_0_r in *.
  unfold read, GetDataPtr. destruct (Z.leb_spec 0 (data_ptr_ t)); [|lia].
  destruct (lookup_lt_is_Some_2 (blob_ t) (Z.to_nat (data_ptr_ t)))
    as [x Hx]; [lia|].
  exists x. now rewrite Hx.
Qed.

(** C8: a tensor of one element copied into a contiguous tensor of more
    than one element takes the second branch of [CopyCPU], the scalar
    fill; the result -- the blob, or the error -- is the one the copy
    through the indexer gives, and for scalar dtypes it is the blob with
    the cast value in every slot of the output. *)
Theorem CopyCPU_scalar_fill (src dst : Tensor) (blob : kernel.Blob) :
  NumElements dst > 1 ->
  IsContiguous dst = true ->
  NumElements src = 1 ->
  Dtype.IsObject (GetDtype src) = false ->
  shape_util.CanBeBrocastedToShape (GetShape src) (GetShape dst) = true ->
  in_bounds src ->
  Forall (fun d => 0 <= d) (GetShape dst) ->
  kernel.CopyCPU src dst blob
  = DISPATCH_DTYPE_TO_TEMPLATE_WITH_BOOL (GetDtype dst) (fun scalar_t =>
      let* converted := kernel.To src (GetDtype dst) in
      let* scalar_element := kernel.Item converted in
      modify (cpu_launcher.ParallelFor
                (NumElements dst) cpu_launcher.SMALL_OP_GRAIN_SIZE
                (fun workload_idx =>
                   write (GetDataPtr dst + workload_idx) scalar_element)))
      blob /\
  kernel.CopyCPU src dst blob = kernel.CopyCPU_indexer src dst blob /\
  (Dtype.is_scalar (GetDtype src) = true ->
   Dtype.is_scalar (GetDtype dst) = true ->
   exists x,
     element src 0 = Some x /\
     kernel.CopyCPU src dst blob
     = (Ok tt,
        store_loop (NumElements dst) (GetDataPtr dst)
          (fun _ => Some (static_cast (GetDtype src) (GetDtype dst) x))
          blob)).
Proof.
  intros Hn Hcd Hone Hobj Hbc Hin Hnn.
  destruct (in_bounds_first src ltac:(lia) Hin) as (x & Hx & Hx0).
  pose proof (proj1 Hin) as Hns.
  assert (Hfast : kernel.CopyCPU src dst blob
    = DISPATCH_DTYPE_TO_TEMPLATE_WITH_BOOL (GetDtype dst) (fun scalar_t =>
        let* converted := kernel.To src (GetDtype dst) in
        let* scalar_element := kernel.Item converted in
        modify (cpu_launcher.ParallelFor
                  (NumElements dst) cpu_launcher.SMALL_OP_GRAIN_SIZE
                  (fun workload_idx =>
                     write (GetDataPtr dst + workload_idx) scalar_element)))
        blob).
  { unfold kernel.CopyCPU.
    replace (shape_util.shape_eqb (GetShape src) (GetShape dst)) with false.
    2:{ symmetry. apply bool_decide_eq_false. intros E.
        unfold NumElements, GetShape in *. rewrite E in Hone. lia. }
    rewrite andb_false_r. cbn [andb].
    rewrite Hcd, Hone, Hobj.
    replace (NumElements dst >? 1) with true
      by (symmetry; apply Z.gtb_gt; lia).
    reflexivity. }
  assert (Hslow : Dtype.is_scalar (GetDtype src) = true ->
                  Dtype.is_scalar (GetDtype dst) = true ->
                  kernel.CopyCPU_indexer src dst blob
                  = (Ok tt,
                     store_loop (NumElements dst) (GetDataPtr dst)
                       (fun _ => Some (static_cast (GetDtype src)
                                         (GetDtype dst) x))
                       blob)).
  { intros Hs Hd.
    rewrite (CopyCPU_indexer_scalar src dst blob Hbc Hs Hd).
    rewrite (launch_one_element src dst _ blob Hone Hns Hcd Hnn).
    now rewrite Hx. }
  assert (Heq : kernel.CopyCPU src dst blob
                = kernel.CopyCPU_indexer src dst blob).
  { rewrite Hfast.
    destruct (Dtype.is_scalar (GetDtype dst)) eqn:Hd.
    - rewrite (DISPATCH_WITH_BOOL_scalar _ _ Hd).
      rewrite <- bind_assoc. unfold bind at 1.
      rewrite (To_Item_one_element src (GetDtype dst) x _
                 Hone Hns Hx Hobj Hd).
      destruct (Dtype.is_scalar (GetDtype src)) eqn:Hs.
      + rewrite (Hslow eq_refl eq_refl). reflexivity.
      + rewrite (CopyCPU_indexer_unsupported src dst blob Hbc Hobj)
          by (now rewrite Hs).
        reflexivity.
    - rewrite (DISPATCH_WITH_BOOL_not_scalar _ _ blob Hd).
      rewrite (CopyCPU_indexer_unsupported src dst blob Hbc Hobj)
        by (rewrite Hd; apply andb_false_r).
      reflexivity. }
  split; [exact Hfast|]. split; [exact Heq|].
  intros Hs Hd. exists x. split; [exact Hx0|].
  rewrite Heq. now apply Hslow.
Qed.
End Copy_claims.

(** The theorem at work: an [Int32] scalar 300 copied into four [UInt8]
    cells fills them with 44. *)
Lemma CopyCPU_scalar_fill_witness :
  let src := IntegerCells.tensor [1] Dtype.Int32 IntegerCells.cpu0 [300] in
  let dst := IntegerCells.tensor [2; 2] Dtype.UInt8 IntegerCells.cpu0
               [7; 7; 7; 7] in
  kernel.CopyCPU src dst [7; 7; 7; 7]
    = kernel.CopyCPU_indexer src dst [7; 7; 7; 7] /\
  kernel.CopyCPU src dst [7; 7; 7; 7] = (Ok tt, [44; 44; 44; 44]).
Proof.
  intros src dst.
  destruct (CopyCPU_scalar_fill (SM := IntegerCells.scalars) src dst
              [7; 7; 7; 7]) as (_ & Heq & Hfill).
  - reflexivity.
  - reflexivity.
  - reflexivity.
  - reflexivity.
  - reflexivity.
  - split; [repeat constructor; lia|].
    intros i Hi. unfold NumElements, src in Hi. simpl in Hi.
    assert (i = 0) by lia. subst i. vm_compute.
    split; [discriminate|reflexivity].
  - repeat constructor; lia.
  - split; [exact Heq|].
    destruct (Hfill eq_refl eq_refl) as (x & Hx & Hres).
    injection Hx as <-. exact Hres.
Defined.

Section Copy_same_shape.
Context `{SM : ScalarModel}.

(** The elements of a contiguous tensor sit one after the other. *)
Lemma element_contiguous (t : Tensor) (i : Z) :
  IsContiguous t = true ->
  Forall (fun d => 0 <= d) (GetShape t) ->
  0 <= i < NumElements t ->
  element t i = read (blob_ t) (GetDataPtr t + i).
Proof.
  intros Hc Hnn Hi. unfold IsContiguous in Hc.
  apply bool_decide_eq_true in Hc. unfold element. rewrite Hc.
  now rewrite offset_of_contiguous.
Qed.

(** After a loop that stores [h] of cell [i] of the source in cell [i] of
    the output, element [i] of the output is [h] of element [i] of the
    source. *)
Lemma store_loop_elements (src dst : Tensor) (blob : kernel.Blob)
    (g : Z -> option Scalar) (h : Scalar -> Scalar) :
  IsContiguous src = true ->
  IsContiguous dst = true ->
  GetShape src = GetShape dst ->
  in_bounds src ->
  in_bounds (with_blob dst blob) ->
  (forall i, 0 <= i < NumElements dst ->
             g i = h <$> read (blob_ src) (GetDataPtr src + i)) ->
  forall i, 0 <= i < NumElements dst ->
    exists x,
      element src i = Some x /\
      element (with_blob dst
                 (store_loop (NumElements dst) (GetDataPtr dst) g blob)) i
      = Some (h x).
Proof.
  intros Hcs Hcd Hshape [Hns Hbs] [Hnd Hbd] Hg i Hi.
  assert (HN : NumElements src = NumElements dst)
    by (unfold NumElements, GetShape in *; now rewrite Hshape).
  rewrite (element_contiguous src i Hcs Hns) by lia.
  rewrite (element_contiguous
             (with_blob dst
                (store_loop (NumElements dst) (GetDataPtr dst) g blob))
             i Hcd Hnd Hi).
  specialize (Hg i Hi).
  unfold IsContiguous in Hcs, Hcd.
  apply bool_decide_eq_true in Hcs. apply bool_decide_eq_true in Hcd.
  unfold NumElements, GetDataPtr, GetShape in *.
  cbn [with_blob blob_ data_ptr_ shape_ strides_] in *.
  rewrite Hcs in Hbs. rewrite Hcd in Hbd. rewrite Hshape in *.
  set (N := shape_util.NumElements (shape_ dst)) in *.
  (* the source cell *)
  pose proof (Hbs i Hi) as Hsi.
  rewrite offset_of_contiguous in Hsi by assumption.
  assert (Hx : exists x, read (blob_ src) (data_ptr_ src + i) = Some x).
  { unfold read. destruct (Z.leb_spec 0 (data_ptr_ src + i)); [|lia].
    apply lookup_lt_is_Some_2. lia. }
  destruct Hx as [x Hx]. exists x. split; [exact Hx|].
  (* the bounds of the output *)
  pose proof (Hbd 0 ltac:(lia)) as Hd0.
  pose proof (Hbd (N - 1) ltac:(lia)) as Hd1.
  rewrite offset_of_contiguous in Hd0, Hd1 by (assumption || (fold N; lia)).
  destruct (store_loop_spec (Z.to_nat N) (data_ptr_ dst) g blob)
    as [_ Hread]; [lia|lia|].
  rewrite Z2Nat.id in Hread by lia.
  rewrite Hread, range_true by lia.
  replace (data_ptr_ dst + i - data_ptr_ dst) with i by lia.
  rewrite Hg, Hx. reflexivity.
Qed.

(** C1: for contiguous tensors of the same shape, [CopyCPU] on equal
    dtypes is one [Memcpy] of [ByteSize * NumElements] bytes; and for
    every pair of scalar dtypes it succeeds and leaves, in every element
    of the output, the cast of the element of the source to the dtype of
    the output. *)
Theorem CopyCPU_contiguous_same_shape (src dst : Tensor)
    (blob : kernel.Blob) :
  IsContiguous src = true ->
  IsContiguous dst = true ->
  GetShape src = GetShape dst ->
  (GetDtype src = GetDtype dst ->
   kernel.CopyCPU src dst blob
   = (Ok tt,
      MemoryManager.Memcpy (GetDataPtr dst) (blob_ src) (GetDataPtr src)
        (Dtype.ByteSize (GetDtype src)
           * shape_util.NumElements (GetShape src))
        (Dtype.ByteSize (GetDtype src)) blob)) /\
  (Dtype.is_scalar (GetDtype src) = true ->
   Dtype.is_scalar (GetDtype dst) = true ->
   in_bounds src ->
   in_bounds (with_blob dst blob) ->
   exists blob',
     kernel.CopyCPU src dst blob = (Ok tt, blob') /\
     forall i, 0 <= i < NumElements dst ->
       exists x,
         element src i = Some x /\
         element (with_blob dst blob') i
         = Some (static_cast (GetDtype src) (GetDtype dst) x)).
Proof.
  intros Hcs Hcd Hshape.
  assert (Hmem : GetDtype src = GetDtype dst ->
    kernel.CopyCPU src dst blob
    = (Ok tt,
       MemoryManager.Memcpy (GetDataPtr dst) (blob_ src) (GetDataPtr src)
         (Dtype.ByteSize (GetDtype src)
            * shape_util.NumElements (GetShape src))
         (Dtype.ByteSize (GetDtype src)) blob)).
  { intros Hd. unfold kernel.CopyCPU.
    rewrite Hcs, Hcd, (proj2 (Dtype_eqb_eq _ _) Hd).
    unfold shape_util.shape_eqb.
    rewrite (bool_decide_eq_true_2 _ Hshape). reflexivity. }
  split; [exact Hmem|].
  intros Hs Hd Hbs Hbd.
  assert (HN : NumElements src = NumElements dst)
    by (unfold NumElements, GetShape in *; now rewrite Hshape).
  destruct (Dtype.eqb (GetDtype src) (GetDtype dst)) eqn:E.
  - (* equal dtypes: the raw copy *)
    pose proof (proj1 (Dtype_eqb_eq _ _) E) as Heq.
    rewrite (Hmem Heq). eexists. split; [reflexivity|].
    unfold MemoryManager.Memcpy.
    rewrite Z.mul_comm, Z.div_mul
      by (pose proof (scalar_ByteSize _ Hs); lia).
    change (shape_util.NumElements (GetShape src)) with (NumElements src).
    rewrite HN. intros i Hi.
    destruct (store_loop_elements src dst blob
                (fun i => read (blob_ src) (GetDataPtr src + i))
                (fun x => x) Hcs Hcd Hshape Hbs Hbd) with (i := i)
      as (x & Hx & Hy); [|exact Hi|].
    { intros j _. now destruct (read _ _). }
    exists x. split; [exact Hx|].
    unfold static_cast. rewrite E. exact Hy.
  - (* different dtypes: the copy through the indexer *)
    assert (Hgen : kernel.CopyCPU src dst blob
                   = kernel.CopyCPU_indexer src dst blob).
    { unfold kernel.CopyCPU. rewrite E, andb_false_r.
      replace ((NumElements dst >? 1) && IsContiguous dst
               && (NumElements src =? 1)) with false; [reflexivity|].
      symmetry. rewrite HN.
      destruct (Z.gtb_spec (NumElements dst) 1); [|reflexivity].
      rewrite Hcd. cbn [andb]. apply Z.eqb_neq. lia. }
    rewrite Hgen.
    rewrite (CopyCPU_indexer_scalar src dst blob) by
      (try assumption; unfold GetShape in *; rewrite Hshape;
       apply CanBeBrocastedToShape_refl).
    rewrite (launch_same_shape src dst _ blob Hcs Hcd Hshape (proj1 Hbd)).
    eexists. split; [reflexivity|].
    intros i Hi.
    apply (store_loop_elements src dst blob _
             (static_cast (GetDtype src) (GetDtype dst))
             Hcs Hcd Hshape Hbs Hbd); [|exact Hi].
    reflexivity.
Qed.
End Copy_same_shape.

(** The theorem at work: three [Int32] cells copied into [UInt8] cells
    wrap around; copied into [Int32] cells they are moved as they are. *)
Lemma CopyCPU_contiguous_same_shape_witness :
  let src := IntegerCells.tensor [3] Dtype.Int32 IntegerCells.cpu0
               [300; -1; 5] in
  let dst8 := IntegerCells.tensor [3] Dtype.UInt8 IntegerCells.cpu0
                [0; 0; 0] in
  let dst32 := IntegerCells.tensor [3] Dtype.Int32 IntegerCells.cpu0
                 [0; 0; 0] in
  kernel.CopyCPU src dst32 [0; 0; 0]
    = (Ok tt,
       MemoryManager.Memcpy 0 [300; -1; 5] 0 (4 * 3) 4 [0; 0; 0]) /\
  exists blob',
    kernel.CopyCPU src dst8 [0; 0; 0] = (Ok tt, blob') /\
    forall i, 0 <= i < 3 ->
      exists x,
        element src i = Some x /\
        element (with_blob dst8 blob') i
        = Some (@static_cast IntegerCells.scalars
                  Dtype.Int32 Dtype.UInt8 x).
Proof.
  intros src dst8 dst32.
  assert (Hin : forall cells : list Z,
            length cells = 3%nat ->
            forall dt,
              in_bounds (IntegerCells.tensor [3] dt IntegerCells.cpu0 cells)).
  { intros cells Hlen dt. split; [repeat constructor; lia|].
    intros i Hi. unfold NumElements in Hi. simpl in Hi. simpl.
    rewrite Hlen, Z.div_1_r, Z.mod_small by lia. lia. }
  split.
  - apply (proj1 (CopyCPU_contiguous_same_shape
                    (SM := IntegerCells.scalars) src dst32 [0; 0; 0]
                    eq_refl eq_refl eq_refl)).
    reflexivity.
  - apply (proj2 (CopyCPU_contiguous_same_shape
                    (SM := IntegerCells.scalars) src dst8 [0; 0; 0]
                    eq_refl eq_refl eq_refl)).
    + reflexivity.
    + reflexivity.
    + now apply Hin.
    + now apply (Hin [0; 0; 0]).
Defined.

(** ** The logger *)

Lemma string_app_nil_r (s : string) : s +:+ "" = s.
Proof.
  induction s as [|c s IH]; [reflexivity|].
  change (String c (s +:+ "") = String c s). now rewrite IH.
Qed.

Section Logger_facts.
Context (platform : utility.Platform) {fmt_args : Type}
        (vformat : string -> fmt_args -> string).

(** One call: it returns, keeps the level unless it sets it, and prints
    one message exactly when its level passes. *)
Lemma run_call_step (c : utility.LoggerCall fmt_args) (w : utility.LogWorld) :
  exists w' new,
    utility.run_call platform vformat c w = (Ok tt, w') /\
    (utility.sets_level c = false ->
     utility.verbosity_level_ (utility.impl_ w')
     = utility.verbosity_level_ (utility.impl_ w)) /\
    utility.output w' = utility.output w ++ new /\
    length new
    = (if utility.passes (utility.verbosity_level_ (utility.impl_ w)) c
       then 1 else 0)%nat /\
    (utility.is_forced c = true ->
     Forall (fun o => exists msg,
               o = utility.Called utility.console_print_fcn_ msg) new).
Proof.
  destruct w as [[f v] out].
  destruct c as [force fmt a|force fmt a|force fmt a|g| |l];
    unfold utility.run_call, utility.VWarning, utility.VInfo, utility.VDebug,
      utility.SetPrintFunction, utility.ResetPrintFunction,
      utility.SetVerbosityLevel, utility.impl, utility.call, utility.passes,
      bind, get, ret, modify; cbn;
    try (destruct (utility.VerbosityLevel_geb v _); [destruct force|]);
    cbn; eexists; eexists;
    (split; [reflexivity|]); (split; [reflexivity || discriminate|]);
    (split; [try reflexivity; symmetry; apply app_nil_r|]);
    (split; [reflexivity|]);
    intros; try discriminate; repeat constructor; eexists; reflexivity.
Qed.

Lemma run_cons c cs (w : utility.LogWorld) :
  utility.run platform vformat (c :: cs) w
  = match utility.run_call platform vformat c w with
    | (Ok _, w') => utility.run platform vformat cs w'
    | (Err e, w') => (Err e, w')
    end.
Proof. reflexivity. Qed.

(** A program that does not set the level: it returns, and prints one
    message for each call that passes the level, in the order of the
    calls. *)
Lemma run_filter (cs : list (utility.LoggerCall fmt_args))
    (w : utility.LogWorld) :
  forallb (fun c => negb (utility.sets_level c)) cs = true ->
  exists w' new,
    utility.run platform vformat cs w = (Ok tt, w') /\
    utility.verbosity_level_ (utility.impl_ w')
    = utility.verbosity_level_ (utility.impl_ w) /\
    utility.output w' = utility.output w ++ new /\
    length new
    = length (List.filter
                (utility.passes (utility.verbosity_level_ (utility.impl_ w)))
                cs).
Proof.
  revert w. induction cs as [|c cs IH]; intros w Hcs.
  - exists w, []. cbn. rewrite app_nil_r. auto.
  - cbn [forallb] in Hcs. apply andb_true_iff in Hcs as [Hc Hcs].
    apply negb_true_iff in Hc.
    destruct (run_call_step c w) as (w1 & new1 & Hrun & Hlev & Hout & Hlen & _).
    destruct (IH w1 Hcs) as (w2 & new2 & Hrun2 & Hlev2 & Hout2 & Hlen2).
    exists w2, (new1 ++ new2). rewrite run_cons, Hrun.
    split; [exact Hrun2|]. split; [rewrite Hlev2; auto|].
    split; [rewrite Hout2, Hout; apply eq_sym, app_assoc|].
    rewrite length_app, Hlen, Hlen2, (Hlev Hc). cbn [List.filter].
    destruct (utility.passes _ c); reflexivity.
Qed.

Lemma run_forced (cs : list (utility.LoggerCall fmt_args))
    (w : utility.LogWorld) :
  forallb utility.is_forced cs = true ->
  exists w' new,
    utility.run platform vformat cs w = (Ok tt, w') /\
    utility.output w' = utility.output w ++ new /\
    Forall (fun o => exists msg,
              o = utility.Called utility.console_print_fcn_ msg) new.
Proof.
  revert w. induction cs as [|c cs IH]; intros w Hcs.
  - exists w, []. cbn. rewrite app_nil_r. auto.
  - cbn [forallb] in Hcs. apply andb_true_iff in Hcs as [Hc Hcs].
    destruct (run_call_step c w) as (w1 & new1 & Hrun & _ & Hout & _ & Hf).
    destruct (IH w1 Hcs) as (w2 & new2 & Hrun2 & Hout2 & Hf2).
    exists w2, (new1 ++ new2). rewrite run_cons, Hrun.
    split; [exact Hrun2|].
    split; [rewrite Hout2, Hout; apply eq_sym, app_assoc|].
    apply Forall_app. auto.
Qed.
End Logger_facts.

(** ** The console progress bar *)

Lemma size_t_of_small (z : Z) : 0 <= z < 2 ^ 64 -> utility.size_t_of z = z.
Proof. intros H. unfold utility.size_t_of. now apply Z.mod_small. Qed.

Lemma int_of_small (z : Z) : 0 <= z < 2 ^ 31 -> utility.int_of z = z.
Proof.
  intros H. unfold utility.int_of.
  rewrite Z.mod_small by lia.
  destruct (Z.leb_spec (2 ^ 31) z); [lia|reflexivity].
Qed.

Lemma format_done_not_progress :
  utility.format_done <> utility.format_progress.
Proof. discriminate. Qed.

(** What [SetCurrentCount] does, case by case. *)
Lemma SetCurrentCount_cases (n : Z) (w : utility.BarWorld) :
  let b := utility.bar w in
  let b' := {| utility.resolution_ := utility.resolution_ b;
               utility.expected_count_ := utility.expected_count_ b;
               utility.current_count_ := n;
               utility.progress_info_ := utility.progress_info_ b;
               utility.progress_pixel_ := utility.progress_pixel_ b;
               utility.active_ := utility.active_ b |} in
  0 <= n ->
  0 <= utility.expected_count_ b ->
  exists w',
    utility.SetCurrentCount n w = (Ok tt, w') /\
    ((utility.active_ b = false /\
      w' = {| utility.bar := b'; utility.stdout := utility.stdout w |}) \/
     (utility.active_ b = true /\ utility.expected_count_ b <= n /\
      w' = {| utility.bar := b';
              utility.stdout := utility.stdout w ++
                [utility.fmt_print utility.format_done
                   [utility.Str (utility.progress_info_ b);
                    utility.Fill (utility.resolution_ b)
                                 (Ascii.ascii_of_nat 61)]] |}) \/
     (utility.active_ b = true /\ n < utility.expected_count_ b /\
      let pixel :=
        utility.size_t_of
          (utility.int_of
             (utility.size_t_of (n * utility.resolution_ b)
              / utility.expected_count_ b)) in
      (pixel <= utility.progress_pixel_ b /\
       w' = {| utility.bar := b'; utility.stdout := utility.stdout w |}) \/
      (utility.progress_pixel_ b < pixel /\
       w' = {| utility.bar :=
                 {| utility.resolution_ := utility.resolution_ b;
                    utility.expected_count_ := utility.expected_count_ b;
                    utility.current_count_ := n;
                    utility.progress_info_ := utility.progress_info_ b;
                    utility.progress_pixel_ := pixel;
                    utility.active_ := utility.active_ b |};
               utility.stdout := utility.stdout w ++
                 [utility.fmt_print utility.format_progress
                    [utility.Str (utility.progress_info_ b);
                     utility.Fill pixel (Ascii.ascii_of_nat 61);
                     utility.Fill
                       (utility.size_t_of
                          (utility.size_t_of (utility.resolution_ b - 1)
                           - pixel))
                       (Ascii.ascii_of_nat 32);
                     utility.Int
                       (utility.int_of
                          (utility.size_t_of (n * 100)
                           / utility.expected_count_ b))];
                  utility.fflush_stdout] |}))).
Proof.
  destruct w as [[res e c info p a] out]. cbn. intros Hn He.
  unfold utility.SetCurrentCount, utility.assign, utility.this, utility.emit,
    bind, get, ret, modify. cbn.
  destruct a; cbn; [|eexists; split; [reflexivity|left; auto]].
  destruct (Z.geb_spec n e) as [Hge|Hlt]; cbn.
  { eexists. split; [reflexivity|]. right; left. repeat split; auto; lia. }
  unfold utility.size_t_div, bind, lift, ret.
  destruct (Z.eqb_spec e 0) as [->|Hne]; [lia|]. cbn.
  destruct (Z.gtb_spec
              (utility.size_t_of
                 (utility.int_of (utility.size_t_of (n * res) / e))) p)
    as [Hgt|Hle]; cbn.
  - destruct (Z.eqb_spec e 0) as [->|_]; [lia|]. cbn.
    eexists. split; [reflexivity|]. right; right.
    split; [reflexivity|]. split; [lia|]. right.
    rewrite <- app_assoc. cbn. split; [lia|reflexivity].
  - eexists. split; [reflexivity|]. right; right.
    split; [reflexivity|]. split; [lia|]. left. split; [lia|reflexivity].
Qed.

(** The pixel and the percentage when nothing overflows. *)
Lemma pixel_in_range (n res e : Z) :
  0 <= n < e -> 0 < res < 2 ^ 31 -> e * res <= 2 ^ 64 ->
  utility.size_t_of (utility.int_of (utility.size_t_of (n * res) / e))
  = n * res / e /\
  0 <= n * res / e <= res - 1.
Proof.
  intros Hn Hres He.
  assert (Hprod : 0 <= n * res < e * res) by nia.
  assert (Hq : 0 <= n * res / e <= res - 1).
  { split; [apply Z.div_pos; lia|].
    apply Z.lt_le_pred. apply Z.div_lt_upper_bound; nia. }
  rewrite (size_t_of_small (n * res)) by lia.
  rewrite int_of_small by lia.
  rewrite size_t_of_small by lia. auto.
Qed.

Lemma percent_in_range (n e : Z) :
  0 <= n < e -> e * 100 <= 2 ^ 64 ->
  utility.int_of (utility.size_t_of (n * 100) / e) = n * 100 / e /\
  0 <= n * 100 / e < 100.
Proof.
  intros Hn He.
  assert (Hq : 0 <= n * 100 / e < 100).
  { split; [apply Z.div_pos; lia|].
    apply Z.div_lt_upper_bound; nia. }
  rewrite (size_t_of_small (n * 100)) by nia.
  rewrite int_of_small by lia. auto.
Qed.

Lemma is_progress_line_done args :
  utility.is_progress_line (utility.fmt_print utility.format_done args)
  = false.
Proof. reflexivity. Qed.

Lemma is_progress_line_progress args :
  utility.is_progress_line (utility.fmt_print utility.format_progress args)
  = true.
Proof. reflexivity. Qed.

Lemma run_bar_cons c cs (w : utility.BarWorld) :
  utility.run_bar (c :: cs) w
  = match utility.run_bar_call c w with
    | (Ok _, w') => utility.run_bar cs w'
    | (Err e, w') => (Err e, w')
    end.
Proof. reflexivity. Qed.

Lemma SetCurrentCount_step (n : Z) (w : utility.BarWorld) :
  utility.bar_fits (utility.bar w) ->
  0 <= n ->
  exists w' new,
    utility.SetCurrentCount n w = (Ok tt, w') /\
    utility.same_bar (utility.bar w) (utility.bar w') /\
    utility.current_count_ (utility.bar w') = n /\
    utility.progress_pixel_ (utility.bar w)
      <= utility.progress_pixel_ (utility.bar w')
      <= utility.resolution_ (utility.bar w) - 1 /\
    utility.stdout w' = utility.stdout w ++ new /\
    Forall (utility.well_drawn (utility.resolution_ (utility.bar w))) new /\
    Z.of_nat (length (List.filter utility.is_progress_line new))
    <= utility.progress_pixel_ (utility.bar w')
       - utility.progress_pixel_ (utility.bar w).
Proof.
  intros (Hres & He & Hfit & Hpix) Hn.
  destruct (SetCurrentCount_cases n w Hn He) as (w' & Hrun & Hcase).
  exists w'.
  destruct Hcase as [[Ha ->]|[(Ha & Hge & ->)|(Ha & Hlt & Hcase)]].
  - exists []. cbn. rewrite app_nil_r.
    split; [exact Hrun|]. split; [unfold utility.same_bar; cbn; auto|].
    split; [reflexivity|]. split; [lia|]. split; [reflexivity|].
    split; [constructor|lia].
  - eexists. cbn.
    split; [exact Hrun|]. split; [unfold utility.same_bar; cbn; auto|].
    split; [reflexivity|]. split; [lia|]. split; [reflexivity|].
    split.
    + constructor; [|constructor]. cbn. intros Hf.
      now destruct format_done_not_progress.
    + cbn [List.filter]. rewrite is_progress_line_done. cbn. lia.
  - cbv zeta in Hcase.
    destruct (pixel_in_range n (utility.resolution_ (utility.bar w))
                (utility.expected_count_ (utility.bar w)))
      as [Hpx Hrange]; [lia|lia|nia|].
    destruct (percent_in_range n (utility.expected_count_ (utility.bar w)))
      as [Hpc Hprange]; [lia|nia|].
    rewrite Hpx, Hpc in Hcase.
    destruct Hcase as [[Hle ->]|[Hgt ->]].
    + exists []. cbn. rewrite app_nil_r.
      split; [exact Hrun|]. split; [unfold utility.same_bar; cbn; auto|].
      split; [reflexivity|]. split; [lia|]. split; [reflexivity|].
      split; [constructor|lia].
    + eexists. cbn.
      split; [exact Hrun|]. split; [unfold utility.same_bar; cbn; auto|].
      split; [reflexivity|]. split; [lia|]. split; [reflexivity|].
      split.
      * constructor; [|repeat constructor]. cbn. intros _.
        eexists _, _, _, _. split; [reflexivity|].
        rewrite (size_t_of_small (utility.resolution_ (utility.bar w) - 1))
          by lia.
        rewrite size_t_of_small by lia. lia.
      * cbn [List.filter]. rewrite is_progress_line_progress. cbn. lia.
Qed.

Lemma run_bar_call_step (c : utility.BarCall) (w : utility.BarWorld) :
  utility.bar_fits (utility.bar w) ->
  utility.BarCall_in_range c ->
  exists w' new,
    utility.run_bar_call c w = (Ok tt, w') /\
    utility.same_bar (utility.bar w) (utility.bar w') /\
    utility.progress_pixel_ (utility.bar w)
      <= utility.progress_pixel_ (utility.bar w')
      <= utility.resolution_ (utility.bar w) - 1 /\
    utility.stdout w' = utility.stdout w ++ new /\
    Forall (utility.well_drawn (utility.resolution_ (utility.bar w))) new /\
    Z.of_nat (length (List.filter utility.is_progress_line new))
    <= utility.progress_pixel_ (utility.bar w')
       - utility.progress_pixel_ (utility.bar w).
Proof.
  intros Hfit Hc. destruct c as [|n]; cbn in *.
  - unfold utility.increment, utility.this, bind, get, ret. cbn.
    destruct (SetCurrentCount_step
                (utility.size_t_of
                   (utility.current_count_ (utility.bar w) + 1)) w Hfit)
      as (w' & new & H1 & H2 & _ & H3); [|exists w', new; auto].
    unfold utility.size_t_of. apply Z.mod_pos_bound. lia.
  - destruct (SetCurrentCount_step n w Hfit) as (w' & new & H1 & H2 & _ & H3);
      [lia|exists w', new; auto].
Qed.

Lemma run_bar_steps (cs : list utility.BarCall) (w : utility.BarWorld) :
  utility.bar_fits (utility.bar w) ->
  Forall utility.BarCall_in_range cs ->
  exists w' new,
    utility.run_bar cs w = (Ok tt, w') /\
    utility.same_bar (utility.bar w) (utility.bar w') /\
    utility.progress_pixel_ (utility.bar w)
      <= utility.progress_pixel_ (utility.bar w')
      <= utility.resolution_ (utility.bar w) - 1 /\
    utility.stdout w' = utility.stdout w ++ new /\
    Forall (utility.well_drawn (utility.resolution_ (utility.bar w))) new /\
    Z.of_nat (length (List.filter utility.is_progress_line new))
    <= utility.progress_pixel_ (utility.bar w')
       - utility.progress_pixel_ (utility.bar w).
Proof.
  intros Hfit Hcs. revert w Hfit.
  induction Hcs as [|c cs Hc Hcs IH]; intros w Hfit.
  - exists w, []. cbn. rewrite app_nil_r.
    destruct Hfit as (? & ? & ? & ?). repeat split; auto; lia.
  - destruct (run_bar_call_step c w Hfit Hc)
      as (w1 & new1 & Hrun & Hsame & Hpix & Hout & Hwd & Hcount).
    assert (Hfit1 : utility.bar_fits (utility.bar w1)).
    { destruct Hfit as (? & ? & ? & ?), Hsame as (Hr & He & _ & _).
      unfold utility.bar_fits. rewrite Hr, He. repeat split; auto; lia. }
    destruct (IH w1 Hfit1)
      as (w2 & new2 & Hrun2 & Hsame2 & Hpix2 & Hout2 & Hwd2 & Hcount2).
    destruct Hsame as (Hr & He & Hi & Ha), Hsame2 as (Hr2 & He2 & Hi2 & Ha2).
    rewrite Hr in *.
    exists w2, (new1 ++ new2). rewrite run_bar_cons, Hrun.
    split; [exact Hrun2|].
    split; [unfold utility.same_bar; repeat split; congruence|].
    split; [lia|].
    split; [rewrite Hout2, Hout; apply eq_sym, app_assoc|].
    split; [apply Forall_app; auto|].
    rewrite List.filter_app, length_app. lia.
Qed.

(** What [Reset] leaves behind. *)
Lemma Reset_spec (w : utility.BarWorld)
    (expected_count : Z) (progress_info : string) (active : bool) :
  0 <= expected_count ->
  let b := {| utility.resolution_ := utility.resolution_ (utility.bar w);
              utility.expected_count_ := expected_count;
              utility.current_count_ := 0;
              utility.progress_info_ := progress_info;
              utility.progress_pixel_ := 0;
              utility.active_ := active |} in
  utility.Reset expected_count progress_info active w
  = (Ok tt,
     {| utility.bar := b;
        utility.stdout :=
          utility.stdout w ++
          (if active && (expected_count =? 0)
           then [utility.done_line b] else []) |}).
Proof.
  intros He b.
  unfold utility.Reset, utility.increment, utility.assign, utility.this.
  unfold bind at 1. unfold modify at 1.
  unfold bind at 1. unfold bind at 1. unfold get, ret. cbn [utility.bar].
  cbn [utility.current_count_].
  change (utility.size_t_of (utility.size_t_of (-1) + 1)) with 0.
  match goal with
  | |- utility.SetCurrentCount 0 ?w0 = _ =>
      destruct (SetCurrentCount_cases 0 w0 ltac:(lia) He)
        as (w' & Hrun & Hcase); rewrite Hrun; f_equal
  end.
  cbn [utility.bar utility.stdout utility.resolution_
       utility.expected_count_ utility.progress_info_
       utility.progress_pixel_ utility.active_] in Hcase.
  destruct Hcase as [[-> ->]|[(-> & Hge & ->)|(-> & Hlt & Hcase)]].
  - cbn. now rewrite app_nil_r.
  - assert (expected_count = 0) as -> by lia. reflexivity.
  - cbv zeta in Hcase. rewrite Z.mul_0_l in Hcase.
    change (utility.size_t_of 0) with 0 in Hcase.
    rewrite Z.div_0_l in Hcase by lia.
    change (utility.size_t_of (utility.int_of 0)) with 0 in Hcase.
    destruct Hcase as [[_ ->]|[Hlt' _]]; [|lia].
    destruct (Z.eqb_spec expected_count 0); [lia|].
    cbn. now rewrite app_nil_r.
Qed.

(** X1: [Reset] restarts the bar whatever state it was in: the counter,
    set to [size_t(-1)] and incremented, wraps around to 0, the drawn
    width is 0, and nothing is printed -- unless the bar is active and
    expects no item at all, in which case the completed bar is printed
    at once. *)
Theorem ConsoleProgressBar_Reset_restarts (w : utility.BarWorld)
    (expected_count : Z) (progress_info : string) (active : bool) :
  0 <= expected_count ->
  let b := {| utility.resolution_ := utility.resolution_ (utility.bar w);
              utility.expected_count_ := expected_count;
              utility.current_count_ := 0;
              utility.progress_info_ := progress_info;
              utility.progress_pixel_ := 0;
              utility.active_ := active |} in
  utility.Reset expected_count progress_info active w
  = (Ok tt,
     {| utility.bar := b;
        utility.stdout :=
          utility.stdout w ++
          (if active && (expected_count =? 0)
           then [utility.done_line b] else []) |}).
Proof. exact (Reset_spec w expected_count progress_info active). Qed.

(** The theorem at work: a bar that counted to 7 is reset for 12
    items. *)
Lemma ConsoleProgressBar_Reset_restarts_witness :
  let w := {| utility.bar :=
                {| utility.resolution_ := 40;
                   utility.expected_count_ := 9;
                   utility.current_count_ := 7;
                   utility.progress_info_ := "old";
                   utility.progress_pixel_ := 31;
                   utility.active_ := true |};
              utility.stdout := [] |} in
  utility.Reset 12 "Reading" true w
  = (Ok tt,
     {| utility.bar :=
          {| utility.resolution_ := 40;
             utility.expected_count_ := 12;
             utility.current_count_ := 0;
             utility.progress_info_ := "Reading";
             utility.progress_pixel_ := 0;
             utility.active_ := true |};
        utility.stdout := [] |}).
Proof.
  intros w.
  apply (ConsoleProgressBar_Reset_restarts w 12 "Reading" true).
  lia.
Defined.

(** X2: no call on the bar divides by zero.  [SetCurrentCount] and [++]
    return for every state of the bar, also when it expects no item:
    the quotient by [expected_count_] is computed only for a count below
    it.  A bar that expects no item prints the completed bar at every
    call. *)
Theorem ConsoleProgressBar_never_divides_by_zero (w : utility.BarWorld)
    (n : Z) :
  0 <= utility.expected_count_ (utility.bar w) ->
  0 <= n ->
  (exists w', utility.SetCurrentCount n w = (Ok tt, w')) /\
  (exists w', utility.increment w = (Ok tt, w')) /\
  (utility.expected_count_ (utility.bar w) = 0 ->
   utility.active_ (utility.bar w) = true ->
   exists w',
     utility.SetCurrentCount n w = (Ok tt, w') /\
     utility.stdout w'
     = utility.stdout w ++ [utility.done_line (utility.bar w)]).
Proof.
  intros He Hn. split; [|split].
  - destruct (SetCurrentCount_cases n w Hn He) as (w' & Hrun & _).
    now exists w'.
  - unfold utility.increment, utility.this, bind, get, ret. cbn.
    destruct (SetCurrentCount_cases
                (utility.size_t_of
                   (utility.current_count_ (utility.bar w) + 1)) w)
      as (w' & Hrun & _); [|exact He|now exists w'].
    unfold utility.size_t_of. apply Z.mod_pos_bound. lia.
  - intros H0 Ha.
    destruct (SetCurrentCount_cases n w Hn He) as (w' & Hrun & Hcase).
    exists w'. split; [exact Hrun|].
    destruct Hcase as [[Hf _]|[(_ & _ & ->)|(_ & Hlt & _)]];
      [congruence|reflexivity|lia].
Qed.

(** The theorem at work: an active bar over no item. *)
Lemma ConsoleProgressBar_never_divides_by_zero_witness :
  let w := {| utility.bar :=
                {| utility.resolution_ := 40;
                   utility.expected_count_ := 0;
                   utility.current_count_ := 0;
                   utility.progress_info_ := "Empty";
                   utility.progress_pixel_ := 0;
                   utility.active_ := true |};
              utility.stdout := [] |} in
  exists w',
    utility.SetCurrentCount 3 w = (Ok tt, w') /\
    utility.stdout w' = [] ++ [utility.done_line (utility.bar w)].
Proof.
  intros w.
  apply (proj2 (proj2 (ConsoleProgressBar_never_divides_by_zero w 3
                         ltac:(simpl; lia) ltac:(lia))));
    reflexivity.
Defined.

(** X3: every progress line is as wide as the bar.  For a bar whose
    arithmetic does not overflow, any run of [++] and [SetCurrentCount]
    returns; the drawn width never decreases and stays below
    [resolution_]; and each progress line printed has at least one [=],
    a padding that is not negative (the unsigned subtraction
    [resolution_ - 1 - progress_pixel_] does not wrap), [resolution_]
    columns in all, and a percentage below 100. *)
Theorem ConsoleProgressBar_lines_fit (cs : list utility.BarCall)
    (w : utility.BarWorld) :
  utility.bar_fits (utility.bar w) ->
  Forall utility.BarCall_in_range cs ->
  exists w' new,
    utility.run_bar cs w = (Ok tt, w') /\
    utility.same_bar (utility.bar w) (utility.bar w') /\
    utility.progress_pixel_ (utility.bar w)
      <= utility.progress_pixel_ (utility.bar w')
      <= utility.resolution_ (utility.bar w) - 1 /\
    utility.stdout w' = utility.stdout w ++ new /\
    Forall (utility.well_drawn (utility.resolution_ (utility.bar w))) new.
Proof.
  intros Hfit Hcs.
  destruct (run_bar_steps cs w Hfit Hcs)
    as (w' & new & H1 & H2 & H3 & H4 & H5 & _).
  exists w', new. auto.
Qed.

(** X4: the bar throttles its output.  After [Reset], a loop of any
    number of [++] and [SetCurrentCount] calls prints fewer progress
    lines than the bar is wide: a line is printed only when the drawn
    width grows. *)
Theorem ConsoleProgressBar_redraws_bounded (cs : list utility.BarCall)
    (w : utility.BarWorld) (expected_count : Z) (progress_info : string)
    (active : bool) :
  0 < utility.resolution_ (utility.bar w) < 2 ^ 31 ->
  0 <= expected_count ->
  expected_count * Z.max (utility.resolution_ (utility.bar w)) 100
    <= 2 ^ 64 ->
  Forall utility.BarCall_in_range cs ->
  exists w' new,
    bind (utility.Reset expected_count progress_info active)
         (fun _ => utility.run_bar cs) w = (Ok tt, w') /\
    utility.stdout w' = utility.stdout w ++ new /\
    Z.of_nat (length (List.filter utility.is_progress_line new))
    <= utility.resolution_ (utility.bar w) - 1.
Proof.
  intros Hres He Hfit Hcs. unfold bind.
  rewrite (Reset_spec w expected_count
             progress_info active He).
  match goal with
  | |- context [utility.run_bar cs ?w0] =>
      destruct (run_bar_steps cs w0) as (w' & new & H1 & _ & H3 & H4 & _ & H6);
        [|exact Hcs|]
  end.
  { unfold utility.bar_fits. cbn. repeat split; auto; lia. }
  cbn [utility.bar utility.stdout utility.progress_pixel_
       utility.resolution_] in *.
  exists w'. eexists. split; [exact H1|].
  split; [rewrite H4; apply eq_sym, app_assoc|].
  rewrite List.filter_app, length_app.
  assert (Hz : List.filter utility.is_progress_line
                 (if active && (expected_count =? 0)
                  then [utility.done_line
                          {| utility.resolution_ :=
                               utility.resolution_ (utility.bar w);
                             utility.expected_count_ := expected_count;
                             utility.current_count_ := 0;
                             utility.progress_info_ := progress_info;
                             utility.progress_pixel_ := 0;
                             utility.active_ := active |}]
                  else []) = []).
  { destruct (active && (expected_count =? 0)); reflexivity. }
  rewrite Hz. cbn [length]. lia.
Qed.

(** The theorem at work: a bar of width 40 over 10 items, advanced four
    times. *)
Lemma ConsoleProgressBar_lines_fit_witness :
  let w := {| utility.bar :=
                {| utility.resolution_ := 40;
                   utility.expected_count_ := 10;
                   utility.current_count_ := 0;
                   utility.progress_info_ := "Reading";
                   utility.progress_pixel_ := 0;
                   utility.active_ := true |};
              utility.stdout := [] |} in
  let cs := [utility.CallIncrement; utility.CallIncrement;
             utility.CallSetCurrentCount 5; utility.CallIncrement] in
  exists w' new,
    utility.run_bar cs w = (Ok tt, w') /\
    utility.same_bar (utility.bar w) (utility.bar w') /\
    0 <= utility.progress_pixel_ (utility.bar w') <= 40 - 1 /\
    utility.stdout w' = [] ++ new /\
    Forall (utility.well_drawn 40) new.
Proof.
  intros w cs.
  apply (ConsoleProgressBar_lines_fit cs w).
  - unfold utility.bar_fits. cbn. lia.
  - repeat (constructor; [cbn; try exact I; lia|]). constructor.
Defined.

(** The theorem at work: a thousand items reported on a bar of width
    40. *)
Lemma ConsoleProgressBar_redraws_bounded_witness :
  let w := {| utility.bar :=
                {| utility.resolution_ := 40;
                   utility.expected_count_ := 0;
                   utility.current_count_ := 0;
                   utility.progress_info_ := "";
                   utility.progress_pixel_ := 0;
                   utility.active_ := false |};
              utility.stdout := [] |} in
  let cs := replicate 1000 utility.CallIncrement in
  exists w' new,
    bind (utility.Reset 1000 "Reading" true)
         (fun _ => utility.run_bar cs) w = (Ok tt, w') /\
    utility.stdout w' = [] ++ new /\
    Z.of_nat (length (List.filter utility.is_progress_line new)) <= 40 - 1.
Proof.
  intros w cs.
  apply (ConsoleProgressBar_redraws_bounded cs w 1000 "Reading" true).
  - cbn. lia.
  - lia.
  - cbn. lia.
  - apply Forall_replicate. exact I.
Defined.

(** X5: a bar that is not active never prints.  Any run of [++] and
    [SetCurrentCount] returns with the output as it was; the counter
    still follows the calls. *)
Theorem ConsoleProgressBar_inactive_is_silent (cs : list utility.BarCall)
    (w : utility.BarWorld) :
  utility.active_ (utility.bar w) = false ->
  exists w',
    utility.run_bar cs w = (Ok tt, w') /\
    utility.stdout w' = utility.stdout w /\
    utility.active_ (utility.bar w') = false /\
    utility.current_count_ (utility.bar w')
    = fold_left (fun c call =>
                   match call with
                   | utility.CallIncrement => utility.size_t_of (c + 1)
                   | utility.CallSetCurrentCount n => n
                   end)
                cs (utility.current_count_ (utility.bar w)).
Proof.
  revert w. induction cs as [|c cs IH]; intros w Ha.
  - exists w. auto.
  - rewrite run_bar_cons.
    assert (Hstep : exists n,
              utility.run_bar_call c w
              = (Ok tt,
                 {| utility.bar :=
                      {| utility.resolution_ :=
                           utility.resolution_ (utility.bar w);
                         utility.expected_count_ :=
                           utility.expected_count_ (utility.bar w);
                         utility.current_count_ := n;
                         utility.progress_info_ :=
                           utility.progress_info_ (utility.bar w);
                         utility.progress_pixel_ :=
                           utility.progress_pixel_ (utility.bar w);
                         utility.active_ := false |};
                    utility.stdout := utility.stdout w |}) /\
              n = match c with
                  | utility.CallIncrement =>
                      utility.size_t_of
                        (utility.current_count_ (utility.bar w) + 1)
                  | utility.CallSetCurrentCount n => n
                  end).
    { destruct w as [[res e cur info p a] out]. cbn in Ha. subst a.
      destruct c; eexists; split; reflexivity. }
    destruct Hstep as (n & -> & ->).
    match goal with
    | |- context [utility.run_bar cs ?w1] =>
        destruct (IH w1 eq_refl) as (w' & Hrun & Hout & Ha' & Hcur)
    end.
    exists w'. cbn [utility.stdout utility.bar utility.current_count_] in *.
    auto.
Qed.

(** The theorem at work: an inactive bar counts three items. *)
Lemma ConsoleProgressBar_inactive_is_silent_witness :
  let w := {| utility.bar :=
                {| utility.resolution_ := 40;
                   utility.expected_count_ := 2;
                   utility.current_count_ := 0;
                   utility.progress_info_ := "Quiet";
                   utility.progress_pixel_ := 0;
                   utility.active_ := false |};
              utility.stdout := [] |} in
  exists w',
    utility.run_bar [utility.CallIncrement; utility.CallIncrement;
                     utility.CallIncrement] w = (Ok tt, w') /\
    utility.stdout w' = [] /\
    utility.active_ (utility.bar w') = false /\
    utility.current_count_ (utility.bar w') = 3.
Proof.
  intros w.
  apply (ConsoleProgressBar_inactive_is_silent
           [utility.CallIncrement; utility.CallIncrement;
            utility.CallIncrement] w).
  reflexivity.
Defined.

(** ** The logger *)

(** X6: an error cannot be silenced.  Whatever the verbosity level and
    the installed print function, [VError] raises; the message is the
    formatted text with function, file and line in front, in bold red
    where the platform has colours.  No print function is called; only
    under MSVC is the message also written to [std::cerr]. *)
Theorem Logger_VError_always_raises (platform : utility.Platform)
    {fmt_args A : Type} (vformat : string -> fmt_args -> string)
    (file_name : string) (line_number : Z) (function_name : string)
    (force_console_log : bool) (format : string) (args : fmt_args)
    (w : utility.LogWorld) :
  let text := "[Open3D Error] (" +:+ function_name +:+ ") " +:+ file_name
                +:+ ":" +:+ pretty line_number +:+ ": "
                +:+ vformat format args +:+ utility.newline in
  exists msg w',
    utility.VError (A := A) platform vformat file_name line_number
      function_name force_console_log format args w = (Err msg, w') /\
    utility.impl_ w' = utility.impl_ w /\
    utility.output w'
    = utility.output w
        ++ (if utility._MSC_VER platform then [utility.Cerr msg] else []) /\
    (utility._WIN32 platform = true -> msg = text) /\
    (utility._WIN32 platform = false ->
     msg = utility.escape +:+ "[1;31m" +:+ text
             +:+ utility.escape +:+ "[0;m").
Proof.
  intros text. destruct w as [i out], platform as [win msc].
  unfold utility.VError, utility.ColorString, utility.cerr, bind, lift, ret,
    modify.
  cbn [utility._WIN32 utility._MSC_VER].
  destruct msc, win; eexists; eexists; (split; [reflexivity|]);
    cbn; rewrite ?app_nil_r;
    repeat split; intros; try discriminate;
    try apply string_app_nil_r; reflexivity.
Qed.

(** The theorem at work: an error raised while only errors are shown. *)
Lemma Logger_VError_always_raises_witness :
  let w := {| utility.impl_ :=
                {| utility.print_fcn_ := utility.user_print_fcn 1;
                   utility.verbosity_level_ := utility.Error |};
              utility.output := [] |} in
  exists msg w',
    utility.VError (A := unit) (utility.mkPlatform false false)
      (fun format (_ : unit) => format)
      "Tensor.cpp" 42 "AssertShape" false "wrong shape" tt w
    = (Err msg, w') /\
    utility.impl_ w' = utility.impl_ w /\
    utility.output w' = [] /\
    msg = utility.escape +:+ "[1;31m"
            +:+ "[Open3D Error] (AssertShape) Tensor.cpp:42: wrong shape"
            +:+ utility.newline +:+ utility.escape +:+ "[0;m".
Proof.
  intros w.
  destruct (Logger_VError_always_raises (A := unit)
              (utility.mkPlatform false false)
              (fun format (_ : unit) => format)
              "Tensor.cpp" 42 "AssertShape" false "wrong shape" tt w)
    as (msg & w' & Hrun & Himpl & Hout & _ & Hmsg).
  exists msg, w'. repeat split; auto.
Defined.

(** X7: the verbosity level filters what is printed and nothing else.  A
    program of warning, info and debug calls, with the print function
    set and reset in between but the level left alone, returns without
    an error and with the level unchanged, and prints one message for
    each call whose level passes: warnings from [Warning] on, infos from
    [Info] on, debug messages at [Debug] only.  At the level [Error] it
    prints nothing. *)
Theorem Logger_verbosity_filter (platform : utility.Platform)
    {fmt_args : Type} (vformat : string -> fmt_args -> string)
    (cs : list (utility.LoggerCall fmt_args)) (w : utility.LogWorld) :
  forallb (fun c => negb (utility.sets_level c)) cs = true ->
  exists w' new,
    utility.run platform vformat cs w = (Ok tt, w') /\
    utility.verbosity_level_ (utility.impl_ w')
    = utility.verbosity_level_ (utility.impl_ w) /\
    utility.output w' = utility.output w ++ new /\
    length new
    = length (List.filter
                (utility.passes (utility.verbosity_level_ (utility.impl_ w)))
                cs) /\
    (utility.verbosity_level_ (utility.impl_ w) = utility.Error ->
     new = []).
Proof.
  intros Hcs.
  destruct (run_filter platform vformat cs w Hcs)
    as (w' & new & Hrun & Hlev & Hout & Hlen).
  exists w', new. repeat split; auto.
  intros Herr. rewrite Herr in Hlen.
  assert (Hnone : List.filter (utility.passes utility.Error) cs = []).
  { clear. induction cs as [|c cs IH]; [reflexivity|].
    cbn [List.filter]. now destruct c. }
  rewrite Hnone in Hlen. now destruct new.
Qed.

(** The theorem at work: at the default level [Info], of a warning, an
    info and a debug message two are printed. *)
Lemma Logger_verbosity_filter_witness :
  let w := {| utility.impl_ := utility.Logger_new;
              utility.output := [] |} in
  let cs := [utility.CallVWarning false "w" tt;
             utility.CallSetPrintFunction (utility.user_print_fcn 7);
             utility.CallVInfo false "i" tt;
             utility.CallVDebug false "d" tt] in
  exists w' new,
    utility.run (utility.mkPlatform false false)
      (fun format (_ : unit) => format) cs w = (Ok tt, w') /\
    utility.verbosity_level_ (utility.impl_ w') = utility.Info /\
    utility.output w' = [] ++ new /\
    length new = 2%nat.
Proof.
  intros w cs.
  destruct (Logger_verbosity_filter (utility.mkPlatform false false)
              (fun format (_ : unit) => format) cs w eq_refl)
    as (w' & new & H1 & H2 & H3 & H4 & _).
  exists w', new. auto.
Defined.

(** X8: a message logged with [force_console_log] reaches the console,
    whatever print function is installed.  In a program all of whose
    logging calls are forced, every message goes to the console print
    function, also between a [SetPrintFunction] and the next
    [ResetPrintFunction]. *)
Theorem Logger_forced_messages_reach_console (platform : utility.Platform)
    {fmt_args : Type} (vformat : string -> fmt_args -> string)
    (cs : list (utility.LoggerCall fmt_args)) (w : utility.LogWorld) :
  forallb utility.is_forced cs = true ->
  exists w' new,
    utility.run platform vformat cs w = (Ok tt, w') /\
    utility.output w' = utility.output w ++ new /\
    Forall (fun o => exists msg,
              o = utility.Called utility.console_print_fcn_ msg) new.
Proof. exact (run_forced platform vformat cs w). Qed.

(** The theorem at work: a forced warning after a print function was
    installed. *)
Lemma Logger_forced_messages_reach_console_witness :
  let w := {| utility.impl_ := utility.Logger_new;
              utility.output := [] |} in
  let cs := [utility.CallSetPrintFunction (utility.user_print_fcn 7);
             utility.CallVWarning true "w" tt] in
  exists w' new,
    utility.run (utility.mkPlatform false false)
      (fun format (_ : unit) => format) cs w = (Ok tt, w') /\
    utility.output w' = [] ++ new /\
    Forall (fun o => exists msg,
              o = utility.Called utility.console_print_fcn_ msg) new.
Proof.
  intros w cs.
  apply (Logger_forced_messages_reach_console
           (utility.mkPlatform false false)
           (fun format (_ : unit) => format) cs w).
  reflexivity.
Defined.

(** ** Point cloud files *)

Section PointCloudIO_facts.
Context {PointCloud LegacyPointCloud Files : Type}
        (GetFileExtensionInLowerCase : string -> string)
        (ToUpper : string -> string)
        (ReadXYZI ReadPLY ReadPTS : @t_io.Reader PointCloud)
        (legacy_ReadPointCloud :
           string -> t_io.ReadPointCloudOption -> M LegacyPointCloud bool)
        (PointCloud_new : PointCloud)
        (LegacyPointCloud_new : LegacyPointCloud)
        (FromLegacyPointCloud : LegacyPointCloud -> Dtype.t -> PointCloud)
        (GetPointsLength : PointCloud -> Result Z).

Local Abbreviation read_table :=
  (t_io.file_extension_to_pointcloud_read_function ReadXYZI ReadPLY ReadPTS).
Local Abbreviation ReadPointCloud :=
  (t_io.ReadPointCloud GetFileExtensionInLowerCase ReadXYZI ReadPLY ReadPTS
     legacy_ReadPointCloud LegacyPointCloud_new FromLegacyPointCloud
     GetPointsLength).

(** The table has the three formats and no other. *)
Lemma read_table_lookup (format : string) :
  (In format t_io.tensor_formats ->
   exists read, read_table !! format = Some read /\
                In read [ReadXYZI; ReadPLY; ReadPTS]) /\
  (~ In format t_io.tensor_formats -> read_table !! format = None).
Proof.
  unfold t_io.file_extension_to_pointcloud_read_function,
    t_io.tensor_formats.
  cbn [list_to_map foldr fmap list_fmap uncurry fst snd].
  split.
  - intros [H|[H|[H|[]]]]; subst format.
    + exists ReadXYZI. split; [|now left]. apply lookup_insert_eq.
    + exists ReadPLY. split; [|right; now left].
      rewrite lookup_insert_ne by discriminate. apply lookup_insert_eq.
    + exists ReadPTS. split; [|right; right; now left].
      rewrite !lookup_insert_ne by discriminate. apply lookup_insert_eq.
  - intros Hn. cbn in Hn.
    rewrite !lookup_insert_ne
      by (intros E; apply Hn; rewrite <- E; simpl; auto).
    apply lookup_empty.
Qed.

(** [ReadPointCloud] on a format of the table. *)
Lemma ReadPointCloud_tensor (filename : string)
    (params : t_io.ReadPointCloudOption) (pointcloud : PointCloud)
    (read : t_io.Reader) :
  read_table
    !! t_io.resolved_format GetFileExtensionInLowerCase filename params
  = Some read ->
  ReadPointCloud filename params pointcloud
  = match read filename params pointcloud with
    | (Ok success, pointcloud') =>
        match GetPointsLength pointcloud' with
        | Ok _ =>
            if t_io.remove_nan_points params
               || t_io.remove_infinite_points params
            then (Err ("remove_nan_points and remove_infinite_points "
                         +:+ "options are unimplemented."), pointcloud')
            else (Ok success, pointcloud')
        | Err e => (Err e, pointcloud')
        end
    | (Err e, pointcloud') => (Err e, pointcloud')
    end.
Proof.
  intros Hread.
  unfold t_io.ReadPointCloud, t_io.resolved_format, t_io.LogDebug in *.
  unfold bind at 1. unfold ret at 1.
  destruct (_ !! _) as [read'|]; [|discriminate].
  injection Hread as ->.
  unfold bind at 1.
  destruct (read filename params pointcloud) as [[success|e] pc];
    [|reflexivity].
  unfold bind, get, lift, ret.
  destruct (GetPointsLength pc); [|reflexivity].
  destruct (_ || _); reflexivity.
Qed.

(** [ReadPointCloud] on any other format. *)
Lemma ReadPointCloud_legacy (filename : string)
    (params : t_io.ReadPointCloudOption) (pointcloud : PointCloud) :
  read_table
    !! t_io.resolved_format GetFileExtensionInLowerCase filename params
  = None ->
  ReadPointCloud filename params pointcloud
  = match legacy_ReadPointCloud filename params LegacyPointCloud_new with
    | (Ok success, legacy_pointcloud) =>
        if negb success then (Ok false, pointcloud)
        else (Ok success,
              FromLegacyPointCloud legacy_pointcloud Dtype.Float64)
    | (Err e, _) => (Err e, pointcloud)
    end.
Proof.
  intros Hread.
  unfold t_io.ReadPointCloud, t_io.resolved_format, t_io.LogDebug in *.
  unfold bind at 1. unfold ret at 1.
  destruct (_ !! _) as [read'|]; [discriminate|].
  destruct (legacy_ReadPointCloud _ _ _) as [[[|]|e] l]; reflexivity.
Qed.

(** A format of the table, with one of the two options set: the reader
    runs, and whatever it did, the call raises. *)
Lemma ReadPointCloud_unimplemented (filename : string)
    (params : t_io.ReadPointCloudOption) (pointcloud : PointCloud) :
  In (t_io.resolved_format GetFileExtensionInLowerCase filename params)
     t_io.tensor_formats ->
  t_io.remove_nan_points params || t_io.remove_infinite_points params
    = true ->
  exists read msg,
    In read [ReadXYZI; ReadPLY; ReadPTS] /\
    ReadPointCloud filename params pointcloud
    = (Err msg, snd (read filename params pointcloud)).
Proof.
  intros Hfmt Hflag.
  destruct (proj1 (read_table_lookup _) Hfmt) as (read & Hread & Hin).
  exists read. rewrite (ReadPointCloud_tensor _ _ _ _ Hread), Hflag.
  destruct (read filename params pointcloud) as [[success|e] pc];
    [|eexists; split; [exact Hin|reflexivity]].
  destruct (GetPointsLength pc);
    eexists; (split; [exact Hin|reflexivity]).
Qed.
End PointCloudIO_facts.

Section PointCloudIO_claims.
Context {PointCloud LegacyPointCloud Files : Type}
        (GetFileExtensionInLowerCase : string -> string)
        (ToUpper : string -> string)
        (ReadXYZI ReadPLY ReadPTS : @t_io.Reader PointCloud)
        (WriteXYZI WritePLY WritePTS : @t_io.Writer PointCloud Files)
        (legacy_ReadPointCloud :
           string -> t_io.ReadPointCloudOption -> M LegacyPointCloud bool)
        (legacy_WritePointCloud :
           string -> LegacyPointCloud -> t_io.WritePointCloudOption
           -> M Files bool)
        (PointCloud_new : PointCloud)
        (LegacyPointCloud_new : LegacyPointCloud)
        (FromLegacyPointCloud : LegacyPointCloud -> Dtype.t -> PointCloud)
        (ToLegacyPointCloud : PointCloud -> LegacyPointCloud)
        (CPU : PointCloud -> PointCloud)
        (IsEmpty : PointCloud -> bool)
        (GetPointsLength : PointCloud -> Result Z).



(** X10: [CreatePointCloudFromFile] asks for both removals, so it can
    never deliver a file of the formats xyzi, ply and pts: it raises for
    every such file.  For any other format it hands the work to the
    legacy reader and drops its verdict: when the file cannot be read,
    the caller gets the empty point cloud and no error. *)
Theorem CreatePointCloudFromFile_outcomes (filename format : string)
    (print_progress : bool) :
  let resolved :=
    if bool_decide (format = "auto")
    then GetFileExtensionInLowerCase filename else format in
  let params := {| t_io.format := format;
                   t_io.remove_nan_points := true;
                   t_io.remove_infinite_points := true;
                   t_io.print_progress := print_progress;
                   t_io.update_progress := t_io.no_update_progress |} in
  (In resolved t_io.tensor_formats ->
   exists msg,
     t_io.CreatePointCloudFromFile GetFileExtensionInLowerCase
       ReadXYZI ReadPLY ReadPTS legacy_ReadPointCloud PointCloud_new
       LegacyPointCloud_new FromLegacyPointCloud GetPointsLength
       filename format print_progress = Err msg) /\
  (~ In resolved t_io.tensor_formats ->
   t_io.CreatePointCloudFromFile GetFileExtensionInLowerCase
     ReadXYZI ReadPLY ReadPTS legacy_ReadPointCloud PointCloud_new
     LegacyPointCloud_new FromLegacyPointCloud GetPointsLength
     filename format print_progress
   = match legacy_ReadPointCloud filename params LegacyPointCloud_new with
     | (Ok true, legacy_pointcloud) =>
         Ok (FromLegacyPointCloud legacy_pointcloud Dtype.Float64)
     | (Ok false, _) => Ok PointCloud_new
     | (Err e, _) => Err e
     end).
Proof.
  intros resolved params. unfold t_io.CreatePointCloudFromFile.
  fold params. split.
  - intros Hfmt.
    destruct (ReadPointCloud_unimplemented GetFileExtensionInLowerCase
                ReadXYZI ReadPLY ReadPTS legacy_ReadPointCloud
                LegacyPointCloud_new FromLegacyPointCloud GetPointsLength
                filename params PointCloud_new Hfmt eq_refl)
      as (read & msg & _ & ->).
    now exists msg.
  - intros Hfmt.
    rewrite ReadPointCloud_legacy
      by (apply read_table_lookup; exact Hfmt).
    destruct (legacy_ReadPointCloud _ _ _) as [[[|]|e] l]; reflexivity.
Qed.

(** X11: every other format goes to the legacy reader, which gets the
    options as they are.  If it fails, [ReadPointCloud] returns false
    and the point cloud of the caller is untouched; if it succeeds, the
    point cloud is the legacy one converted with dtype [Float64].  The
    two removal options are not refused on this path. *)
Theorem ReadPointCloud_legacy_fallback (filename : string)
    (params : t_io.ReadPointCloudOption) (pointcloud : PointCloud) :
  ~ In (t_io.resolved_format GetFileExtensionInLowerCase filename params)
       t_io.tensor_formats ->
  t_io.ReadPointCloud GetFileExtensionInLowerCase
    ReadXYZI ReadPLY ReadPTS legacy_ReadPointCloud
    LegacyPointCloud_new FromLegacyPointCloud GetPointsLength
    filename params pointcloud
  = match legacy_ReadPointCloud filename params LegacyPointCloud_new with
    | (Ok true, legacy_pointcloud) =>
        (Ok true, FromLegacyPointCloud legacy_pointcloud Dtype.Float64)
    | (Ok false, _) => (Ok false, pointcloud)
    | (Err e, _) => (Err e, pointcloud)
    end.
Proof.
  intros Hfmt.
  rewrite ReadPointCloud_legacy by (apply read_table_lookup; exact Hfmt).
  destruct (legacy_ReadPointCloud _ _ _) as [[[|]|e] l]; reflexivity.
Qed.
End PointCloudIO_claims.


(** The theorem at work: a ply file cannot be created from. *)
Lemma CreatePointCloudFromFile_outcomes_witness :
  (exists msg,
     IntegerClouds.CreatePointCloudFromFile "bunny.ply" "auto" false
     = Err msg) /\
  IntegerClouds.CreatePointCloudFromFile "bunny.pcd" "auto" false = Ok [].
Proof.
  pose proof (CreatePointCloudFromFile_outcomes
                IntegerClouds.extension
                (IntegerClouds.reader [1]) (IntegerClouds.reader [2; 2])
                (IntegerClouds.reader [3])
                IntegerClouds.legacy_reader [] [] (fun l _ => l)
                IntegerClouds.length_of) as H.
  split.
  - apply (proj1 (H "bunny.ply" "auto" false)).
    right; left. reflexivity.
  - apply (proj2 (H "bunny.pcd" "auto" false)).
    vm_compute. intuition discriminate.
Defined.

(** The theorem at work: a pcd file the legacy reader cannot read. *)
Lemma ReadPointCloud_legacy_fallback_witness :
  IntegerClouds.ReadPointCloud "bunny.pcd"
    {| t_io.format := "auto";
       t_io.remove_nan_points := true;
       t_io.remove_infinite_points := true;
       t_io.print_progress := false;
       t_io.update_progress := t_io.no_update_progress |}
    [7; 7] = (Ok false, [7; 7]).
Proof.
  apply (ReadPointCloud_legacy_fallback
           IntegerClouds.extension
           (IntegerClouds.reader [1]) (IntegerClouds.reader [2; 2])
           (IntegerClouds.reader [3])
           IntegerClouds.legacy_reader [] (fun l _ => l)
           IntegerClouds.length_of "bunny.pcd").
  vm_compute. intuition discriminate.
Defined.

Section PointCloudIO_write.
Context {PointCloud LegacyPointCloud Files : Type}
        (GetFileExtensionInLowerCase : string -> string)
        (ToUpper : string -> string)
        (WriteXYZI WritePLY WritePTS : @t_io.Writer PointCloud Files)
        (legacy_WritePointCloud :
           string -> LegacyPointCloud -> t_io.WritePointCloudOption
           -> M Files bool)
        (ToLegacyPointCloud : PointCloud -> LegacyPointCloud)
        (CPU : PointCloud -> PointCloud)
        (IsEmpty : PointCloud -> bool)
        (GetPointsLength : PointCloud -> Result Z).




End PointCloudIO_write.


(** ** Element-wise kernels: which launch is reached *)

Section Dispatch_facts.
Context `{SM : ScalarModel}.

Lemma Indexer_new_cases {S} (inputs : list Tensor) (output : Tensor)
    (policy : DtypePolicy.t) :
  Indexer_new (S := S) inputs output policy
  = if check_dtype_policy inputs output policy
       && elementwise.broadcastable inputs output
    then ret (elementwise.indexer_of inputs output)
    else LogError (if check_dtype_policy inputs output policy
                   then "Shape mismatch." else "Dtype mismatch.").
Proof.
  unfold Indexer_new, elementwise.broadcastable, elementwise.indexer_of.
  destruct (check_dtype_policy inputs output policy); [|reflexivity].
  cbn [negb andb]. destruct (forallb _ inputs); reflexivity.
Qed.

(** [UnaryEWCPU] launches the element kernel of the operation exactly
    for the supported dtypes and broadcastable shapes; otherwise it
    raises and the output is as it was. *)
Lemma UnaryEWCPU_cases (src dst : Tensor) (op_code : UnaryEWOpCode.t)
    (blob : kernel.Blob) :
  let ok := elementwise.unary_supported op_code (GetDtype src) (GetDtype dst)
            && elementwise.broadcastable [src] dst in
  (ok = true ->
   kernel.UnaryEWCPU src dst op_code blob
   = kernel.LaunchUnaryEWKernel (elementwise.indexer_of [src] dst)
       (kernel.store1
          (elementwise.unary_result op_code (GetDtype src) (GetDtype dst)))
       blob) /\
  (ok = false ->
   exists msg, kernel.UnaryEWCPU src dst op_code blob = (Err msg, blob)).
Proof.
  unfold kernel.UnaryEWCPU, elementwise.unary_supported,
    DISPATCH_DTYPE_TO_TEMPLATE_WITH_BOOL, DISPATCH_DTYPE_TO_TEMPLATE,
    kernel.assert_dtype_is_float, Dtype.is_scalar.
  rewrite !Indexer_new_cases. unfold bind, ret, LogError.
  cbn [check_dtype_policy all_dtype forallb].
  rewrite !Dtype_eqb_refl. cbn [andb].
  generalize (elementwise.indexer_of [src] dst) as ix.
  generalize (elementwise.broadcastable [src] dst) as bc.
  generalize (GetDtype dst) as dd. generalize (GetDtype src) as sd.
  intros sd dd bc ix.
  destruct (Dtype.eqb dd sd) eqn:Es.
  - apply Dtype_eqb_eq in Es. subst dd.
    destruct op_code, sd, bc; cbn;
      rewrite ?Z.eqb_refl; cbn;
      (split; intros H; try discriminate H;
       try reflexivity; eexists; reflexivity).
  - destruct (Dtype.eqb dd Dtype.Bool) eqn:Eb.
    + apply Dtype_eqb_eq in Eb. subst dd.
      destruct op_code, sd, bc; cbn in *; try discriminate Es;
        (split; intros H; try discriminate H;
         try reflexivity; eexists; reflexivity).
    + destruct op_code, sd, bc; cbn;
        (split; intros H; try discriminate H;
         try reflexivity; eexists; reflexivity).
Qed.
Lemma is_boolean_op_cases (op_code : BinaryEWOpCode.t) :
  elementwise.is_boolean_op op_code
  = match op_code with
    | BinaryEWOpCode.Add | BinaryEWOpCode.Sub | BinaryEWOpCode.Mul
    | BinaryEWOpCode.Div => false
    | _ => true
    end.
Proof. now destruct op_code. Qed.

(** [BinaryEWCPU] launches the element kernel of the operation exactly
    for the supported dtypes and broadcastable shapes; otherwise it
    raises and the output is as it was. *)
Lemma BinaryEWCPU_cases (lhs rhs dst : Tensor) (op_code : BinaryEWOpCode.t)
    (blob : kernel.Blob) :
  let ok := elementwise.binary_supported op_code
              (GetDtype lhs) (GetDtype rhs) (GetDtype dst)
            && elementwise.broadcastable [lhs; rhs] dst in
  (ok = true ->
   kernel.BinaryEWCPU lhs rhs dst op_code blob
   = kernel.LaunchBinaryEWKernel (elementwise.indexer_of [lhs; rhs] dst)
       (kernel.store2
          (elementwise.binary_result op_code (GetDtype lhs) (GetDtype dst)))
       blob) /\
  (ok = false ->
   exists msg,
     kernel.BinaryEWCPU lhs rhs dst op_code blob = (Err msg, blob)).
Proof.
  unfold kernel.BinaryEWCPU, elementwise.binary_supported,
    DISPATCH_DTYPE_TO_TEMPLATE_WITH_BOOL, DISPATCH_DTYPE_TO_TEMPLATE,
    Dtype.is_scalar.
  fold (elementwise.is_boolean_op op_code).
  rewrite is_boolean_op_cases.
  rewrite !Indexer_new_cases. unfold bind, ret, LogError.
  cbn [check_dtype_policy all_dtype forallb].
  rewrite !Dtype_eqb_refl. cbn [andb].
  generalize (elementwise.indexer_of [lhs; rhs] dst) as ix.
  generalize (elementwise.broadcastable [lhs; rhs] dst) as bc.
  generalize (GetDtype dst) as dd. generalize (GetDtype rhs) as rd.
  generalize (GetDtype lhs) as sd.
  intros sd rd dd bc ix.
  destruct (Dtype.eqb rd sd) eqn:Er; cbn [andb].
  2:{ destruct op_code, sd, bc; cbn;
        (split; intros H; try discriminate H);
        repeat match goal with
               | |- context [Dtype.eqb ?a ?b] => destruct (Dtype.eqb a b)
               end;
        eexists; reflexivity. }
  clear Er rd.
  destruct (Dtype.eqb dd sd) eqn:Es.
  - apply Dtype_eqb_eq in Es. subst dd.
    destruct op_code, sd, bc; cbn;
      rewrite ?Z.eqb_refl; cbn;
      (split; intros H; try discriminate H;
       try reflexivity; eexists; reflexivity).
  - destruct (Dtype.eqb dd Dtype.Bool) eqn:Eb.
    + apply Dtype_eqb_eq in Eb. subst dd.
      destruct op_code, sd, bc; cbn in *; try discriminate Es;
        (split; intros H; try discriminate H;
         try reflexivity; eexists; reflexivity).
    + destruct op_code, sd, bc; cbn;
        (split; intros H; try discriminate H;
         try reflexivity; eexists; reflexivity).
Qed.
End Dispatch_facts.

(** ** Loops that scatter values over a buffer *)

Section Scatter.
Context {A : Type} (addr : Z -> Z) (val : Z -> option A).

Lemma scatter_length (order : list nat) (blob : list A) :
  length (elementwise.ParallelFor_in_order order
            (elementwise.scatter_step addr val) blob)
  = length blob.
Proof.
  unfold elementwise.ParallelFor_in_order. revert blob.
  induction order as [|k order IH]; intros blob; [reflexivity|].
  cbn [fold_left]. rewrite IH. unfold elementwise.scatter_step.
  destruct (val (Z.of_nat k)); [apply write_length|reflexivity].
Qed.

(** A cell no iteration addresses keeps its value. *)
Lemma scatter_frame (order : list nat) (blob : list A) (q : Z) :
  (forall k, In k order -> addr (Z.of_nat k) <> q) ->
  read (elementwise.ParallelFor_in_order order
          (elementwise.scatter_step addr val) blob) q
  = read blob q.
Proof.
  unfold elementwise.ParallelFor_in_order. revert blob.
  induction order as [|k order IH]; intros blob Hq; [reflexivity|].
  cbn [fold_left]. rewrite IH by (intros k' Hk'; apply Hq; now right).
  unfold elementwise.scatter_step. destruct (val (Z.of_nat k)); [|reflexivity].
  apply read_write_ne. apply Hq. now left.
Qed.

(** A cell that holds the value of the one iteration that addresses it
    keeps that value. *)
Lemma scatter_keeps (order : list nat) (blob : list A) (i : nat) (v : A) :
  val (Z.of_nat i) = Some v ->
  (forall k, In k order -> addr (Z.of_nat k) = addr (Z.of_nat i) -> k = i) ->
  0 <= addr (Z.of_nat i) < Z.of_nat (length blob) ->
  read blob (addr (Z.of_nat i)) = Some v ->
  read (elementwise.ParallelFor_in_order order
          (elementwise.scatter_step addr val) blob)
       (addr (Z.of_nat i)) = Some v.
Proof.
  intros Hv. unfold elementwise.ParallelFor_in_order. revert blob.
  induction order as [|k order IH]; intros blob Hinj Hb Hr; [exact Hr|].
  cbn [fold_left].
  assert (Hlen : length (elementwise.scatter_step addr val (Z.of_nat k) blob)
                 = length blob).
  { unfold elementwise.scatter_step. destruct (val (Z.of_nat k));
      [apply write_length|reflexivity]. }
  apply IH.
  - intros k' Hk'. apply Hinj. now right.
  - now rewrite Hlen.
  - unfold elementwise.scatter_step.
    destruct (Z.eq_dec (addr (Z.of_nat k)) (addr (Z.of_nat i))) as [E|E].
    + assert (k = i) as -> by (apply Hinj; [now left|exact E]).
      rewrite Hv. now apply read_write_eq.
    + destruct (val (Z.of_nat k)); [|exact Hr].
      now rewrite read_write_ne.
Qed.

(** The cell of an iteration holds its value at the end, when no other
    iteration addresses the cell. *)
Lemma scatter_read (order : list nat) (blob : list A) (i : nat) (v : A) :
  In i order ->
  val (Z.of_nat i) = Some v ->
  (forall k, In k order -> addr (Z.of_nat k) = addr (Z.of_nat i) -> k = i) ->
  0 <= addr (Z.of_nat i) < Z.of_nat (length blob) ->
  read (elementwise.ParallelFor_in_order order
          (elementwise.scatter_step addr val) blob)
       (addr (Z.of_nat i)) = Some v.
Proof.
  intros Hin Hv. unfold elementwise.ParallelFor_in_order. revert blob.
  induction order as [|k order IH]; intros blob Hinj Hb; [destruct Hin|].
  cbn [fold_left].
  assert (Hlen : length (elementwise.scatter_step addr val (Z.of_nat k) blob)
                 = length blob).
  { unfold elementwise.scatter_step. destruct (val (Z.of_nat k));
      [apply write_length|reflexivity]. }
  destruct (Nat.eq_dec k i) as [->|Hki].
  - apply scatter_keeps; try assumption.
    + intros k' Hk'. apply Hinj. now right.
    + now rewrite Hlen.
    + unfold elementwise.scatter_step. rewrite Hv. now apply read_write_eq.
  - apply IH.
    + destruct Hin as [Hin|Hin]; [contradiction|exact Hin].
    + intros k' Hk'. apply Hinj. now right.
    + now rewrite Hlen.
Qed.

Lemma write_commute (p q : Z) (u v : A) (b : list A) :
  p <> q -> write p u (write q v b) = write q v (write p u b).
Proof.
  intros Hpq. unfold write.
  destruct (Z.leb_spec 0 p), (Z.leb_spec 0 q); try reflexivity.
  apply list_insert_insert_ne. lia.
Qed.

Lemma scatter_step_commute (i j : Z) (b : list A) :
  (addr i = addr j -> i = j) ->
  elementwise.scatter_step addr val i (elementwise.scatter_step addr val j b)
  = elementwise.scatter_step addr val j
      (elementwise.scatter_step addr val i b).
Proof.
  intros Hinj. unfold elementwise.scatter_step.
  destruct (Z.eq_dec (addr i) (addr j)) as [E|E].
  - now rewrite (Hinj E).
  - destruct (val i), (val j); try reflexivity. now apply write_commute.
Qed.
End Scatter.

(** A loop whose iterations commute gives the same result in every
    order. *)
Lemma fold_left_permutation {S} (f : S -> nat -> S) (l l' : list nat) :
  Permutation l l' ->
  (forall x y s, In x l -> In y l -> f (f s x) y = f (f s y) x) ->
  forall s, fold_left f l s = fold_left f l' s.
Proof.
  induction 1 as [|x l l' Hp IH|x y l|l l' l'' Hp1 IH1 Hp2 IH2];
    intros Hc s.
  - reflexivity.
  - cbn. apply IH. intros a b s' Ha Hb. apply Hc; now right.
  - cbn. rewrite (Hc y x); [reflexivity|now left|right; now left].
  - rewrite IH1 by exact Hc. apply IH2.
    intros a b s' Ha Hb.
    apply Hc; eapply Permutation_in; try eassumption;
      now apply Permutation_sym.
Qed.

Lemma ParallelFor_is_in_order {S} (n g : Z) (func : Z -> S -> S) (s : S) :
  cpu_launcher.ParallelFor n g func s
  = elementwise.ParallelFor_in_order (seq 0 (Z.to_nat n)) func s.
Proof. reflexivity. Qed.

Lemma in_seq_range (n : Z) (k : nat) :
  In k (seq 0 (Z.to_nat n)) <-> 0 <= Z.of_nat k < n.
Proof. rewrite in_seq. lia. Qed.

(** A scatter loop with one cell per iteration gives the same buffer
    whatever order its iterations run in. *)
Lemma scatter_schedule {A} (addr : Z -> Z) (val : Z -> option A)
    (n : Z) (order : list nat) (blob : list A) :
  Permutation order (seq 0 (Z.to_nat n)) ->
  (forall i j, 0 <= i < n -> 0 <= j < n -> addr i = addr j -> i = j) ->
  elementwise.ParallelFor_in_order order
    (elementwise.scatter_step addr val) blob
  = elementwise.ParallelFor_in_order (seq 0 (Z.to_nat n))
      (elementwise.scatter_step addr val) blob.
Proof.
  intros Hp Hinj. unfold elementwise.ParallelFor_in_order.
  apply fold_left_permutation; [exact Hp|].
  intros x y s Hx Hy.
  apply scatter_step_commute. intros E.
  apply Hinj; try exact E; apply in_seq_range;
    eapply Permutation_in; eassumption.
Qed.

(** ** Launches as scatter loops *)

Lemma fold_left_ext_in {S} (f g : S -> nat -> S) (l : list nat) (s : S) :
  (forall k s', In k l -> f s' k = g s' k) ->
  fold_left f l s = fold_left g l s.
Proof.
  revert s. induction l as [|k l IH]; intros s H; [reflexivity|].
  cbn. rewrite (H k s) by now left.
  apply IH. intros k' s' Hk'. apply H. now right.
Qed.

Lemma offset_of_broadcast_same (shape strides : list Z) (i : Z) :
  shape_util.offset_of shape (broadcast_strides shape strides shape) i
  = shape_util.offset_of shape strides i.
Proof.
  revert strides i.
  induction shape as [|s shape IH]; intros [|st strides] i;
    try reflexivity.
  cbn. rewrite IH.
  destruct (Z.eqb_spec s 1); reflexivity.
Qed.

Section Launch_facts.
Context `{SM : ScalarModel}.

Lemma unary_in_order_scatter (order : list nat) (indexer : Indexer)
    (f : Scalar -> Scalar) (blob : kernel.Blob) :
  elementwise.LaunchUnaryEWKernel_in_order order indexer (kernel.store1 f)
    blob
  = (Ok tt,
     elementwise.ParallelFor_in_order order
       (elementwise.scatter_step (GetOutputPtr indexer)
          (elementwise.unary_val indexer f)) blob).
Proof.
  unfold elementwise.LaunchUnaryEWKernel_in_order, modify,
    elementwise.ParallelFor_in_order. f_equal.
  apply fold_left_ext_in. intros k b _.
  unfold elementwise.scatter_step, elementwise.unary_val, kernel.store1.
  destruct (deref _); reflexivity.
Qed.

Lemma binary_in_order_scatter (order : list nat) (indexer : Indexer)
    (f : Scalar -> Scalar -> Scalar) (blob : kernel.Blob) :
  elementwise.LaunchBinaryEWKernel_in_order order indexer (kernel.store2 f)
    blob
  = (Ok tt,
     elementwise.ParallelFor_in_order order
       (elementwise.scatter_step (GetOutputPtr indexer)
          (elementwise.binary_val indexer f)) blob).
Proof.
  unfold elementwise.LaunchBinaryEWKernel_in_order, modify,
    elementwise.ParallelFor_in_order. f_equal.
  apply fold_left_ext_in. intros k b _.
  unfold elementwise.scatter_step, elementwise.binary_val, kernel.store2.
  destruct (deref (GetInputPtr indexer 0 (Z.of_nat k))),
    (deref (GetInputPtr indexer 1 (Z.of_nat k))); reflexivity.
Qed.

Lemma unary_launch_in_order (indexer : Indexer)
    (func : Ptr -> Z -> kernel.Blob -> kernel.Blob) (blob : kernel.Blob) :
  kernel.LaunchUnaryEWKernel indexer func blob
  = elementwise.LaunchUnaryEWKernel_in_order
      (seq 0 (Z.to_nat (NumWorkloads indexer))) indexer func blob.
Proof. reflexivity. Qed.

Lemma binary_launch_in_order (indexer : Indexer)
    (func : Ptr -> Ptr -> Z -> kernel.Blob -> kernel.Blob)
    (blob : kernel.Blob) :
  kernel.LaunchBinaryEWKernel indexer func blob
  = elementwise.LaunchBinaryEWKernel_in_order
      (seq 0 (Z.to_nat (NumWorkloads indexer))) indexer func blob.
Proof. reflexivity. Qed.

Lemma indexer_of_output (inputs : list Tensor) (dst : Tensor) (i : Z) :
  GetOutputPtr (elementwise.indexer_of inputs dst) i
  = elementwise.cell_of dst i.
Proof. reflexivity. Qed.

Lemma indexer_of_workloads (inputs : list Tensor) (dst : Tensor) :
  NumWorkloads (elementwise.indexer_of inputs dst) = NumElements dst.
Proof. reflexivity. Qed.

(** An input of the shape of the output is read element by element. *)
Lemma indexer_of_input (inputs : list Tensor) (dst src : Tensor) (k : nat)
    (i : Z) :
  inputs !! k = Some src ->
  GetShape src = GetShape dst ->
  deref (GetInputPtr (elementwise.indexer_of inputs dst) k i)
  = element src i.
Proof.
  intros Hk Hshape.
  unfold GetInputPtr, elementwise.indexer_of, deref, element.
  cbn [inputs_ master_shape_].
  rewrite list_lookup_fmap, Hk. cbn [fmap option_fmap option_map].
  unfold BroadcastRestride. cbn [ref_blob ref_ptr ref_strides ptr_blob
                                 ptr_off].
  unfold GetShape in *. rewrite <- Hshape, Nat.sub_diag.
  cbn [replicate app]. now rewrite offset_of_broadcast_same.
Qed.

Lemma in_bounds_element (t : Tensor) (i : Z) :
  in_bounds t -> 0 <= i < NumElements t ->
  exists x, element t i = Some x.
Proof.
  intros [_ Hb] Hi. specialize (Hb i Hi). unfold element, read.
  destruct (Z.leb_spec 0 (data_ptr_ t
              + shape_util.offset_of (shape_ t) (strides_ t) i)); [|lia].
  apply lookup_lt_is_Some_2. lia.
Qed.

(** The elements of the output after a scatter over its cells. *)
Lemma scatter_elements (dst : Tensor) (val : Z -> option Scalar)
    (blob : kernel.Blob) (i : Z) (v : Scalar) :
  in_bounds (with_blob dst blob) ->
  elementwise.injective_layout dst ->
  0 <= i < NumElements dst ->
  val i = Some v ->
  element
    (with_blob dst
       (elementwise.ParallelFor_in_order (seq 0 (Z.to_nat (NumElements dst)))
          (elementwise.scatter_step (elementwise.cell_of dst) val) blob)) i
  = Some v.
Proof.
  intros [_ Hb] Hinj Hi Hv.
  unfold element. cbn [with_blob blob_ data_ptr_ shape_ strides_].
  change (data_ptr_ dst + shape_util.offset_of (shape_ dst) (strides_ dst) i)
    with (elementwise.cell_of dst i).
  rewrite <- (Z2Nat.id i) by lia.
  apply scatter_read.
  - apply in_seq_range. lia.
  - now rewrite Z2Nat.id by lia.
  - intros k Hk E. apply in_seq_range in Hk.
    apply Nat2Z.inj. apply Hinj; [lia|lia|exact E].
  - rewrite Z2Nat.id by lia. apply (Hb i Hi).
Qed.

(** The cells of the buffer after a scatter over the cells of the
    output: the length is kept, and so is every cell that is not a cell
    of the output. *)
Lemma scatter_outside (dst : Tensor) (val : Z -> option Scalar)
    (blob : kernel.Blob) :
  let blob' :=
    elementwise.ParallelFor_in_order (seq 0 (Z.to_nat (NumElements dst)))
      (elementwise.scatter_step (elementwise.cell_of dst) val) blob in
  length blob' = length blob /\
  forall q,
    (forall i, 0 <= i < NumElements dst -> elementwise.cell_of dst i <> q) ->
    read blob' q = read blob q.
Proof.
  split; [apply scatter_length|].
  intros q Hq. apply scatter_frame.
  intros k Hk. apply Hq. now apply in_seq_range.
Qed.

Lemma contiguous_cell_of (t : Tensor) (i : Z) :
  IsContiguous t = true ->
  Forall (fun d => 0 <= d) (GetShape t) ->
  0 <= i < NumElements t ->
  elementwise.cell_of t i = GetDataPtr t + i.
Proof.
  intros Hc Hnn Hi. unfold IsContiguous in Hc.
  apply bool_decide_eq_true in Hc.
  unfold elementwise.cell_of. rewrite Hc.
  now rewrite offset_of_contiguous.
Qed.

(** A contiguous tensor has one cell per element. *)
Lemma contiguous_injective_layout (t : Tensor) :
  IsContiguous t = true ->
  Forall (fun d => 0 <= d) (GetShape t) ->
  elementwise.injective_layout t.
Proof.
  intros Hc Hnn i j Hi Hj.
  rewrite !contiguous_cell_of by assumption. lia.
Qed.

(** A contiguous tensor that fits its buffer. *)
Lemma contiguous_in_bounds (t : Tensor) :
  IsContiguous t = true ->
  Forall (fun d => 0 <= d) (GetShape t) ->
  0 <= GetDataPtr t ->
  GetDataPtr t + NumElements t <= Z.of_nat (length (blob_ t)) ->
  in_bounds t.
Proof.
  intros Hc Hnn Hp Hlen. split; [exact Hnn|].
  intros i Hi.
  change (0 <= elementwise.cell_of t i < Z.of_nat (length (blob_ t))).
  rewrite contiguous_cell_of by assumption. lia.
Qed.
End Launch_facts.

(** ** Unary and binary element-wise operations *)

Section Elementwise_claims.
Context `{SM : ScalarModel}.

Lemma broadcastable_same_shape (inputs : list Tensor) (dst : Tensor) :
  Forall (fun t => GetShape t = GetShape dst) inputs ->
  elementwise.broadcastable inputs dst = true.
Proof.
  intros H. unfold elementwise.broadcastable.
  induction H as [|t inputs Ht _ IH]; [reflexivity|].
  cbn [forallb]. now rewrite Ht, CanBeBrocastedToShape_refl.
Qed.

(** The elements of the output after a unary launch over tensors of one
    shape. *)
Lemma unary_launch_elements (src dst : Tensor) (f : Scalar -> Scalar)
    (blob : kernel.Blob) :
  GetShape src = GetShape dst ->
  in_bounds src ->
  in_bounds (with_blob dst blob) ->
  elementwise.injective_layout dst ->
  exists blob',
    kernel.LaunchUnaryEWKernel (elementwise.indexer_of [src] dst)
      (kernel.store1 f) blob = (Ok tt, blob') /\
    forall i, 0 <= i < NumElements dst ->
      exists x, element src i = Some x /\
                element (with_blob dst blob') i = Some (f x).
Proof.
  intros Hshape Hbs Hbd Hinj.
  rewrite unary_launch_in_order, unary_in_order_scatter.
  eexists. split; [reflexivity|]. intros i Hi.
  assert (HN : NumElements src = NumElements dst)
    by (unfold NumElements, GetShape in *; now rewrite Hshape).
  destruct (in_bounds_element src i Hbs) as [x Hx]; [lia|].
  exists x. split; [exact Hx|].
  rewrite indexer_of_workloads.
  apply (scatter_elements dst _ blob i (f x) Hbd Hinj Hi).
  unfold elementwise.unary_val.
  rewrite (indexer_of_input [src] dst src 0 i eq_refl Hshape), Hx.
  reflexivity.
Qed.


(** A launch changes the cells of the output only. *)
Lemma unary_launch_outside (inputs : list Tensor) (dst : Tensor)
    (f : Scalar -> Scalar) (blob : kernel.Blob) :
  exists blob',
    kernel.LaunchUnaryEWKernel (elementwise.indexer_of inputs dst)
      (kernel.store1 f) blob = (Ok tt, blob') /\
    length blob' = length blob /\
    forall q,
      (forall i, 0 <= i < NumElements dst ->
                 elementwise.cell_of dst i <> q) ->
      read blob' q = read blob q.
Proof.
  rewrite unary_launch_in_order, unary_in_order_scatter.
  eexists. split; [reflexivity|].
  rewrite indexer_of_workloads. apply scatter_outside.
Qed.

Lemma binary_launch_outside (inputs : list Tensor) (dst : Tensor)
    (f : Scalar -> Scalar -> Scalar) (blob : kernel.Blob) :
  exists blob',
    kernel.LaunchBinaryEWKernel (elementwise.indexer_of inputs dst)
      (kernel.store2 f) blob = (Ok tt, blob') /\
    length blob' = length blob /\
    forall q,
      (forall i, 0 <= i < NumElements dst ->
                 elementwise.cell_of dst i <> q) ->
      read blob' q = read blob q.
Proof.
  rewrite binary_launch_in_order, binary_in_order_scatter.
  eexists. split; [reflexivity|].
  rewrite indexer_of_workloads. apply scatter_outside.
Qed.

(** X13: what [UnaryEWCPU] computes, and for which dtypes.  For tensors
    of one shape, in any layout that gives the output one cell per
    element, a supported combination of operation and dtypes succeeds
    and leaves in every element of the output the function of the
    operation applied to the element of the input; an unsupported
    combination raises and leaves the output as it was. *)
Theorem UnaryEWCPU_elementwise (src dst : Tensor)
    (op_code : UnaryEWOpCode.t) (blob : kernel.Blob) :
  GetShape src = GetShape dst ->
  in_bounds src ->
  in_bounds (with_blob dst blob) ->
  elementwise.injective_layout dst ->
  (elementwise.unary_supported op_code (GetDtype src) (GetDtype dst) = true ->
   exists blob',
     kernel.UnaryEWCPU src dst op_code blob = (Ok tt, blob') /\
     forall i, 0 <= i < NumElements dst ->
       exists x,
         element src i = Some x /\
         element (with_blob dst blob') i
         = Some (elementwise.unary_result op_code
                   (GetDtype src) (GetDtype dst) x)) /\
  (elementwise.unary_supported op_code (GetDtype src) (GetDtype dst) = false ->
   exists msg, kernel.UnaryEWCPU src dst op_code blob = (Err msg, blob)).
Proof.
  intros Hshape Hbs Hbd Hinj.
  destruct (UnaryEWCPU_cases src dst op_code blob) as [Hok Hfail].
  cbv zeta in Hok, Hfail.
  rewrite (broadcastable_same_shape [src] dst) in Hok, Hfail
    by (repeat constructor; exact Hshape).
  rewrite andb_true_r in Hok, Hfail.
  split; [|exact Hfail].
  intros Hs. rewrite (Hok Hs).
  now apply unary_launch_elements.
Qed.

(** X14: [UnaryEWCPU] writes the cells of the output and no other.
    Whatever the operation, the dtypes and the shapes, the buffer keeps
    its length and every cell that is not the cell of an element of the
    output keeps its value; a call that raises has written nothing. *)
Theorem UnaryEWCPU_writes_only_output (src dst : Tensor)
    (op_code : UnaryEWOpCode.t) (blob blob' : kernel.Blob)
    (res : Result unit) :
  kernel.UnaryEWCPU src dst op_code blob = (res, blob') ->
  length blob' = length blob /\
  (forall q,
     (forall i, 0 <= i < NumElements dst ->
                elementwise.cell_of dst i <> q) ->
     read blob' q = read blob q) /\
  (is_err res = true -> blob' = blob).
Proof.
  intros Hrun.
  destruct (UnaryEWCPU_cases src dst op_code blob) as [Hok Hfail].
  cbv zeta in Hok, Hfail.
  destruct (elementwise.unary_supported _ _ _ && _).
  - rewrite (Hok eq_refl) in Hrun.
    destruct (unary_launch_outside [src] dst
                (elementwise.unary_result op_code (GetDtype src)
                   (GetDtype dst)) blob)
      as (b & Hb & Hlen & Hframe).
    rewrite Hb in Hrun. injection Hrun as <- <-.
    repeat split; auto. discriminate.
  - destruct (Hfail eq_refl) as [msg Hmsg].
    rewrite Hmsg in Hrun. injection Hrun as <- <-. auto.
Qed.


(** X16: [BinaryEWCPU] writes the cells of the output and no other.
    Whatever the operation, the dtypes and the shapes, the buffer keeps
    its length and every cell that is not the cell of an element of the
    output keeps its value; a call that raises has written nothing. *)
Theorem BinaryEWCPU_writes_only_output (lhs rhs dst : Tensor)
    (op_code : BinaryEWOpCode.t) (blob blob' : kernel.Blob)
    (res : Result unit) :
  kernel.BinaryEWCPU lhs rhs dst op_code blob = (res, blob') ->
  length blob' = length blob /\
  (forall q,
     (forall i, 0 <= i < NumElements dst ->
                elementwise.cell_of dst i <> q) ->
     read blob' q = read blob q) /\
  (is_err res = true -> blob' = blob).
Proof.
  intros Hrun.
  destruct (BinaryEWCPU_cases lhs rhs dst op_code blob) as [Hok Hfail].
  cbv zeta in Hok, Hfail.
  destruct (elementwise.binary_supported _ _ _ _ && _).
  - rewrite (Hok eq_refl) in Hrun.
    destruct (binary_launch_outside [lhs; rhs] dst
                (elementwise.binary_result op_code (GetDtype lhs)
                   (GetDtype dst)) blob)
      as (b & Hb & Hlen & Hframe).
    rewrite Hb in Hrun. injection Hrun as <- <-.
    repeat split; auto. discriminate.
  - destruct (Hfail eq_refl) as [msg Hmsg].
    rewrite Hmsg in Hrun. injection Hrun as <- <-. auto.
Qed.

(** X17: the launches do not depend on the schedule of the parallel
    loop.  When the output has one cell per element, running the
    iterations of a unary or binary launch in any order gives the
    buffer the loop in index order gives: the iterations write distinct
    cells and read none of them. *)
Theorem launch_schedule_independent (inputs : list Tensor) (dst : Tensor)
    (f : Scalar -> Scalar) (g : Scalar -> Scalar -> Scalar)
    (order : list nat) (blob : kernel.Blob) :
  elementwise.injective_layout dst ->
  Permutation order (seq 0 (Z.to_nat (NumElements dst))) ->
  elementwise.LaunchUnaryEWKernel_in_order order
    (elementwise.indexer_of inputs dst) (kernel.store1 f) blob
  = kernel.LaunchUnaryEWKernel
      (elementwise.indexer_of inputs dst) (kernel.store1 f) blob /\
  elementwise.LaunchBinaryEWKernel_in_order order
    (elementwise.indexer_of inputs dst) (kernel.store2 g) blob
  = kernel.LaunchBinaryEWKernel
      (elementwise.indexer_of inputs dst) (kernel.store2 g) blob.
Proof.
  intros Hinj Hp.
  rewrite unary_launch_in_order, binary_launch_in_order.
  rewrite !unary_in_order_scatter, !binary_in_order_scatter.
  rewrite indexer_of_workloads.
  split; f_equal; apply scatter_schedule; try exact Hp;
    intros i j Hi Hj E; now apply Hinj.
Qed.
End Elementwise_claims.

(** ** The copy kernel in any layout *)

Section Copy_any_layout.
Context `{SM : ScalarModel}.








End Copy_any_layout.

(** A contiguous tensor of integer cells fits its buffer and has one
    cell per element. *)
Ltac contiguous_tensor :=
  first
    [ apply contiguous_in_bounds;
      [ reflexivity
      | repeat constructor; lia
      | cbn; lia
      | unfold NumElements; cbn; lia ]
    | apply contiguous_injective_layout;
      [ reflexivity | repeat constructor; lia ] ].

(** The theorem at work: three [Int32] cells negated. *)
Lemma UnaryEWCPU_elementwise_witness :
  let src := IntegerCells.tensor [3] Dtype.Int32 IntegerCells.cpu0
               [4; -9; 0] in
  let dst := IntegerCells.tensor [3] Dtype.Int32 IntegerCells.cpu0
               [0; 0; 0] in
  exists blob',
    kernel.UnaryEWCPU src dst UnaryEWOpCode.Neg [0; 0; 0] = (Ok tt, blob') /\
    forall i, 0 <= i < NumElements dst ->
      exists x,
        element src i = Some x /\
        element (with_blob dst blob') i
        = Some (elementwise.unary_result (SM := IntegerCells.scalars)
                  UnaryEWOpCode.Neg Dtype.Int32 Dtype.Int32 x).
Proof.
  intros src dst.
  apply (proj1 (UnaryEWCPU_elementwise (SM := IntegerCells.scalars)
                  src dst UnaryEWOpCode.Neg [0; 0; 0]
                  eq_refl ltac:(contiguous_tensor)
                  ltac:(contiguous_tensor) ltac:(contiguous_tensor))).
  reflexivity.
Defined.

(** The theorem at work: two cells in the middle of a buffer are
    negated, the cells around them survive. *)
Lemma UnaryEWCPU_writes_only_output_witness :
  let dst := @mkTensor IntegerCells.scalars [2] [1] Dtype.Int32
               IntegerCells.cpu0 1 [] in
  length [7; -4; 9; 7] = length [7; 0; 0; 7] /\
  (forall q,
     (forall i, 0 <= i < NumElements dst -> elementwise.cell_of dst i <> q) ->
     read [7; -4; 9; 7] q = read [7; 0; 0; 7] q).
Proof.
  intros dst.
  destruct (UnaryEWCPU_writes_only_output (SM := IntegerCells.scalars)
              (IntegerCells.tensor [2] Dtype.Int32 IntegerCells.cpu0 [4; -9])
              dst UnaryEWOpCode.Neg [7; 0; 0; 7] [7; -4; 9; 7] (Ok tt)
              eq_refl)
    as (Hlen & Hframe & _).
  auto.
Defined.


(** The theorem at work: two cells in the middle of a buffer receive
    a sum, the cells around them survive. *)
Lemma BinaryEWCPU_writes_only_output_witness :
  let dst := @mkTensor IntegerCells.scalars [2] [1] Dtype.Int32
               IntegerCells.cpu0 1 [] in
  length [7; 3; 10; 7] = length [7; 0; 0; 7] /\
  (forall q,
     (forall i, 0 <= i < NumElements dst -> elementwise.cell_of dst i <> q) ->
     read [7; 3; 10; 7] q = read [7; 0; 0; 7] q).
Proof.
  intros dst.
  destruct (BinaryEWCPU_writes_only_output (SM := IntegerCells.scalars)
              (IntegerCells.tensor [2] Dtype.Int32 IntegerCells.cpu0 [1; 5])
              (IntegerCells.tensor [2] Dtype.Int32 IntegerCells.cpu0 [2; 5])
              dst BinaryEWOpCode.Add [7; 0; 0; 7] [7; 3; 10; 7] (Ok tt)
              eq_refl)
    as (Hlen & Hframe & _).
  auto.
Defined.

(** The theorem at work: three workloads run last to first. *)
Lemma launch_schedule_independent_witness :
  let src := IntegerCells.tensor [3] Dtype.Int32 IntegerCells.cpu0
               [4; -9; 0] in
  let dst := IntegerCells.tensor [3] Dtype.Int32 IntegerCells.cpu0
               [0; 0; 0] in
  elementwise.LaunchUnaryEWKernel_in_order [2; 1; 0]%nat
    (elementwise.indexer_of [src] dst)
    (kernel.store1 (fun x : @Scalar IntegerCells.scalars => - x)) [0; 0; 0]
  = kernel.LaunchUnaryEWKernel (elementwise.indexer_of [src] dst)
      (kernel.store1 (fun x : @Scalar IntegerCells.scalars => - x))
      [0; 0; 0].
Proof.
  intros src dst.
  apply (proj1 (launch_schedule_independent (SM := IntegerCells.scalars)
                  [src] dst (fun x => - x) (fun x y => x + y)
                  [2; 1; 0]%nat [0; 0; 0]
                  ltac:(contiguous_tensor)
                  ltac:(exact (Permutation_sym
                           (Permutation_rev [0; 1; 2]%nat))))).
Defined.



(** ** More on the index: builds without CUDA, success, late failure *)

Section Index_more.
Context `{SM : ScalarModel} `{DM : !nns.DeviceModel}.

Lemma Qle_bool_false (r : Q) : Qle_bool r 0 = false <-> (0 < r)%Q.
Proof.
  split; [|apply Qle_bool_pos].
  intros H. apply Qnot_le_lt. intros Hle.
  apply Qle_bool_iff in Hle. congruence.
Qed.

(** A search on an index whose dataset is not of a float dtype fails
    before any device call. *)
Lemma search_not_float (cfg : BuildConfig) (q : Tensor) (r : Q)
    (sort : bool) (knn : Z) (w : nns.World) :
  BUILD_CUDA_MODULE cfg = true ->
  Dtype.is_float (nns.GetDtype (nns.this w)) = false ->
  (exists msg, nns.SearchRadius cfg q r sort w = (Err msg, w)) /\
  (exists msg, nns.SearchHybrid cfg q r knn w = (Err msg, w)).
Proof.
  intros Hb Hf.
  destruct (SearchRadius_checks cfg q r sort w Hb) as (k1 & ->).
  destruct (SearchHybrid_checks cfg q r knn w Hb) as (B & k2 & k2' & ->).
  split.
  - destruct (checks_pass_or_fail (nns.this w) q r
                (DISPATCH_FLOAT_DTYPE_TO_TEMPLATE
                   (nns.GetDtype (nns.this w)) k1) w) as [Hc| ->];
      [exact Hc|].
    unfold DISPATCH_FLOAT_DTYPE_TO_TEMPLATE. rewrite Hf.
    eexists; reflexivity.
  - destruct (checks_pass_or_fail (nns.this w) q r
                (bind (DISPATCH_FLOAT_DTYPE_TO_TEMPLATE
                         (nns.GetDtype (nns.this w)) k2) k2') w)
      as [Hc| ->]; [exact Hc|].
    unfold bind, DISPATCH_FLOAT_DTYPE_TO_TEMPLATE. rewrite Hf.
    eexists; reflexivity.
Qed.

(** X20: an index cannot be used in a build without the CUDA module.
    There [SetTensorData], the constructor with data, [SearchRadius] and
    [SearchHybrid] raise for every input, before they look at it; the
    index and the device log stay as they were. *)
Theorem FixedRadiusIndex_needs_cuda_build (cfg : BuildConfig)
    (dataset_points query_points : Tensor) (radius : Q) (sort : bool)
    (max_knn : Z) (w : nns.World) :
  BUILD_CUDA_MODULE cfg = false ->
  (exists msg,
     nns.SetTensorData cfg dataset_points radius w = (Err msg, w)) /\
  (exists msg,
     nns_construct.FixedRadiusIndex_with_data cfg dataset_points radius
       (nns.trace w) = (Err msg, nns.trace w)) /\
  (exists msg,
     nns.SearchRadius cfg query_points radius sort w = (Err msg, w)) /\
  (exists msg,
     nns.SearchHybrid cfg query_points radius max_knn w = (Err msg, w)).
Proof.
  intros Hb.
  unfold nns_construct.FixedRadiusIndex_with_data,
    nns.SetTensorData, nns.SearchRadius, nns.SearchHybrid.
  rewrite Hb. repeat split; eexists; reflexivity.
Qed.

(** X21: when [SetTensorData] succeeds, and what it leaves.  It returns
    exactly when the build has CUDA, the dataset is on a CUDA device,
    the radius is positive and the dtype is [Float32] or [Float64]; it
    then returns true -- it never returns false -- and the index it
    leaves is determined by the dataset and the radius alone: nothing of
    the index it was called on survives. *)
Theorem SetTensorData_succeeds_iff (cfg : BuildConfig)
    (dataset_points : Tensor) (radius : Q) (w : nns.World) :
  ((exists b w',
      nns.SetTensorData cfg dataset_points radius w = (Ok b, w'))
   <->
   BUILD_CUDA_MODULE cfg = true /\
   Device.GetType (device_ dataset_points) = Device.CUDA /\
   (0 < radius)%Q /\
   Dtype.is_float (dtype_ dataset_points) = true) /\
  (forall b w',
     nns.SetTensorData cfg dataset_points radius w = (Ok b, w') ->
     b = true /\
     nns.this w' = nns.index_after_SetTensorData dataset_points radius).
Proof.
  split; [split|].
  - intros (b & w' & Hrun).
    destruct (SetTensorData_Ok_inv _ _ _ _ _ _ Hrun) as (Hb & Hd & Hr & Hf).
    repeat split; auto. now apply Qle_bool_false.
  - intros (Hb & Hd & Hr & Hf). apply Qle_bool_false in Hr.
    eexists _, _. apply (SetTensorData_runs cfg _ _ w Hb Hd Hr Hf).
  - intros b w' Hrun.
    destruct (SetTensorData_Ok_inv _ _ _ _ _ _ Hrun) as (Hb & Hd & Hr & Hf).
    rewrite (SetTensorData_runs cfg _ _ w Hb Hd Hr Hf) in Hrun.
    injection Hrun as <- <-. split; reflexivity.
Qed.

(** X22: a dataset of a dtype that is not a float is refused too late.
    [SetTensorData] has then stored the dataset and replaced the row
    splits and the two table tensors by fresh ones before the dispatch
    raises: the call fails, no device call was made, but the index it
    was called on is gone, and every search on what is left fails. *)
Theorem SetTensorData_not_float_loses_index (cfg : BuildConfig)
    (dataset_points : Tensor) (radius : Q) (w : nns.World) :
  BUILD_CUDA_MODULE cfg = true ->
  Device.GetType (device_ dataset_points) = Device.CUDA ->
  (0 < radius)%Q ->
  Dtype.is_float (dtype_ dataset_points) = false ->
  exists msg w',
    nns.SetTensorData cfg dataset_points radius w = (Err msg, w') /\
    nns.trace w' = nns.trace w /\
    nns.dataset_points_ (nns.this w') = nns.Contiguous dataset_points /\
    nns.points_row_splits_ (nns.this w')
    = [0; default 0 (shape_ dataset_points !! 0%nat)] /\
    nns.arr_shape (nns.hash_table_index_ (nns.this w'))
    = [default 0 (shape_ dataset_points !! 0%nat)] /\
    forall query_points r sort max_knn,
      (exists msg',
         nns.SearchRadius cfg query_points r sort w' = (Err msg', w')) /\
      (exists msg',
         nns.SearchHybrid cfg query_points r max_knn w' = (Err msg', w')).
Proof.
  intros Hb Hd Hr Hf. apply Qle_bool_false in Hr.
  assert (Hrun : exists msg w',
    nns.SetTensorData cfg dataset_points radius w = (Err msg, w') /\
    nns.trace w' = nns.trace w /\
    nns.dataset_points_ (nns.this w') = nns.Contiguous dataset_points /\
    nns.points_row_splits_ (nns.this w')
    = [0; default 0 (shape_ dataset_points !! 0%nat)] /\
    nns.arr_shape (nns.hash_table_index_ (nns.this w'))
    = [default 0 (shape_ dataset_points !! 0%nat)]).
  { unfold nns.SetTensorData. rewrite Hb, Hd, Hr. simpl.
    unfold bind, nns.update, nns.self, modify, get, ret. simpl.
    unfold DISPATCH_FLOAT_DTYPE_TO_TEMPLATE, nns.GetDtype. simpl.
    rewrite Contiguous_dtype, Hf. simpl.
    eexists. eexists. split; [reflexivity|]. simpl.
    unfold nns.GetDatasetSize, GetShape. simpl.
    rewrite Contiguous_shape. repeat split. }
  destruct Hrun as (msg & w' & Hrun & Htrace & Hdata & Hsplits & Hshape).
  exists msg, w'. repeat split; auto;
    apply search_not_float; auto;
    unfold nns.GetDtype; rewrite Hdata, Contiguous_dtype; exact Hf.
Qed.
End Index_more.

(** X23: the size of the hash table.  For every number of points, from
    none up to the largest [int64_t], the table has at least one cell
    and at most [2 ^ 25]; it has one cell up to 63 points, the maximum
    from [2 ^ 30] points on, and does not shrink when points are added
    -- the conversion of the count to [double] notwithstanding. *)
Theorem hash_table_size_bounds (n m : Z) :
  0 <= n <= m ->
  1 <= nns.hash_table_size_of n <= 2 ^ 25 /\
  nns.hash_table_size_of n <= nns.hash_table_size_of m /\
  (n < 64 -> nns.hash_table_size_of n = 1) /\
  (2 ^ 30 <= n -> nns.hash_table_size_of n = 2 ^ 25).
Proof.
  intros [Hn Hm].
  rewrite !hash_table_size_of_spec by lia.
  assert (Hdiv : n / 32 <= m / 32) by (apply Z.div_le_mono; lia).
  assert (H0 : 0 <= n / 32) by (apply Z.div_pos; lia).
  change (2 ^ 25) with 33554432. change (2 ^ 30) with 1073741824.
  split; [lia|]. split; [lia|]. split.
  - intros Hs.
    assert (n / 32 <= 1).
    { apply Z.lt_succ_r. apply Z.div_lt_upper_bound; lia. }
    lia.
  - intros Hl.
    assert (33554432 <= n / 32) by (apply Z.div_le_lower_bound; lia).
    lia.
Qed.

(** ** The stream of the calling thread *)

Lemma GetStream_cases (thread : nat)
    (instances : gmap nat cuda_stream.CUDAStream) :
  cuda_stream.GetStream thread instances
  = match instances !! thread with
    | Some instance => (Ok (cuda_stream.stream_ instance), instances)
    | None =>
        (Ok cuda_stream.Default,
         <[thread := cuda_stream.CUDAStream_new]> instances)
    end.
Proof.
  unfold cuda_stream.GetStream, cuda_stream.Get, cuda_stream.GetInstance,
    bind, get, put, ret.
  destruct (instances !! thread); reflexivity.
Qed.

Lemma SetStream_cases (thread : nat) (stream : cuda_stream.cudaStream_t)
    (instances : gmap nat cuda_stream.CUDAStream) :
  cuda_stream.SetStream thread stream instances
  = (Ok tt, <[thread := {| cuda_stream.stream_ := stream |}]> instances).
Proof.
  unfold cuda_stream.SetStream, cuda_stream.Set_, cuda_stream.GetInstance,
    bind, get, put, ret, modify.
  destruct (instances !! thread); [reflexivity|].
  cbn. f_equal. apply insert_insert_eq.
Qed.

(** X24: the current stream is a property of the thread.  A thread that
    never set a stream gets the default stream; after [SetStream], the
    same thread gets the stream it set, and every other thread gets what
    it got before. *)
Theorem stream_is_thread_local (thread other : nat)
    (stream : cuda_stream.cudaStream_t)
    (instances : gmap nat cuda_stream.CUDAStream) :
  (instances !! thread = None ->
   fst (cuda_stream.GetStream thread instances)
   = Ok cuda_stream.GetDefaultStream) /\
  (exists instances',
     cuda_stream.SetStream thread stream instances = (Ok tt, instances') /\
     fst (cuda_stream.GetStream thread instances') = Ok stream /\
     (other <> thread ->
      fst (cuda_stream.GetStream other instances')
      = fst (cuda_stream.GetStream other instances))).
Proof.
  split.
  - intros Hnone. now rewrite GetStream_cases, Hnone.
  - rewrite SetStream_cases. eexists. split; [reflexivity|].
    rewrite !GetStream_cases. split.
    + now rewrite lookup_insert_eq.
    + intros Hne. rewrite lookup_insert_ne by congruence.
      now destruct (instances !! other).
Qed.

(** ** The additional index properties at work *)

(** Without the CUDA module, the index built in a CUDA build answers no
    query and cannot be rebuilt. *)
Lemma FixedRadiusIndex_needs_cuda_build_witness :
  (exists msg,
     nns.SetTensorData (DM := IntegerCells.device)
       {| BUILD_CUDA_MODULE := false; BUILD_CACHED_CUDA_MANAGER := false |}
       IntegerCells.dataset 1 IntegerCells.built_world
     = (Err msg, IntegerCells.built_world)) /\
  (exists msg,
     nns.SearchRadius (DM := IntegerCells.device)
       {| BUILD_CUDA_MODULE := false; BUILD_CACHED_CUDA_MANAGER := false |}
       IntegerCells.queries 1 true IntegerCells.built_world
     = (Err msg, IntegerCells.built_world)).
Proof.
  destruct (FixedRadiusIndex_needs_cuda_build (DM := IntegerCells.device)
              {| BUILD_CUDA_MODULE := false;
                 BUILD_CACHED_CUDA_MANAGER := false |}
              IntegerCells.dataset IntegerCells.queries 1 true 3
              IntegerCells.built_world eq_refl)
    as (Hset & _ & Hradius & _).
  split; [exact Hset | exact Hradius].
Defined.

(** Four points with integer coordinates, given to the index built over
    [IntegerCells.dataset]: the call raises, the row splits are those of
    the new dataset, and the index answers no query any more. *)
Lemma SetTensorData_not_float_loses_index_witness :
  exists msg w',
    nns.SetTensorData (DM := IntegerCells.device) IntegerCells.cuda_on
      (IntegerCells.tensor [3; 2] Dtype.Int32 IntegerCells.cuda0
         [0; 0; 1; 0; 5; 5])
      1 IntegerCells.built_world
    = (Err msg, w') /\
    nns.points_row_splits_ (nns.this w') = [0; 3] /\
    exists msg',
      nns.SearchRadius (DM := IntegerCells.device) IntegerCells.cuda_on
        IntegerCells.queries 1 true w'
      = (Err msg', w').
Proof.
  destruct (SetTensorData_not_float_loses_index
              (DM := IntegerCells.device) IntegerCells.cuda_on
              (IntegerCells.tensor [3; 2] Dtype.Int32 IntegerCells.cuda0
                 [0; 0; 1; 0; 5; 5])
              1 IntegerCells.built_world eq_refl eq_refl eq_refl eq_refl)
    as (msg & w' & Hrun & _ & _ & Hsplits & _ & Hsearch).
  exists msg, w'. split; [exact Hrun|]. split; [exact Hsplits|].
  exact (proj1 (Hsearch IntegerCells.queries (1 # 1) true 3)).
Defined.

(** Forty points get a table of one cell, two billion the largest. *)
Lemma hash_table_size_bounds_witness :
  nns.hash_table_size_of 40 = 1 /\
  nns.hash_table_size_of 40 <= nns.hash_table_size_of 2000000000 /\
  nns.hash_table_size_of 2000000000 = 2 ^ 25.
Proof.
  destruct (hash_table_size_bounds 40 2000000000) as (_ & Hle & Hone & _);
    [lia|].
  destruct (hash_table_size_bounds 2000000000 2000000000)
    as (_ & _ & _ & Hmax); [lia|].
  split; [apply Hone; lia|]. split; [exact Hle|].
  apply Hmax. change (2 ^ 30) with 1073741824. lia.
Defined.
